(** * ScanRx backend: the TTL cache, the EMDEX token manager and the cached
      request wrapper

    A shallow embedding of [api/services/cache-service.js] and
    [api/services/emdex-service.js], and of what is built on them: the pure
    functions of [api/services/drug-transformer.js], [extractDrugData] of the
    drug details endpoint, the authentication test endpoint and the brand
    search endpoint.

    Conventions of the model.
    - JavaScript numbers are integers ([Z]); every number the two files compute
      with is a millisecond timestamp, a number of seconds or a counter.
      [NaN] is the [None] of [option Z] where it can arise. The arithmetic of
      the model is exact; that of the code is exact on the whole numbers up to
      2^53, and a property that depends on it is stated for that range.
    - Strings are sequences of 8-bit characters; [toLowerCase] and [trim] act on
      the ASCII letters and the ASCII white space.
    - The module-level variables ([cache], [stats], [cachedToken],
      [tokenExpiresAt]) are threaded explicitly: every function takes the state
      it runs in and returns the state it leaves.
    - [Date.now()], [fetch] and the mock transport are read from a [World].
    - [Math.random()] is a sequence of identifiers given from outside; a
      function that draws from it takes the number of the next one and hands
      on the number it leaves. *)

From Stdlib Require Import ZArith List String Ascii Bool Lia.
From Stdlib Require Import Permutation Sorting.Sorted.
From Stdlib Require Import DecimalString.
Import ListNotations.

Local Open Scope string_scope.
Local Open Scope Z_scope.

(** ** JavaScript values *)

Module Js.

(** The values that flow through the two services: JSON data (what
    [response.json()] yields and what the cache stores), plus [undefined]. *)
#[warnings="-register-all"]
Inductive JsVal : Type :=
| JUndefined
| JNull
| JBool (b : bool)
| JNum (n : Z)
| JStr (s : string)
| JArr (elems : list JsVal)
| JObj (props : list (string * JsVal)).

(** An object is its list of own properties, in enumeration order; a name
    occurs at most once. *)
Definition JsObject := list (string * JsVal).

Definition keys {A} (o : list (string * A)) : list string := map fst o.

Definition wf_object {A} (o : list (string * A)) : Prop := NoDup (keys o).

(** [if (v)] *)
Definition truthy (v : JsVal) : bool :=
  match v with
  | JUndefined | JNull => false
  | JBool b => b
  | JNum n => negb (n =? 0)
  | JStr s => negb (s =? "")%string
  | JArr _ | JObj _ => true
  end.

(** [v === null || v === undefined] *)
Definition nullish (v : JsVal) : bool :=
  match v with
  | JUndefined | JNull => true
  | _ => false
  end.

(** [a || b] *)
Definition js_or (a b : JsVal) : JsVal := if truthy a then a else b.

Fixpoint lookup {A} (k : string) (o : list (string * A)) : option A :=
  match o with
  | [] => None
  | (k', v) :: rest => if (k' =? k)%string then Some v else lookup k rest
  end.

(** [o[k] = v]: an existing property keeps its place, a new one goes last. *)
Fixpoint assign {A} (k : string) (v : A) (o : list (string * A)) : list (string * A) :=
  match o with
  | [] => [(k, v)]
  | (k', v') :: rest =>
      if (k' =? k)%string then (k, v) :: rest else (k', v') :: assign k v rest
  end.

(** [delete o[k]] *)
Fixpoint remove {A} (k : string) (o : list (string * A)) : list (string * A) :=
  match o with
  | [] => []
  | (k', v') :: rest =>
      if (k' =? k)%string then remove k rest else (k', v') :: remove k rest
  end.

(** [params[key]] on an object: [undefined] for a missing property. *)
Definition prop (o : JsObject) (k : string) : JsVal :=
  match lookup k o with
  | Some v => v
  | None => JUndefined
  end.

(** [v.k] for a value that is neither [null] nor [undefined], and a name [k]
    that is not built in: only an object has such a property. *)
Definition field (v : JsVal) (k : string) : JsVal :=
  match v with
  | JObj props => prop props k
  | _ => JUndefined
  end.

Definition string_of_Z (n : Z) : string := NilZero.string_of_int (Z.to_int n).

Definition string_of_nat (n : nat) : string := NilZero.string_of_uint (Nat.to_uint n).

(** [String(v)] and the conversion of template literals. An array joins the
    strings of its elements with commas, [null] and [undefined] elements giving
    the empty string; a plain object is ["[object Object]"]. *)
Fixpoint js_String (v : JsVal) : string :=
  match v with
  | JUndefined => "undefined"
  | JNull => "null"
  | JBool true => "true"
  | JBool false => "false"
  | JNum n => string_of_Z n
  | JStr s => s
  | JArr elems =>
      let element (e : JsVal) := if nullish e then "" else js_String e in
      String.concat "," (map element elems)
  | JObj _ => "[object Object]"
  end.

(** ASCII [toLowerCase]. *)
Definition lower_ascii (c : ascii) : ascii :=
  let n := nat_of_ascii c in
  if ((65 <=? n) && (n <=? 90))%nat then ascii_of_nat (n + 32) else c.

Fixpoint toLowerCase (s : string) : string :=
  match s with
  | EmptyString => EmptyString
  | String c rest => String (lower_ascii c) (toLowerCase rest)
  end.

(** ASCII white space and line terminators: TAB, LF, VT, FF, CR, space. *)
Definition is_space (c : ascii) : bool :=
  let n := nat_of_ascii c in
  (((9 <=? n) && (n <=? 13)) || (n =? 32))%nat.

Fixpoint trimStart (s : string) : string :=
  match s with
  | EmptyString => EmptyString
  | String c rest => if is_space c then trimStart rest else s
  end.

(** Drops the white space that ends the string. *)
Fixpoint trimEnd (s : string) : string :=
  match s with
  | EmptyString => EmptyString
  | String c rest =>
      match trimEnd rest with
      | EmptyString => if is_space c then EmptyString else String c EmptyString
      | kept => String c kept
      end
  end.

Definition trim (s : string) : string := trimEnd (trimStart s).

(** [s.replace(/\//g, '_')] *)
Fixpoint replace_slashes (s : string) : string :=
  match s with
  | EmptyString => EmptyString
  | String c rest =>
      String (if (c =? "/")%char then "_"%char else c) (replace_slashes rest)
  end.

(** [Array.prototype.sort]: a stable sort. [before a b] says that [a] may stay
    in front of [b] (the comparator is not positive). Elements are inserted
    from the right end, each one in front of the first element it may
    precede, so equal elements keep their order. *)
Section Sort.
Context {A : Type} (before : A -> A -> bool).

Fixpoint insert_sorted (x : A) (l : list A) : list A :=
  match l with
  | [] => [x]
  | y :: rest => if before x y then x :: l else y :: insert_sorted x rest
  end.

Definition sort (l : list A) : list A := fold_right insert_sorted [] l.
End Sort.

(** [{ ...v }]: the own enumerable properties of a value. *)
Fixpoint indexed {A} (i : nat) (l : list A) : list (string * A) :=
  match l with
  | [] => []
  | x :: rest => (string_of_nat i, x) :: indexed (S i) rest
  end.

Fixpoint chars (s : string) : list JsVal :=
  match s with
  | EmptyString => []
  | String c rest => JStr (String c EmptyString) :: chars rest
  end.

Definition spread (v : JsVal) : JsObject :=
  match v with
  | JObj props => props
  | JArr elems => indexed 0 elems
  | JStr s => indexed 0 (chars s)
  | _ => []
  end.

End Js.

Import Js.

(** ** cache-service.js *)

Module Cache.

(** [const MAX_CACHE_SIZE = 1000] *)
Definition MAX_CACHE_SIZE : Z := 1000.

(** A value of the [cache] map. *)
Record Item : Type := mkItem {
  data : JsVal;
  createdAt : Z;
  expiresAt : Z;
  ttl : Z
}.

(** The [stats] object. *)
Record Stats : Type := mkStats {
  hits : Z;
  misses : Z;
  sets : Z;
  evictions : Z
}.

(** The module state: the [cache] map, a [Map] that enumerates its entries in
    insertion order and holds each key once ([wf_object]), and the [stats]
    counters. *)
Record State : Type := mkState {
  cache : list (string * Item);
  stats : Stats
}.

Definition initial : State :=
  {| cache := []; stats := {| hits := 0; misses := 0; sets := 0; evictions := 0 |} |}.

(** [cache.size] *)
Definition size (st : State) : Z := Z.of_nat (List.length (cache st)).

Definition with_cache (c : list (string * Item)) (st : State) : State :=
  {| cache := c; stats := stats st |}.

Definition count_hit (st : State) : State :=
  {| cache := cache st;
     stats := {| hits := hits (stats st) + 1; misses := misses (stats st);
                 sets := sets (stats st); evictions := evictions (stats st) |} |}.

Definition count_miss (st : State) : State :=
  {| cache := cache st;
     stats := {| hits := hits (stats st); misses := misses (stats st) + 1;
                 sets := sets (stats st); evictions := evictions (stats st) |} |}.

Definition count_set (st : State) : State :=
  {| cache := cache st;
     stats := {| hits := hits (stats st); misses := misses (stats st);
                 sets := sets (stats st) + 1; evictions := evictions (stats st) |} |}.

Definition count_eviction (st : State) : State :=
  {| cache := cache st;
     stats := {| hits := hits (stats st); misses := misses (stats st);
                 sets := sets (stats st); evictions := evictions (stats st) + 1 |} |}.

(** [get(key)], run when [Date.now()] reads [now]. The result is [null]
    ([JNull]) for a missing or expired entry. *)
Definition get (now : Z) (key : string) (st : State) : JsVal * State :=
  match lookup key (cache st) with
  | None => (JNull, count_miss st)
  | Some item =>
      if expiresAt item <? now
      then (JNull, count_miss (with_cache (remove key (cache st)) st))
      else (data item, count_hit st)
  end.

(** The loop of [evictOldest]: [cache.delete(entries[i][0]); stats.evictions++]
    for each of the entries it is given. *)
Fixpoint evict_each (victims : list (string * Item)) (st : State) : State :=
  match victims with
  | [] => st
  | (k, _) :: rest =>
      evict_each rest (count_eviction (with_cache (remove k (cache st)) st))
  end.

(** [Math.ceil(MAX_CACHE_SIZE * 0.1)]: the product is the double 100. *)
Definition itemsToRemove : Z := (MAX_CACHE_SIZE + 9) / 10.

(** [(a, b) => a[1].createdAt - b[1].createdAt] is not positive. *)
Definition older_first (a b : string * Item) : bool :=
  createdAt (snd a) - createdAt (snd b) <=? 0.

(** [evictOldest()] *)
Definition evictOldest (st : State) : State :=
  let entries := sort older_first (cache st) in
  evict_each (firstn (Z.to_nat itemsToRemove) entries) st.

(** [set(key, data, ttlSeconds)]; [ttlSeconds] is 3600 for a caller that
    leaves it out. *)
Definition set (now : Z) (key : string) (value : JsVal) (ttlSeconds : Z)
    (st : State) : State :=
  let st1 := if MAX_CACHE_SIZE <=? size st then evictOldest st else st in
  let item := {| data := value; createdAt := now;
                 expiresAt := now + ttlSeconds * 1000; ttl := ttlSeconds |} in
  count_set (with_cache (assign key item (cache st1)) st1).

(** [del(key)]: [cache.delete(key)], true when an entry was removed. *)
Definition del (key : string) (st : State) : bool * State :=
  match lookup key (cache st) with
  | None => (false, st)
  | Some _ => (true, with_cache (remove key (cache st)) st)
  end.

(** [clear()] *)
Definition clear (st : State) : State := with_cache [] st.

(** [Math.ceil(n / 1000)] for an integer [n]: the ceiling of the exact
    quotient, which is what the code computes for [n] from 0 to 2^53. *)
Definition ceil_div_1000 (n : Z) : Z := (n + 999) / 1000.

(** [getTTL(key)] *)
Definition getTTL (now : Z) (key : string) (st : State) : Z * State :=
  match lookup key (cache st) with
  | None => (0, st)
  | Some item =>
      let remaining := expiresAt item - now in
      (if 0 <? remaining then ceil_div_1000 remaining else 0, st)
  end.

(** [has(key)] *)
Definition has (now : Z) (key : string) (st : State) : bool * State :=
  match lookup key (cache st) with
  | None => (false, st)
  | Some item =>
      if expiresAt item <? now
      then (false, with_cache (remove key (cache st)) st)
      else (true, st)
  end.

(** The numeric fields of [getStats()]: the counters, [size] and [maxSize]
    (the formatted [hitRate] string is left out). *)
Record StatsView : Type := mkStatsView {
  view_hits : Z; view_misses : Z; view_sets : Z; view_evictions : Z;
  view_size : Z; view_maxSize : Z
}.

Definition getStats (st : State) : StatsView :=
  {| view_hits := hits (stats st); view_misses := misses (stats st);
     view_sets := sets (stats st); view_evictions := evictions (stats st);
     view_size := size st; view_maxSize := MAX_CACHE_SIZE |}.

(** [generateKey(prefix, params)] *)
Definition key_part (params : JsObject) (key : string) : option string :=
  let value := prop params key in
  if nullish value then None
  else
    let normalizedValue := trim (toLowerCase (js_String value)) in
    Some (key ++ "=" ++ normalizedValue).

Fixpoint filter_parts (parts : list (option string)) : list string :=
  match parts with
  | [] => []
  | None :: rest => filter_parts rest
  | Some p :: rest => p :: filter_parts rest
  end.

Definition generateKey (prefix : string) (params : JsObject) : string :=
  let normalizedParts :=
    filter_parts (map (key_part params) (sort String.leb (keys params))) in
  let paramsString := String.concat "_" normalizedParts in
  if (paramsString =? "")%string then prefix else prefix ++ "_" ++ paramsString.

(** The operations a caller of the module can perform, each with the reading
    of [Date.now()] it runs under. *)
Inductive Op : Type :=
| OpGet (now : Z) (key : string)
| OpSet (now : Z) (key : string) (value : JsVal) (ttlSeconds : Z)
| OpDel (key : string)
| OpClear
| OpGetTTL (now : Z) (key : string)
| OpHas (now : Z) (key : string).

Definition step (st : State) (op : Op) : State :=
  match op with
  | OpGet now key => snd (get now key st)
  | OpSet now key value ttlSeconds => set now key value ttlSeconds st
  | OpDel key => snd (del key st)
  | OpClear => clear st
  | OpGetTTL now key => snd (getTTL now key st)
  | OpHas now key => snd (has now key st)
  end.

(** The state after a sequence of operations on a freshly loaded module. *)
Definition run (ops : list Op) : State := fold_left step ops initial.

End Cache.

(** ** emdex-service.js *)

Module Emdex.

(** The [code] of an [EmdexError]. *)
Inductive ErrorCode : Type := AUTH_FAILED | NETWORK_ERROR | REQUEST_FAILED.

(** The values the service throws: an [EmdexError] (message, code and the
    message of the error it wraps), or any other error (a rejected [fetch], a
    body that does not parse, a [TypeError]). *)
Inductive JsError : Type :=
| EmdexError (message : string) (code : ErrorCode) (originalError : option string)
| OtherError (message : string).

(** What [response.json()] settles to. *)
Inductive JsonBody : Type :=
| Parsed (value : JsVal)
| Unparsable (message : string).

(** A response [fetch] resolved with. It carries its whole body: [text] is
    what [response.text()] gives, [json] what [response.json()] settles to. *)
Record Response : Type := mkResponse {
  status : Z;
  statusText : string;
  text : string;
  json : JsonBody
}.

(** [response.ok] *)
Definition ok (r : Response) : bool := (200 <=? status r) && (status r <=? 299).

Inductive FetchResult : Type :=
| Resolves (r : Response)
| Rejects (message : string).

(** A call of [fetch]: the URL, the method, the headers and the entries of the
    [URLSearchParams] body. *)
Record Request : Type := mkRequest {
  url : string;
  method : string;
  headers : list (string * string);
  body : list (string * string)
}.

(** [process.env] and the [USE_MOCK] flag computed from it at load time. *)
Record Env : Type := mkEnv {
  EMDEX_API_URL : option string;
  EMDEX_EMAIL : option string;
  EMDEX_PASSWORD : option string;
  USE_MOCK : bool
}.

(** How a call ends: with a value, with a thrown error or, in the model only,
    with the nested calls it was allowed used up. *)
Inductive Outcome (A : Type) : Type :=
| Returns (a : A)
| Throws (e : JsError)
| OutOfFuel.

Arguments Returns {A} a.
Arguments Throws {A} e.
Arguments OutOfFuel {A}.

(** What a promise of the mock transport settles to. *)
Inductive Settled : Type :=
| Fulfilled (value : JsVal)
| Rejected (e : JsError).

(** What the service reads from outside: the successive readings of
    [Date.now()] (milliseconds since the epoch), the outcome of each [fetch] in
    the order they are issued, the mock transport of [mock-emdex-service], and
    the number the runtime reads in a string. *)
Record World : Type := mkWorld {
  date_now : nat -> N;
  upstream : nat -> FetchResult;
  mockEmdexRequest : string -> JsObject -> Settled;
  string_to_number : string -> option Z
}.

(** The module state: the token variables, the response cache of
    [cache-service], the number of clock readings taken and the [fetch] calls
    issued so far with their outcomes, oldest first. *)
Record State : Type := mkState {
  cachedToken : JsVal;
  tokenExpiresAt : option Z;
  responses : Cache.State;
  clock : nat;
  log : list (Request * FetchResult)
}.

Definition initial : State :=
  {| cachedToken := JNull; tokenExpiresAt := None; responses := Cache.initial;
     clock := 0; log := [] |}.

(** The state after one more reading of the clock, after one more [fetch], with
    other token variables, with another response cache. *)
Definition tick (s : State) : State :=
  {| cachedToken := cachedToken s; tokenExpiresAt := tokenExpiresAt s;
     responses := responses s; clock := S (clock s); log := log s |}.

Definition logged (entry : Request * FetchResult) (s : State) : State :=
  {| cachedToken := cachedToken s; tokenExpiresAt := tokenExpiresAt s;
     responses := responses s; clock := clock s; log := log s ++ [entry] |}.

Definition with_token (token : JsVal) (expires : option Z) (s : State) : State :=
  {| cachedToken := token; tokenExpiresAt := expires;
     responses := responses s; clock := clock s; log := log s |}.

Definition with_responses (c : Cache.State) (s : State) : State :=
  {| cachedToken := cachedToken s; tokenExpiresAt := tokenExpiresAt s;
     responses := c; clock := clock s; log := log s |}.

(** [const CACHE_TTL = { SEARCH: 3600, DETAILS: 86400, VERIFY: 86400 }] *)
Definition CACHE_TTL_SEARCH : Z := 3600.
Definition CACHE_TTL_DETAILS : Z := 86400.
Definition CACHE_TTL_VERIFY : Z := 86400.

(** *** The monad of the async functions *)

Definition M (A : Type) : Type := World -> State -> Outcome A * State.

Definition ret {A} (a : A) : M A := fun _ s => (Returns a, s).

Definition throw {A} (e : JsError) : M A := fun _ s => (Throws e, s).

Definition out_of_fuel {A} : M A := fun _ s => (OutOfFuel, s).

Definition bind {A B} (m : M A) (k : A -> M B) : M B :=
  fun w s =>
    match m w s with
    | (Returns a, s') => k a w s'
    | (Throws e, s') => (Throws e, s')
    | (OutOfFuel, s') => (OutOfFuel, s')
    end.

(** [try { m } catch (error) { handler error }] *)
Definition try_catch {A} (m : M A) (handler : JsError -> M A) : M A :=
  fun w s =>
    match m w s with
    | (Throws e, s') => handler e w s'
    | settled => settled
    end.

Notation "x <- m ;; k" := (bind m (fun x => k))
  (at level 61, m at next level, right associativity).
Notation "m ;;; k" := (bind m (fun _ => k))
  (at level 61, right associativity).

(** [Date.now()]: the next reading of the clock. *)
Definition Date_now : M Z :=
  fun w s => (Returns (Z.of_N (date_now w (clock s))), tick s).

(** [await fetch(...)]: a rejection is thrown. *)
Definition fetch (req : Request) : M Response :=
  fun w s =>
    let result := upstream w (List.length (log s)) in
    match result with
    | Resolves r => (Returns r, logged (req, result) s)
    | Rejects message => (Throws (OtherError message), logged (req, result) s)
    end.

(** [await response.json()] *)
Definition read_json (r : Response) : M JsVal :=
  match json r with
  | Parsed value => ret value
  | Unparsable message => throw (OtherError message)
  end.

Definition read_token : M (JsVal * option Z) :=
  fun _ s => (Returns (cachedToken s, tokenExpiresAt s), s).

Definition write_token (token : JsVal) (expires : option Z) : M unit :=
  fun _ s => (Returns tt, with_token token expires s).

(** The key has an entry in the cache, expired or not. *)
Definition held (key : string) (st : Cache.State) : bool :=
  match lookup key (Cache.cache st) with
  | Some _ => true
  | None => false
  end.

(** A call into [cache-service]. [reads] says whether the call reads the
    clock in the cache it finds: [get] and [getTTL] call [Date.now()] only for
    a key that has an entry, [set] always does. A call that does not read the
    clock leaves it as it is, and its result does not depend on the time. *)
Definition on_cache {A} (reads : Cache.State -> bool)
    (f : Z -> Cache.State -> A * Cache.State) : M A :=
  fun w s =>
    let now := Z.of_N (date_now w (clock s)) in
    (Returns (fst (f now (responses s))),
     with_responses (snd (f now (responses s)))
       (if reads (responses s) then tick s else s)).

(** [data.name] for a value read from JSON: a [TypeError] on [null]. *)
Definition member (v : JsVal) (name : string) : M JsVal :=
  match v with
  | JNull | JUndefined =>
      throw (OtherError ("Cannot read properties of " ++ js_String v
                         ++ " (reading '" ++ name ++ "')"))
  | _ => ret (field v name)
  end.

(** The number a value converts to in [value * 1000]; [None] is [NaN]. *)
Definition to_number (w : World) (v : JsVal) : option Z :=
  match v with
  | JUndefined => None
  | JNull => Some 0
  | JBool b => Some (if b then 1 else 0)
  | JNum n => Some n
  | JStr s => string_to_number w s
  | JArr _ | JObj _ => string_to_number w (js_String v)
  end.

Definition number_of (v : JsVal) : M (option Z) :=
  fun w s => (Returns (to_number w v), s).

(** [mockEmdexRequest(endpoint, body)] of the mock transport. *)
Definition mock_transport (endpoint : string) (params : JsObject) : M JsVal :=
  fun w s =>
    match mockEmdexRequest w endpoint params with
    | Fulfilled value => (Returns value, s)
    | Rejected e => (Throws e, s)
    end.

(** [!value] for an environment variable: unset or empty. *)
Definition unset (v : option string) : bool :=
  match v with
  | None => true
  | Some s => (s =? "")%string
  end.

Definition env_string (v : option string) : string :=
  match v with
  | None => "undefined"
  | Some s => s
  end.

Definition form_urlencoded : string * string :=
  ("Content-Type", "application/x-www-form-urlencoded").

Definition login_request (env : Env) : Request :=
  {| url := env_string (EMDEX_API_URL env) ++ "/api/v1/login";
     method := "POST";
     headers := [form_urlencoded];
     body := [("email", env_string (EMDEX_EMAIL env));
              ("password", env_string (EMDEX_PASSWORD env))] |}.

(** [data.token || data.access_token] and
    [data.expires_in || data.expiresIn || 3600], for [data] other than [null]
    (the first read of a property of [null] throws). *)
Definition login_token (data : JsVal) : JsVal :=
  js_or (field data "token") (field data "access_token").

Definition login_expiresIn (data : JsVal) : JsVal :=
  js_or (js_or (field data "expires_in") (field data "expiresIn")) (JNum 3600).

(** The environment lacks one of the three settings. *)
Definition unconfigured (env : Env) : bool :=
  unset (EMDEX_API_URL env) || unset (EMDEX_EMAIL env) || unset (EMDEX_PASSWORD env).

(** The test of a cached token: it exists, its expiry is a number other than
    0, and more than 60 seconds remain. *)
Definition token_is_fresh (token : JsVal) (expires : option Z) (now : Z) : bool :=
  truthy token &&
  match expires with
  | None => false
  | Some expiry => negb (expiry =? 0) && (now <? expiry - 60000)
  end.

(** [getToken()] *)
Definition getToken (env : Env) : M JsVal :=
  now <- Date_now ;;
  held <- read_token ;;
  if token_is_fresh (fst held) (snd held) now then ret (fst held)
  else if unconfigured env
  then throw (EmdexError
    "EMDEX credentials not configured. Please set EMDEX_API_URL, EMDEX_EMAIL, and EMDEX_PASSWORD environment variables."
    AUTH_FAILED None)
  else
    try_catch
      (response <- fetch (login_request env) ;;
       if negb (ok response)
       then throw (EmdexError
              ("EMDEX login failed: " ++ string_of_Z (status response) ++ " "
               ++ statusText response ++ ". " ++ text response)
              AUTH_FAILED None)
       else
         data <- read_json response ;;
         _ <- member data "token" ;;
         let token := login_token data in
         if negb (truthy token)
         then throw (EmdexError "EMDEX login response did not contain a token"
                       AUTH_FAILED None)
         else
           let expiresIn := login_expiresIn data in
           seconds <- number_of expiresIn ;;
           write_token token (option_map (fun n => now + n * 1000) seconds) ;;;
           ret token)
      (fun error =>
         write_token JNull None ;;;
         match error with
         | EmdexError _ _ _ => throw error
         | OtherError message =>
             throw (EmdexError
                      ("Network error during EMDEX authentication: " ++ message)
                      NETWORK_ERROR (Some message))
         end).

(** The [URLSearchParams] built from the request body: [null] and [undefined]
    values are left out. *)
Fixpoint form_entries (o : JsObject) : list (string * string) :=
  match o with
  | [] => []
  | (key, value) :: rest =>
      if nullish value then form_entries rest
      else (key, js_String value) :: form_entries rest
  end.

Definition data_request (apiUrl : string) (token : JsVal) (endpoint : string)
    (params : JsObject) : Request :=
  {| url := apiUrl ++ endpoint;
     method := "POST";
     headers := [("Authorization", "Bearer " ++ js_String token); form_urlencoded];
     body := form_entries params |}.

(** What the [try] block of [emdexRequest] ends with: the parsed data, or
    [return emdexRequest(endpoint, body, true)], a promise returned without
    [await], whose settlement the [catch] clause does not see. *)
Inductive Attempt : Type :=
| Data (value : JsVal)
| Retry.

(** [emdexRequest(endpoint, body, isRetry)]. The function calls itself, so
    the model takes the number of nested calls it may make. *)
Fixpoint emdexRequest (fuel : nat) (env : Env) (endpoint : string)
    (params : JsObject) (isRetry : bool) : M JsVal :=
  match fuel with
  | O => out_of_fuel
  | S fuel' =>
      if USE_MOCK env then mock_transport endpoint params
      else if unset (EMDEX_API_URL env)
      then throw (EmdexError "EMDEX_API_URL not configured" REQUEST_FAILED None)
      else
        attempt <-
          try_catch
            (token <- getToken env ;;
             response <- fetch (data_request (env_string (EMDEX_API_URL env))
                                  token endpoint params) ;;
             if (status response =? 401) && negb isRetry
             then write_token JNull None ;;; ret Retry
             else if negb (ok response)
             then throw (EmdexError
                    ("EMDEX request failed: " ++ string_of_Z (status response)
                     ++ " " ++ statusText response ++ ". " ++ text response)
                    REQUEST_FAILED None)
             else
               data <- read_json response ;;
               ret (Data data))
            (fun error =>
               match error with
               | EmdexError _ _ _ => throw error
               | OtherError message =>
                   throw (EmdexError
                            ("Network error during EMDEX request: " ++ message)
                            NETWORK_ERROR (Some message))
               end) ;;
        match attempt with
        | Data value => ret value
        | Retry => emdexRequest fuel' env endpoint params true
        end
  end.

(** [clearTokenCache()] *)
Definition clearTokenCache : M unit := write_token JNull None.

(** The [_cache] annotation of a result. *)
Definition cache_info (hit : bool) (key : string) (ttl : Z) : JsVal :=
  JObj [("hit", JBool hit); ("key", JStr key); ("ttl", JNum ttl)].

(** [{ ...payload, _cache: info }] *)
Definition annotate (payload : JsVal) (info : JsVal) : JsVal :=
  JObj (assign "_cache" info (spread payload)).

(** [cachedEmdexRequest(endpoint, body, ttlSeconds)]; [ttlSeconds] is
    [CACHE_TTL.SEARCH] for a caller that leaves it out. *)
Definition cachedEmdexRequest (fuel : nat) (env : Env) (endpoint : string)
    (params : JsObject) (ttlSeconds : Z) : M JsVal :=
  let cacheKey := Cache.generateKey ("emdex" ++ replace_slashes endpoint) params in
  cachedData <- on_cache (held cacheKey) (fun now => Cache.get now cacheKey) ;;
  if truthy cachedData
  then
    remaining <- on_cache (held cacheKey) (fun now => Cache.getTTL now cacheKey) ;;
    ret (annotate cachedData (cache_info true cacheKey remaining))
  else
    result <- emdexRequest fuel env endpoint params false ;;
    (if truthy result && negb (truthy (field result "error"))
     then on_cache (fun _ => true)
            (fun now st => (tt, Cache.set now cacheKey result ttlSeconds st))
     else ret tt) ;;;
    ret (annotate result (cache_info false cacheKey ttlSeconds)).

(** [getCacheStats()] *)
Definition getCacheStats : M Cache.StatsView :=
  fun _ s => (Returns (Cache.getStats (responses s)), s).

(** [clearResponseCache()] *)
Definition clearResponseCache : M unit :=
  fun _ s => (Returns tt, with_responses (Cache.clear (responses s)) s).

(** The calls of [fetch] that carry a bearer token: the data calls. *)
Definition is_data_call (entry : Request * FetchResult) : bool :=
  existsb (fun h => (fst h =? "Authorization")%string) (headers (fst entry)).

Definition data_attempts (s : State) : nat :=
  List.length (filter is_data_call (log s)).

Definition login_attempts (s : State) : nat :=
  List.length (filter (fun entry => negb (is_data_call entry)) (log s)).

End Emdex.

(** ** drug-transformer.js *)

Module Transformer.

(** A value, or the [TypeError] the runtime throws. *)
Inductive Result (A : Type) : Type :=
| Ok (a : A)
| TypeError (message : string).

Arguments Ok {A} a.
Arguments TypeError {A} message.

(** [generateTempId()]: [Math.random().toString(36).substring(2, 15)]. The
    strings the random source yields are given by [ids], the one drawn next by
    a counter that every function drawing from it hands on. *)
Definition generateTempId (ids : nat -> string) (n : nat) : string * nat :=
  (ids n, S n).

(** The identifier behind the prefix: [a || b || generateTempId()], converted
    by the template literal. The random source is drawn from only when both
    are falsy. *)
Definition id_suffix (ids : nat -> string) (n : nat) (a b : JsVal) : string * nat :=
  if truthy (js_or a b) then (js_String (js_or a b), n) else generateTempId ids n.

(** [transformEmdexBrand(emdexData)] *)
Definition transformEmdexBrand (ids : nat -> string) (n : nat) (emdexData : JsVal)
    : JsVal * nat :=
  if negb (truthy emdexData) then (JNull, n)
  else
    let d := field emdexData in
    let suffix := id_suffix ids n (d "id") (d "brand_id") in
    (JObj [
       ("id", JStr ("emdex_brand_" ++ fst suffix));
       ("type", JStr "brand");
       ("brand_name", js_or (js_or (js_or (d "brand_name") (d "name")) (d "brandName")) JNull);
       ("generic_name",
        js_or (js_or (js_or (d "generic_name") (d "genericName")) (d "active_ingredient")) JNull);
       ("manufacturer", js_or (js_or (js_or (d "manufacturer") (d "company")) (d "mfr")) JNull);
       ("strength", js_or (js_or (d "strength") (d "dosage")) JNull);
       ("dosage_form", js_or (js_or (js_or (d "dosage_form") (d "form")) (d "dosageForm")) JNull);
       ("nafdac_number",
        js_or (js_or (js_or (d "nafdac_number") (d "nafdac_no")) (d "registration_number")) JNull);
       ("pack_size", js_or (js_or (d "pack_size") (d "packSize")) JNull);
       ("category", js_or (js_or (d "category") (d "therapeutic_class")) JNull);
       ("description", js_or (js_or (d "description") (d "indication")) JNull);
       ("price", js_or (js_or (d "price") (d "retail_price")) JNull);
       ("is_verified", JBool true);
       ("source", JStr "emdex");
       ("raw_data", emdexData)],
     snd suffix).

(** [transformEmdexGeneric(emdexData)] *)
Definition transformEmdexGeneric (ids : nat -> string) (n : nat) (emdexData : JsVal)
    : JsVal * nat :=
  if negb (truthy emdexData) then (JNull, n)
  else
    let d := field emdexData in
    let suffix := id_suffix ids n (d "id") (d "generic_id") in
    (JObj [
       ("id", JStr ("emdex_generic_" ++ fst suffix));
       ("type", JStr "generic");
       ("brand_name", JNull);
       ("generic_name", js_or (js_or (js_or (d "generic_name") (d "name")) (d "genericName")) JNull);
       ("manufacturer", js_or (js_or (d "manufacturer") (d "company")) JNull);
       ("strength", js_or (js_or (d "strength") (d "dosage")) JNull);
       ("dosage_form", js_or (js_or (js_or (d "dosage_form") (d "form")) (d "dosageForm")) JNull);
       ("nafdac_number", js_or (js_or (d "nafdac_number") (d "nafdac_no")) JNull);
       ("pack_size", js_or (js_or (d "pack_size") (d "packSize")) JNull);
       ("category", js_or (js_or (d "category") (d "therapeutic_class")) JNull);
       ("description", js_or (js_or (d "description") (d "indication")) JNull);
       ("price", js_or (js_or (d "price") (d "retail_price")) JNull);
       ("is_verified", JBool true);
       ("source", JStr "emdex");
       ("raw_data", emdexData)],
     snd suffix).

(** [array.map(transform).filter(drug => drug !== null)] *)
Fixpoint transform_each (transform : (nat -> string) -> nat -> JsVal -> JsVal * nat)
    (ids : nat -> string) (n : nat) (elems : list JsVal) : list JsVal * nat :=
  match elems with
  | [] => ([], n)
  | e :: rest =>
      let drug := transform ids n e in
      let others := transform_each transform ids (snd drug) rest in
      (match fst drug with
       | JNull => fst others
       | _ => fst drug :: fst others
       end, snd others)
  end.

(** The array the results are taken from: the argument when it is an array,
    else the first truthy of its properties [data], [results] and [wrapper];
    [None] when there is none. *)
Definition unwrap_results (wrapper : string) (emdexResults : JsVal) : option JsVal :=
  match emdexResults with
  | JArr _ => Some emdexResults
  | _ =>
      if truthy emdexResults && truthy (field emdexResults "data")
      then Some (field emdexResults "data")
      else if truthy emdexResults && truthy (field emdexResults "results")
      then Some (field emdexResults "results")
      else if truthy emdexResults && truthy (field emdexResults wrapper)
      then Some (field emdexResults wrapper)
      else None
  end.

Definition transform_results (wrapper : string)
    (transform : (nat -> string) -> nat -> JsVal -> JsVal * nat)
    (ids : nat -> string) (n : nat) (emdexResults : JsVal)
    : Result (list JsVal) * nat :=
  match unwrap_results wrapper emdexResults with
  | None => (Ok [], n)
  | Some (JArr elems) =>
      (Ok (fst (transform_each transform ids n elems)),
       snd (transform_each transform ids n elems))
  | Some _ => (TypeError "emdexResults.map is not a function", n)
  end.

(** [transformBrandResults(emdexResults)] *)
Definition transformBrandResults : (nat -> string) -> nat -> JsVal
                                   -> Result (list JsVal) * nat :=
  transform_results "brands" transformEmdexBrand.

(** [transformGenericResults(emdexResults)] *)
Definition transformGenericResults : (nat -> string) -> nat -> JsVal
                                     -> Result (list JsVal) * nat :=
  transform_results "generics" transformEmdexGeneric.

(** Membership in a [Set]: primitives are the same when they are equal; the
    objects and arrays of the model are distinct objects, never the same. *)
Definition same_value (a b : JsVal) : bool :=
  match a, b with
  | JUndefined, JUndefined => true
  | JNull, JNull => true
  | JBool x, JBool y => Bool.eqb x y
  | JNum x, JNum y => x =? y
  | JStr x, JStr y => (x =? y)%string
  | _, _ => false
  end.

Definition set_has (seen : list JsVal) (key : JsVal) : bool :=
  existsb (same_value key) seen.

(** [drug.nafdac_number || drug.id] *)
Definition drug_key (drug : JsVal) : JsVal :=
  js_or (field drug "nafdac_number") (field drug "id").

(** The [filter] of [removeDuplicates], with the keys seen so far. Reading a
    property of [null] or [undefined] throws. *)
Fixpoint keep_unseen (seen : list JsVal) (drugs : list JsVal) : Result (list JsVal) :=
  match drugs with
  | [] => Ok []
  | drug :: rest =>
      if nullish drug
      then TypeError ("Cannot read properties of " ++ js_String drug
                      ++ " (reading 'nafdac_number')")
      else if set_has seen (drug_key drug) then keep_unseen seen rest
      else
        match keep_unseen (drug_key drug :: seen) rest with
        | Ok kept => Ok (drug :: kept)
        | TypeError message => TypeError message
        end
  end.

(** [removeDuplicates(drugs)] *)
Definition removeDuplicates (drugs : list JsVal) : Result (list JsVal) :=
  keep_unseen [] drugs.

(** The characters of [/[,;\n]+/]. *)
Definition is_delimiter (c : ascii) : bool :=
  ((c =? ",") || (c =? ";") || (nat_of_ascii c =? 10)%nat)%char.

(** [s.split(/[,;\n]+/)]: the pieces between the runs of delimiters;
    [in_run] says that the character before was a delimiter. *)
Fixpoint split_delimiters (in_run : bool) (s : string) : list string :=
  match s with
  | EmptyString => [EmptyString]
  | String c rest =>
      if is_delimiter c
      then if in_run then split_delimiters true rest
           else EmptyString :: split_delimiters true rest
      else
        match split_delimiters false rest with
        | piece :: pieces => String c piece :: pieces
        | [] => [String c EmptyString]
        end
  end.

Definition nonempty (s : string) : bool := negb (s =? "")%string.

(** [parseToArray(value)] *)
Definition parseToArray (value : JsVal) : list JsVal :=
  if negb (truthy value) then []
  else
    match value with
    | JArr elems => elems
    | JStr s =>
        map JStr (filter nonempty (map trim (split_delimiters false s)))
    | _ => []
    end.

(** [s.replace(pattern, replacement)] for a pattern that is a string: the
    first occurrence is replaced. *)
Fixpoint replace_first (pattern replacement s : string) : string :=
  if String.prefix pattern s
  then replacement ++ substring (String.length pattern)
                                (String.length s - String.length pattern) s
  else
    match s with
    | EmptyString => EmptyString
    | String c rest => String c (replace_first pattern replacement rest)
    end.

(** [parseAppDrugId(appId)] *)
Definition parseAppDrugId (appId : JsVal) : JsVal :=
  match appId with
  | JStr id =>
      if negb (truthy appId) then JNull
      else if String.prefix "emdex_brand_" id
      then JObj [("type", JStr "brand");
                 ("emdexId", JStr (replace_first "emdex_brand_" "" id))]
      else if String.prefix "emdex_generic_" id
      then JObj [("type", JStr "generic");
                 ("emdexId", JStr (replace_first "emdex_generic_" "" id))]
      else JNull
  | _ => JNull
  end.

End Transformer.

(** ** The drug details endpoint: [extractDrugData] *)

Module Details.

(** [response.data[0] || null] *)
Definition first_or_null (elems : list JsVal) : JsVal :=
  match elems with
  | [] => JNull
  | e :: _ => js_or e JNull
  end.

(** [extractDrugData(response)] *)
Definition extractDrugData (response : JsVal) : JsVal :=
  if negb (truthy response) then JNull
  else
    let r := field response in
    if truthy (js_or (js_or (r "id") (r "brand_id")) (r "generic_id")) then response
    else if truthy (r "data") then
      match r "data" with
      | JArr elems => first_or_null elems
      | _ => r "data"
      end
    else if truthy (r "drug") then r "drug"
    else if truthy (r "brand") then r "brand"
    else if truthy (r "generic") then r "generic"
    else if truthy (r "result") then r "result"
    else if (match r "success" with JBool false => true | _ => false end)
            || truthy (r "error") then JNull
    else if truthy (js_or (js_or (r "brand_name") (r "generic_name")) (r "name"))
    then response
    else JNull.

End Details.

(** ** The authentication test endpoint *)

Module AuthTest.
Import Emdex.

(** What a handler answers: the status and the JSON body. *)
Record HttpResponse : Type := mkHttpResponse {
  statusCode : Z;
  payload : JsVal
}.

(** The string an error code is in the source. *)
Definition code_name (code : ErrorCode) : string :=
  match code with
  | AUTH_FAILED => "AUTH_FAILED"
  | NETWORK_ERROR => "NETWORK_ERROR"
  | REQUEST_FAILED => "REQUEST_FAILED"
  end.

(** [handler(req, res)] of [GET /api/test/emdex-auth], for a request with
    the method [method]. *)
Definition handler (env : Env) (method : string) : M HttpResponse :=
  if negb (method =? "GET")%string
  then ret {| statusCode := 405;
              payload := JObj [("success", JBool false);
                               ("error", JStr "Method not allowed")] |}
  else
    try_catch
      (_ <- getToken env ;;
       ret {| statusCode := 200;
              payload := JObj [("success", JBool true);
                               ("message", JStr "EMDEX authentication successful")] |})
      (fun error =>
         let errorMessage :=
           match error with
           | EmdexError message _ _ => message
           | OtherError _ => "Unknown error during EMDEX authentication"
           end in
         let errorCode :=
           match error with
           | EmdexError _ code _ => code_name code
           | OtherError _ => "UNKNOWN_ERROR"
           end in
         ret {| statusCode := 500;
                payload := JObj [("success", JBool false);
                                 ("error", JStr errorMessage);
                                 ("code", JStr errorCode)] |}).

End AuthTest.

(** ** The brand search endpoint *)

Module BrandSearch.
Import Emdex Transformer.

(** What the handler answers: the status, the headers it set and the JSON
    body. *)
Record Reply : Type := mkReply {
  statusCode : Z;
  headersSet : list (string * JsVal);
  payload : JsVal
}.

(** [res.status(status).json({ success: false, ...fields })] *)
Definition refusal (status : Z) (fields : JsObject) : Reply :=
  {| statusCode := status; headersSet := [];
     payload := JObj (("success", JBool false) :: fields) |}.

(** [const { name = d } = object]: the default stands in for [undefined]
    only. *)
Definition with_default (v d : JsVal) : JsVal :=
  match v with
  | JUndefined => d
  | _ => v
  end.

(** [query.trim()] for a query that passes
    [!query || typeof query !== 'string' || query.trim() === ''], [None] for
    one that does not. *)
Definition searchQuery (query : JsVal) : option string :=
  match query with
  | JStr q =>
      if negb (truthy query) || (trim q =? "")%string then None else Some (trim q)
  | _ => None
  end.

(** [delete response._cache] *)
Definition delete_cache (response : JsVal) : JsVal :=
  match response with
  | JObj props => JObj (remove "_cache" props)
  | _ => response
  end.

(** [limit && limit > 0] *)
Definition limited (w : World) (limit : JsVal) : bool :=
  truthy limit &&
  match to_number w limit with
  | Some k => 0 <? k
  | None => false
  end.

(** [results.slice(0, limit)]: a negative end counts from the end of the
    array, [NaN] is 0. *)
Definition slice_to (w : World) (limit : JsVal) (results : list JsVal) : list JsVal :=
  match to_number w limit with
  | Some k =>
      if k <? 0 then firstn (Z.to_nat (Z.of_nat (List.length results) + k)) results
      else firstn (Z.to_nat k) results
  | None => []
  end.

(** The answer to a search that went through. *)
Definition found (query : string) (cacheInfo : JsVal) (shown : list JsVal)
    (totalCount : nat) : Reply :=
  {| statusCode := 200;
     headersSet :=
       ("X-Cache", JStr (if truthy (field cacheInfo "hit") then "HIT" else "MISS"))
       :: (if truthy (field cacheInfo "ttl")
           then [("X-Cache-TTL", field cacheInfo "ttl")] else []);
     payload := JObj [("success", JBool true);
                      ("query", JStr query);
                      ("source", JStr "emdex");
                      ("results", JArr shown);
                      ("total", JNum (Z.of_nat totalCount));
                      ("cached", field cacheInfo "hit")] |}.

(** The [catch] clause. *)
Definition failed (error : JsError) : Reply :=
  match error with
  | EmdexError _ NETWORK_ERROR _ =>
      refusal 503 [("error", JStr "Drug database temporarily unavailable");
                   ("code", JStr "SERVICE_UNAVAILABLE")]
  | EmdexError _ AUTH_FAILED _ =>
      refusal 503 [("error", JStr "Drug database authentication failed");
                   ("code", JStr "AUTH_ERROR")]
  | _ =>
      refusal 500 [("error", JStr "An error occurred while searching drugs");
                   ("code", JStr "INTERNAL_ERROR")]
  end.

(** [handler(req, res)] of [POST /api/drugs/search/brands], for a request with
    the method [method] and the body [body]. The random identifiers come from
    [ids], starting at [n]; the handler hands on the number of the next one.
    What throws, throws before any is drawn. *)
Definition handler (ids : nat -> string) (n : nat) (fuel : nat) (env : Env)
    (method : string) (body : JsVal) : M (Reply * nat) :=
  if negb (method =? "POST")%string
  then ret (refusal 405 [("error", JStr "Method not allowed")], n)
  else
    try_catch
      (if nullish body
       then throw (OtherError ("Cannot destructure property 'query' of 'req.body' as it is "
                               ++ js_String body ++ "."))
       else
         let limit := with_default (field body "limit") (JNum 20) in
         match searchQuery (field body "query") with
         | None => ret (refusal 400 [("error", JStr "Search query is required")], n)
         | Some query =>
             emdexResponse <-
               cachedEmdexRequest fuel env "/api/v1/brands/search"
                 [("query", JStr query)] CACHE_TTL_SEARCH ;;
             let cacheInfo :=
               js_or (field emdexResponse "_cache") (JObj [("hit", JBool false)]) in
             match transformBrandResults ids n (delete_cache emdexResponse) with
             | (TypeError message, _) => throw (OtherError message)
             | (Ok results, next) =>
                 fun w =>
                   ret (found query cacheInfo
                          (if limited w limit then slice_to w limit results
                           else results)
                          (List.length results),
                        next) w
             end
         end)
      (fun error => ret (failed error, n)).

End BrandSearch.

(** * Properties *)

(** ** Maps kept as lists of entries *)

Section MapFacts.
Context {A : Type}.
Implicit Types (o : list (string * A)) (k : string) (v : A).

Lemma lookup_In o k v : lookup k o = Some v -> In (k, v) o.
Proof.
  induction o as [|[k' v'] o IH]; simpl; [discriminate|].
  destruct (String.eqb_spec k' k) as [->|Hne]; intros H.
  - injection H as ->. now left.
  - right. now apply IH.
Qed.

Lemma lookup_None o k : lookup k o = None <-> ~ In k (keys o).
Proof.
  induction o as [|[k' v'] o IH]; simpl; [tauto|].
  destruct (String.eqb_spec k' k) as [->|Hne].
  - split; [discriminate | intros H; exfalso; apply H; now left].
  - rewrite IH. split; [intros H [E|I]; [congruence | tauto] | tauto].
Qed.

Lemma In_lookup o k v : wf_object o -> In (k, v) o -> lookup k o = Some v.
Proof.
  unfold wf_object. induction o as [|[k' v'] o IH]; simpl; [tauto|].
  intros Hnd [E|I]; inversion Hnd as [|? ? Hnotin Hnd']; subst.
  - injection E as -> ->. now rewrite String.eqb_refl.
  - destruct (String.eqb_spec k' k) as [->|Hne]; [|now apply IH].
    exfalso. apply Hnotin. change k with (fst (k, v)). now apply in_map.
Qed.

Lemma In_remove o k e : In e (remove k o) <-> In e o /\ fst e <> k.
Proof.
  induction o as [|[k' v'] o IH]; simpl; [tauto|].
  destruct (String.eqb_spec k' k) as [->|Hne]; simpl; rewrite IH.
  - split; [tauto | intros [[<-|I] Hk]; [now simpl in Hk | tauto]].
  - split; [intros [<-|[I Hk]]; simpl; tauto | tauto].
Qed.

Lemma keys_remove o k k' : In k' (keys (remove k o)) <-> In k' (keys o) /\ k' <> k.
Proof.
  unfold keys. rewrite !in_map_iff. split.
  - intros [e [<- He]]. apply In_remove in He. split; [|tauto].
    exists e. tauto.
  - intros [[e [<- He]] Hne]. exists e. split; [easy|]. now apply In_remove.
Qed.

Lemma wf_remove o k : wf_object o -> wf_object (remove k o).
Proof.
  unfold wf_object. induction o as [|[k' v'] o IH]; simpl; [easy|].
  intros Hnd. inversion Hnd as [|? ? Hnotin Hnd']; subst.
  destruct (String.eqb_spec k' k) as [->|Hne]; simpl; [now apply IH|].
  constructor; [|now apply IH].
  intros Hin. apply keys_remove in Hin. tauto.
Qed.

Lemma lookup_remove o k : lookup k (remove k o) = None.
Proof. apply lookup_None. intros H. apply keys_remove in H. tauto. Qed.

Lemma remove_absent o k : lookup k o = None -> remove k o = o.
Proof.
  induction o as [|[k' v'] o IH]; simpl; [easy|].
  destruct (String.eqb_spec k' k) as [->|Hne]; [discriminate|].
  intros H. now rewrite IH.
Qed.

Lemma length_remove o k v :
  wf_object o -> lookup k o = Some v ->
  S (List.length (remove k o)) = List.length o.
Proof.
  unfold wf_object. induction o as [|[k' v'] o IH]; simpl; [discriminate|].
  intros Hnd. inversion Hnd as [|? ? Hnotin Hnd']; subst.
  destruct (String.eqb_spec k' k) as [->|Hne]; intros H; simpl.
  - rewrite remove_absent; [easy|]. now apply lookup_None.
  - f_equal. now apply IH.
Qed.

Lemma length_remove_le o k : (List.length (remove k o) <= List.length o)%nat.
Proof.
  induction o as [|[k' v'] o IH]; simpl; [lia|].
  destruct (k' =? k)%string; simpl; lia.
Qed.

Lemma keys_assign o k v k' : In k' (keys (assign k v o)) <-> In k' (keys o) \/ k' = k.
Proof.
  induction o as [|[k0 v0] o IH]; simpl; [intuition congruence|].
  destruct (String.eqb_spec k0 k) as [->|Hne]; simpl.
  - intuition congruence.
  - rewrite IH. tauto.
Qed.

Lemma wf_assign o k v : wf_object o -> wf_object (assign k v o).
Proof.
  unfold wf_object. induction o as [|[k0 v0] o IH]; simpl.
  - intros _. constructor; [easy | constructor].
  - intros Hnd. inversion Hnd as [|? ? Hnotin Hnd']; subst.
    destruct (String.eqb_spec k0 k) as [->|Hne]; simpl.
    + now constructor.
    + constructor; [|now apply IH].
      intros Hin. apply keys_assign in Hin. destruct Hin; congruence.
Qed.

Lemma length_assign_le o k v : (List.length (assign k v o) <= S (List.length o))%nat.
Proof.
  induction o as [|[k0 v0] o IH]; simpl; [lia|].
  destruct (k0 =? k)%string; simpl; lia.
Qed.

Lemma lookup_assign o k v : lookup k (assign k v o) = Some v.
Proof.
  induction o as [|[k0 v0] o IH]; simpl; [now rewrite String.eqb_refl|].
  destruct (String.eqb_spec k0 k) as [->|Hne]; simpl.
  - now rewrite String.eqb_refl.
  - destruct (String.eqb_spec k0 k); [congruence | exact IH].
Qed.

(** Over maps without repeated keys, the lookups do not depend on the order
    of the entries. *)
Lemma lookup_Permutation o o' k :
  wf_object o -> Permutation o o' -> lookup k o = lookup k o'.
Proof.
  intros Hwf Hp.
  assert (Hwf' : wf_object o').
  { unfold wf_object, keys in *. eapply Permutation_NoDup; [|exact Hwf].
    now apply Permutation_map. }
  destruct (lookup k o) as [v|] eqn:E.
  - symmetry. apply In_lookup; [exact Hwf'|].
    eapply Permutation_in; [exact Hp|]. now apply lookup_In.
  - destruct (lookup k o') as [v'|] eqn:E'; [|easy].
    apply lookup_In in E'. apply Permutation_sym in Hp.
    eapply Permutation_in in E'; [|exact Hp].
    apply In_lookup in E'; [congruence | exact Hwf].
Qed.
End MapFacts.

(** ** The stable sort *)

Section SortFacts.
Context {A : Type} (before : A -> A -> bool).

Lemma insert_sorted_Permutation x l : Permutation (insert_sorted before x l) (x :: l).
Proof.
  induction l as [|y l IH]; simpl; [easy|].
  destruct (before x y); [easy|].
  rewrite IH. apply perm_swap.
Qed.

Lemma sort_Permutation l : Permutation (sort before l) l.
Proof.
  induction l as [|x l IH]; simpl; [easy|].
  rewrite insert_sorted_Permutation. now constructor.
Qed.

Hypothesis before_total : forall a b, before a b = true \/ before b a = true.
Hypothesis before_trans :
  forall a b c, before a b = true -> before b c = true -> before a c = true.

Let R a b := before a b = true.

Lemma insert_sorted_StronglySorted x l :
  StronglySorted R l -> StronglySorted R (insert_sorted before x l).
Proof.
  induction l as [|y l IH]; simpl; intros Hs.
  - constructor; [constructor | constructor].
  - inversion Hs as [|? ? Hs' Hall]; subst.
    destruct (before x y) eqn:E.
    + constructor; [exact Hs|]. constructor; [exact E|].
      eapply Forall_impl; [|exact Hall]. intros c Hc. now apply before_trans with y.
    + constructor; [now apply IH|].
      eapply Permutation_Forall; [symmetry; apply insert_sorted_Permutation|].
      constructor; [|exact Hall].
      destruct (before_total x y) as [H|H]; [congruence | exact H].
Qed.

Lemma sort_StronglySorted l : StronglySorted R (sort before l).
Proof.
  induction l as [|x l IH]; simpl; [constructor|].
  now apply insert_sorted_StronglySorted.
Qed.

(** In a sorted list every element of a front part may precede every element
    of the rest. *)
Lemma sorted_front_before n l a b :
  StronglySorted R l -> In a (firstn n l) -> In b (skipn n l) -> before a b = true.
Proof.
  revert l. induction n as [|n IH]; intros l Hs; simpl; [tauto|].
  destruct l as [|y l]; simpl; [tauto|].
  inversion Hs as [|? ? Hs' Hall]; subst.
  intros [<-|Ha] Hb.
  - rewrite Forall_forall in Hall. apply Hall.
    rewrite <- (firstn_skipn n l). apply in_or_app. now right.
  - now apply IH with l.
Qed.

Hypothesis before_antisym :
  forall a b, before a b = true -> before b a = true -> a = b.

(** A sorted arrangement of given elements is unique. *)
Lemma sorted_unique l l' :
  StronglySorted R l -> StronglySorted R l' -> Permutation l l' -> l = l'.
Proof.
  revert l'. induction l as [|x l IH]; intros l' Hs Hs' Hp.
  - now apply Permutation_nil in Hp.
  - destruct l' as [|y l']; [now apply Permutation_sym, Permutation_nil in Hp|].
    inversion Hs as [|? ? Hs1 Hall]; inversion Hs' as [|? ? Hs1' Hall']; subst.
    rewrite Forall_forall in Hall, Hall'.
    assert (x = y) as ->.
    { assert (Hx : In x (y :: l')) by (eapply Permutation_in; [exact Hp | now left]).
      assert (Hy : In y (x :: l)).
      { eapply Permutation_in; [symmetry; exact Hp | now left]. }
      destruct Hx as [->|Hx]; [easy|]. destruct Hy as [->|Hy]; [easy|].
      apply before_antisym; [now apply Hall | now apply Hall']. }
    f_equal. apply IH; [easy | easy |]. now apply Permutation_cons_inv with y.
Qed.

Lemma sort_Permutation_eq l l' : Permutation l l' -> sort before l = sort before l'.
Proof.
  intros Hp. apply sorted_unique; try apply sort_StronglySorted.
  rewrite !sort_Permutation. exact Hp.
Qed.
End SortFacts.

(** ** The order on parameter names *)

Lemma string_compare_refl s : String.compare s s = Eq.
Proof.
  induction s as [|c s IH]; simpl; [easy|].
  unfold Ascii.compare. now rewrite N.compare_refl.
Qed.

Lemma string_compare_lt_trans s1 s2 s3 :
  String.compare s1 s2 = Lt -> String.compare s2 s3 = Lt -> String.compare s1 s3 = Lt.
Proof.
  revert s2 s3. induction s1 as [|c1 s1 IH]; intros [|c2 s2] [|c3 s3]; simpl;
    try easy.
  unfold Ascii.compare.
  destruct (N.compare_spec (N_of_ascii c1) (N_of_ascii c2)) as [E12|L12|G12];
    destruct (N.compare_spec (N_of_ascii c2) (N_of_ascii c3)) as [E23|L23|G23];
    try easy; intros H12 H23.
  - rewrite E12, E23, N.compare_refl. now apply IH with s2.
  - rewrite E12. apply N.compare_lt_iff in L23. now rewrite L23.
  - rewrite <- E23. apply N.compare_lt_iff in L12. now rewrite L12.
  - assert (L13 : (N_of_ascii c1 < N_of_ascii c3)%N) by lia.
    apply N.compare_lt_iff in L13. now rewrite L13.
Qed.

Lemma string_leb_trans a b c :
  String.leb a b = true -> String.leb b c = true -> String.leb a c = true.
Proof.
  unfold String.leb.
  destruct (String.compare a b) eqn:Eab; [| |discriminate];
    destruct (String.compare b c) eqn:Ebc; try discriminate; intros _ _.
  - apply String.compare_eq_iff in Eab, Ebc. subst. now rewrite string_compare_refl.
  - apply String.compare_eq_iff in Eab. subst. now rewrite Ebc.
  - apply String.compare_eq_iff in Ebc. subst. now rewrite Eab.
  - now rewrite (string_compare_lt_trans a b c).
Qed.

(** ** The cache *)

Module CacheFacts.
Import Cache.

Lemma older_first_total a b : older_first a b = true \/ older_first b a = true.
Proof. unfold older_first. rewrite !Z.leb_le. lia. Qed.

Lemma older_first_trans a b c :
  older_first a b = true -> older_first b c = true -> older_first a c = true.
Proof. unfold older_first. rewrite !Z.leb_le. lia. Qed.

Lemma itemsToRemove_100 : Z.to_nat itemsToRemove = 100%nat.
Proof. reflexivity. Qed.

(** The map the eviction loop leaves. *)
Lemma cache_evict_each victims st :
  cache (evict_each victims st) =
  fold_left (fun c v => remove (fst v) c) victims (cache st).
Proof.
  revert st. induction victims as [|[k i] victims IH]; intros st; simpl; [easy|].
  now rewrite IH.
Qed.

(** The loop counts one eviction for each entry it is given and leaves the
    other counters alone. *)
Lemma stats_evict_each victims st :
  hits (stats (evict_each victims st)) = hits (stats st) /\
  misses (stats (evict_each victims st)) = misses (stats st) /\
  sets (stats (evict_each victims st)) = sets (stats st) /\
  evictions (stats (evict_each victims st)) =
    evictions (stats st) + Z.of_nat (List.length victims).
Proof.
  revert st. induction victims as [|[k i] victims IH]; intros st.
  - simpl. lia.
  - cbn [evict_each]. destruct (IH (count_eviction (with_cache (remove k (cache st)) st)))
      as (Hh & Hm & Hs & He).
    rewrite Hh, Hm, Hs, He. cbn [List.length count_eviction with_cache stats hits
      misses sets evictions]. lia.
Qed.

Lemma Permutation_remove (c : list (string * Item)) k i :
  wf_object c -> In (k, i) c -> Permutation c ((k, i) :: remove k c).
Proof.
  unfold wf_object. induction c as [|[k' i'] c IH]; simpl; [tauto|].
  intros Hnd Hin. inversion Hnd as [|? ? Hnotin Hnd']; subst.
  destruct (String.eqb_spec k' k) as [->|Hne].
  - destruct Hin as [E|Hin].
    + injection E as ->. rewrite remove_absent; [easy | now apply lookup_None].
    + exfalso. apply Hnotin. change k with (fst (k, i)). now apply in_map.
  - destruct Hin as [E|Hin]; [congruence|].
    rewrite perm_swap. constructor. now apply IH.
Qed.

(** Deleting entries of the map, no two under one key, splits the map into
    these entries and the entries that stay. *)
Lemma Permutation_evict victims (c : list (string * Item)) :
  wf_object c -> wf_object victims -> incl victims c ->
  Permutation c (victims ++ fold_left (fun c v => remove (fst v) c) victims c).
Proof.
  revert c. induction victims as [|[k i] victims IH]; intros c Hwf Hnd Hincl; simpl.
  - reflexivity.
  - unfold wf_object in Hnd. simpl in Hnd.
    inversion Hnd as [|? ? Hnotin Hnd']; subst.
    rewrite (Permutation_remove c k i) at 1; [|exact Hwf | apply Hincl; now left].
    constructor. apply IH; [now apply wf_remove | exact Hnd' |].
    intros e He. apply In_remove. split; [apply Hincl; now right|].
    intros <-. apply Hnotin. now apply in_map.
Qed.

Lemma wf_firstn_sort n (c : list (string * Item)) :
  wf_object c -> wf_object (firstn n (sort older_first c)).
Proof.
  intros Hwf.
  assert (Hs : wf_object (sort older_first c)).
  { unfold wf_object, keys in *. eapply Permutation_NoDup; [|exact Hwf].
    apply Permutation_map. symmetry. apply sort_Permutation. }
  unfold wf_object, keys in *.
  rewrite <- (firstn_skipn n (sort older_first c)), map_app in Hs.
  now apply NoDup_app_remove_r in Hs.
Qed.

Lemma incl_firstn_sort n (c : list (string * Item)) :
  incl (firstn n (sort older_first c)) c.
Proof.
  intros e He. eapply Permutation_in; [apply sort_Permutation|].
  rewrite <- (firstn_skipn n). apply in_or_app. left. exact He.
Qed.

(** *** The invariant of the module state *)

Definition invariant (st : State) : Prop :=
  wf_object (cache st) /\ size st <= MAX_CACHE_SIZE.

Lemma wf_evict_each victims st :
  wf_object (cache st) -> wf_object (cache (evict_each victims st)).
Proof.
  revert st. induction victims as [|[k i] victims IH]; intros st Hwf; simpl; [easy|].
  apply IH. simpl. now apply wf_remove.
Qed.

(** [evictOldest] splits the map into the entries at the front of the sorted
    array, which it removes, and the entries it keeps. *)
Lemma evictOldest_spec st :
  wf_object (cache st) ->
  let evicted := firstn (Z.to_nat itemsToRemove) (sort older_first (cache st)) in
  Permutation (cache st) (evicted ++ cache (evictOldest st)) /\
  wf_object (cache (evictOldest st)).
Proof.
  intros Hwf evicted. unfold evictOldest. fold evicted. split.
  - rewrite cache_evict_each.
    apply Permutation_evict; [exact Hwf | now apply wf_firstn_sort
                              | apply incl_firstn_sort].
  - now apply wf_evict_each.
Qed.

Lemma size_nonneg st : 0 <= size st.
Proof. unfold size. lia. Qed.

Lemma evictOldest_size st :
  wf_object (cache st) -> MAX_CACHE_SIZE <= size st ->
  size (evictOldest st) = size st - itemsToRemove.
Proof.
  intros Hwf Hfull. destruct (evictOldest_spec st Hwf) as [Hp _].
  apply Permutation_length in Hp. rewrite length_app, length_firstn in Hp.
  rewrite (Permutation_length (sort_Permutation older_first (cache st))) in Hp.
  unfold size, MAX_CACHE_SIZE in *. rewrite itemsToRemove_100 in Hp.
  change itemsToRemove with 100. lia.
Qed.

Lemma set_invariant now key value ttlSeconds st :
  invariant st -> invariant (set now key value ttlSeconds st).
Proof.
  intros [Hwf Hsize]. unfold set.
  destruct (Z.leb_spec MAX_CACHE_SIZE (size st)) as [Hfull|Hroom].
  - split; cbn [cache count_set with_cache].
    + apply wf_assign. now apply evictOldest_spec.
    + pose proof (evictOldest_size st Hwf Hfull) as He.
      pose proof (length_assign_le (cache (evictOldest st)) key
        {| data := value; createdAt := now; expiresAt := now + ttlSeconds * 1000;
           ttl := ttlSeconds |}) as Hl.
      unfold size, MAX_CACHE_SIZE in *. cbn [cache count_set with_cache].
      change itemsToRemove with 100 in He. lia.
  - split; cbn [cache count_set with_cache].
    + now apply wf_assign.
    + pose proof (length_assign_le (cache st) key
        {| data := value; createdAt := now; expiresAt := now + ttlSeconds * 1000;
           ttl := ttlSeconds |}) as Hl.
      unfold size, MAX_CACHE_SIZE in *. cbn [cache count_set with_cache]. lia.
Qed.

Lemma remove_invariant key st :
  invariant st -> invariant (with_cache (remove key (cache st)) st).
Proof.
  intros [Hwf Hsize]. split; cbn [cache with_cache]; [now apply wf_remove|].
  pose proof (length_remove_le (cache st) key).
  unfold size, MAX_CACHE_SIZE in *. cbn [cache with_cache]. lia.
Qed.

Lemma step_invariant st op : invariant st -> invariant (step st op).
Proof.
  intros Hinv. pose proof (remove_invariant) as Hrm.
  destruct op as [now key|now key value ttlSeconds|key| |now key|now key];
    cbn [step].
  - unfold get. destruct (lookup key (cache st)) as [item|]; [|exact Hinv].
    destruct (expiresAt item <? now); [|exact Hinv].
    apply (Hrm key st Hinv).
  - now apply set_invariant.
  - unfold del. destruct (lookup key (cache st)); [|exact Hinv].
    apply (Hrm key st Hinv).
  - split; [constructor | easy].
  - unfold getTTL. now destruct (lookup key (cache st)).
  - unfold has. destruct (lookup key (cache st)) as [item|]; [|exact Hinv].
    destruct (expiresAt item <? now); [|exact Hinv].
    apply (Hrm key st Hinv).
Qed.

Lemma fold_invariant ops st : invariant st -> invariant (fold_left step ops st).
Proof.
  revert st. induction ops as [|op ops IH]; intros st Hinv; simpl; [exact Hinv|].
  apply IH. now apply step_invariant.
Qed.

Lemma run_invariant ops : invariant (run ops).
Proof. apply fold_invariant. split; [constructor | easy]. Qed.

(** The entry [set] stores. *)
Definition new_item (now : Z) (value : JsVal) (ttlSeconds : Z) : Item :=
  {| data := value; createdAt := now; expiresAt := now + ttlSeconds * 1000;
     ttl := ttlSeconds |}.

(** C1. After every sequence of cache operations the map holds at most
    [MAX_CACHE_SIZE] = 1000 entries. A [set] that finds the map full first
    removes exactly 100 entries, none of them created later than an entry that
    stays (their expiry plays no part), counts one eviction for each, and only
    then stores the new entry and counts the set. *)
Theorem size_bounded_and_set_evicts_oldest (ops : list Op) :
  size (run ops) <= MAX_CACHE_SIZE /\
  forall now key value ttlSeconds,
    MAX_CACHE_SIZE <= size (run ops) ->
    exists evicted,
      let st := run ops in
      let st1 := evictOldest st in
      let st2 := set now key value ttlSeconds st in
      Z.of_nat (List.length evicted) = 100 /\
      Permutation (cache st) (evicted ++ cache st1) /\
      size st1 = size st - 100 /\
      (forall e k, In e evicted -> In k (cache st1) ->
                   createdAt (snd e) <= createdAt (snd k)) /\
      evictions (stats st1) = evictions (stats st) + 100 /\
      hits (stats st1) = hits (stats st) /\
      misses (stats st1) = misses (stats st) /\
      sets (stats st1) = sets (stats st) /\
      cache st2 = assign key (new_item now value ttlSeconds) (cache st1) /\
      evictions (stats st2) = evictions (stats st) + 100 /\
      sets (stats st2) = sets (stats st) + 1 /\
      size st2 <= MAX_CACHE_SIZE.
Proof.
  destruct (run_invariant ops) as [Hwf Hsize]. split; [exact Hsize|].
  intros now key value ttlSeconds Hfull.
  set (st := run ops) in *.
  set (evicted := firstn (Z.to_nat itemsToRemove) (sort older_first (cache st))).
  destruct (evictOldest_spec st Hwf) as [Hperm Hwf1]. fold evicted in Hperm.
  pose proof (evictOldest_size st Hwf Hfull) as Hsize1.
  change itemsToRemove with 100 in Hsize1.
  destruct (stats_evict_each evicted st) as (Hh & Hm & Hs & He).
  change (evict_each evicted st) with (evictOldest st) in Hh, Hm, Hs, He.
  assert (Hlen : Z.of_nat (List.length evicted) = 100).
  { apply Permutation_length in Hperm. rewrite length_app in Hperm.
    unfold size in Hsize1. lia. }
  assert (Hset : set now key value ttlSeconds st =
                 count_set (with_cache (assign key (new_item now value ttlSeconds)
                                          (cache (evictOldest st))) (evictOldest st))).
  { unfold set. destruct (Z.leb_spec MAX_CACHE_SIZE (size st)); [reflexivity | lia]. }
  exists evicted. cbv zeta. rewrite Hset. cbn [cache stats count_set with_cache
    evictions sets]. repeat split; try assumption; try lia.
  - intros e k Hin_e Hin_k.
    assert (Hk : In k (skipn (Z.to_nat itemsToRemove) (sort older_first (cache st)))).
    { eapply Permutation_in; [|exact Hin_k].
      apply Permutation_app_inv_l with evicted. rewrite <- Hperm.
      unfold evicted. rewrite firstn_skipn. symmetry. apply sort_Permutation. }
    pose proof (sorted_front_before older_first _ _ e k
      (sort_StronglySorted older_first older_first_total older_first_trans (cache st))
      Hin_e Hk) as Hb.
    unfold older_first in Hb. apply Z.leb_le in Hb. lia.
  - pose proof (set_invariant now key value ttlSeconds st (conj Hwf Hsize)) as [_ Hb].
    rewrite Hset in Hb. exact Hb.
Qed.

(** The module filled by [n] calls of [set] under distinct keys, the i-th at
    time [i]. *)
Definition fill (n : nat) : list Op :=
  map (fun i => OpSet (Z.of_nat i) ("k" ++ string_of_nat i) (JNum (Z.of_nat i)) 3600)
      (seq 0 n).

Lemma size_bounded_and_set_evicts_oldest_witness :
  MAX_CACHE_SIZE <= size (run (fill 1000)) /\
  exists evicted,
    let st := run (fill 1000) in
    let st1 := evictOldest st in
    let st2 := set 5000 "fresh" JNull 60 st in
    Z.of_nat (List.length evicted) = 100 /\
    Permutation (cache st) (evicted ++ cache st1) /\
    size st1 = size st - 100 /\
    (forall e k, In e evicted -> In k (cache st1) ->
                 createdAt (snd e) <= createdAt (snd k)) /\
    evictions (stats st1) = evictions (stats st) + 100 /\
    hits (stats st1) = hits (stats st) /\
    misses (stats st1) = misses (stats st) /\
    sets (stats st1) = sets (stats st) /\
    cache st2 = assign "fresh" (new_item 5000 JNull 60) (cache st1) /\
    evictions (stats st2) = evictions (stats st) + 100 /\
    sets (stats st2) = sets (stats st) + 1 /\
    size st2 <= MAX_CACHE_SIZE.
Proof.
  split.
  - vm_compute. discriminate.
  - apply (proj2 (size_bounded_and_set_evicts_oldest (fill 1000))).
    vm_compute. discriminate.
Defined.

(** The branch [get] and [has] take on an entry whose expiry is past. *)
Lemma lookup_expired (now : Z) (key : string) (st : State) (item : Item) :
  lookup key (cache st) = Some item ->
  expiresAt item < now ->
  get now key st = (JNull, count_miss (with_cache (remove key (cache st)) st)) /\
  has now key st = (false, with_cache (remove key (cache st)) st).
Proof.
  intros Hfound Hexp. unfold get, has. rewrite Hfound.
  apply Z.ltb_lt in Hexp. now rewrite Hexp.
Qed.

(** C4, as the code has it. An entry found by [get] or [has] at a time later
    than its [expiresAt] is reported missing ([null], [false]) and deleted: the
    map holds one entry less and no entry under the key. *)
Theorem expired_entry_removed_on_lookup (now : Z) (key : string) (st : State)
    (item : Item) :
  wf_object (cache st) ->
  lookup key (cache st) = Some item ->
  expiresAt item < now ->
  fst (get now key st) = JNull /\
  size (snd (get now key st)) = size st - 1 /\
  lookup key (cache (snd (get now key st))) = None /\
  fst (has now key st) = false /\
  size (snd (has now key st)) = size st - 1 /\
  lookup key (cache (snd (has now key st))) = None.
Proof.
  intros Hwf Hfound Hexp.
  destruct (lookup_expired now key st item Hfound Hexp) as [-> ->].
  unfold size. cbn [fst snd cache count_miss with_cache].
  pose proof (length_remove (cache st) key item Hwf Hfound) as Hlen.
  rewrite lookup_remove. repeat split; lia.
Qed.

Definition one_entry : State := set 0 "k" (JStr "v") 1 initial.

Lemma expired_entry_removed_on_lookup_witness :
  fst (get 1001 "k" one_entry) = JNull /\
  size (snd (get 1001 "k" one_entry)) = size one_entry - 1 /\
  lookup "k" (cache (snd (get 1001 "k" one_entry))) = None /\
  fst (has 1001 "k" one_entry) = false /\
  size (snd (has 1001 "k" one_entry)) = size one_entry - 1 /\
  lookup "k" (cache (snd (has 1001 "k" one_entry))) = None.
Proof.
  apply (expired_entry_removed_on_lookup 1001 "k" one_entry (new_item 0 (JStr "v") 1)).
  - repeat constructor. simpl. tauto.
  - reflexivity.
  - reflexivity.
Defined.

(** C4, as the claim has it, fails at the instant [now = expiresAt]: the entry
    stored at time 0 for one second expires at 1000, and at 1000 both [get] and
    [has] still find it and leave the map as it is. *)
Lemma entry_still_found_at_expiry_instant :
  exists item,
    lookup "k" (cache one_entry) = Some item /\
    1000 >= expiresAt item /\
    fst (get 1000 "k" one_entry) = JStr "v" /\
    size (snd (get 1000 "k" one_entry)) = size one_entry /\
    fst (has 1000 "k" one_entry) = true /\
    size (snd (has 1000 "k" one_entry)) = size one_entry /\
    ~ (fst (get 1000 "k" one_entry) = JNull /\
       size (snd (get 1000 "k" one_entry)) = size one_entry - 1).
Proof.
  exists (new_item 0 (JStr "v") 1).
  repeat split; try reflexivity; try (vm_compute; discriminate).
  intros [H _]. discriminate H.
Qed.

(** C8. [clear] empties the map and leaves the four counters as they were. *)
Theorem clear_empties_map_keeps_counters (st : State) :
  cache (clear st) = [] /\
  size (clear st) = 0 /\
  view_size (getStats (clear st)) = 0 /\
  hits (stats (clear st)) = hits (stats st) /\
  misses (stats (clear st)) = misses (stats st) /\
  sets (stats (clear st)) = sets (stats st) /\
  evictions (stats (clear st)) = evictions (stats st).
Proof. repeat split. Qed.

(** C10. [getTTL] leaves the module state, map and counters, exactly as it
    found it, for every key and time. On an entry that is present and expired
    it answers 0 and the entry stays in the map; the same entry is deleted by
    [get] and by [has]. *)
Theorem getTTL_leaves_state_unchanged (now : Z) (key : string) (st : State) :
  snd (getTTL now key st) = st /\
  forall item,
    lookup key (cache st) = Some item ->
    expiresAt item < now ->
    fst (getTTL now key st) = 0 /\
    lookup key (cache (snd (getTTL now key st))) = Some item /\
    lookup key (cache (snd (get now key st))) = None /\
    lookup key (cache (snd (has now key st))) = None.
Proof.
  split.
  - unfold getTTL. now destruct (lookup key (cache st)).
  - intros item Hfound Hexp.
    destruct (lookup_expired now key st item Hfound Hexp) as [-> ->].
    unfold getTTL. rewrite Hfound.
    cbn [fst snd cache count_miss with_cache]. rewrite lookup_remove.
    destruct (Z.ltb_spec 0 (expiresAt item - now)); [lia|]. tauto.
Qed.

Lemma getTTL_leaves_state_unchanged_witness :
  snd (getTTL 1001 "k" one_entry) = one_entry /\
  fst (getTTL 1001 "k" one_entry) = 0 /\
  lookup "k" (cache (snd (getTTL 1001 "k" one_entry))) = Some (new_item 0 (JStr "v") 1) /\
  lookup "k" (cache (snd (get 1001 "k" one_entry))) = None /\
  lookup "k" (cache (snd (has 1001 "k" one_entry))) = None.
Proof.
  split.
  - apply (proj1 (getTTL_leaves_state_unchanged 1001 "k" one_entry)).
  - apply (proj2 (getTTL_leaves_state_unchanged 1001 "k" one_entry)).
    + reflexivity.
    + reflexivity.
Defined.

End CacheFacts.

(** ** Cache keys *)

Module KeyFacts.
Import Cache.

Lemma Permutation_filter {A} (f : A -> bool) (l l' : list A) :
  Permutation l l' -> Permutation (filter f l) (filter f l').
Proof.
  induction 1 as [|x l l' _ IH|x y l|l l' l'' _ IH1 _ IH2]; simpl.
  - constructor.
  - destruct (f x); [now constructor | exact IH].
  - destruct (f x), (f y); try reflexivity. apply perm_swap.
  - now rewrite IH1.
Qed.

Lemma StronglySorted_filter {A} (R : A -> A -> Prop) (f : A -> bool) (l : list A) :
  StronglySorted R l -> StronglySorted R (filter f l).
Proof.
  induction 1 as [|x l Hs IH Hall]; simpl; [constructor|].
  destruct (f x); [|exact IH].
  constructor; [exact IH|].
  rewrite Forall_forall in *. intros y Hy. apply filter_In in Hy. now apply Hall.
Qed.

Lemma StronglySorted_map {A B} (R : B -> B -> Prop) (g : A -> B) (l : list A) :
  StronglySorted (fun a b => R (g a) (g b)) l -> StronglySorted R (map g l).
Proof.
  induction 1 as [|x l Hs IH Hall]; simpl; constructor; [exact IH|].
  rewrite Forall_forall in *. intros y Hy. apply in_map_iff in Hy.
  destruct Hy as [a [<- Ha]]. now apply Hall.
Qed.

Definition sorted_names (params : JsObject) : list string :=
  sort String.leb (keys params).

Lemma sorted_names_sorted params :
  StronglySorted (fun a b => String.leb a b = true) (sorted_names params).
Proof.
  apply sort_StronglySorted; [apply String.leb_total | apply string_leb_trans].
Qed.

(** The parameter names come out in one order whatever order they went in. *)
Lemma sorted_names_Permutation params params' :
  Permutation params params' -> sorted_names params = sorted_names params'.
Proof.
  intros Hp. unfold sorted_names.
  apply sort_Permutation_eq;
    [apply String.leb_total | apply string_leb_trans | apply String.leb_antisym |].
  unfold keys. now apply Permutation_map.
Qed.

Lemma prop_Permutation params params' k :
  wf_object params -> Permutation params params' -> prop params k = prop params' k.
Proof.
  intros Hwf Hp. unfold prop.
  now rewrite (lookup_Permutation params params' k Hwf Hp).
Qed.

Lemma prop_In params e : wf_object params -> In e params -> prop params (fst e) = snd e.
Proof.
  intros Hwf Hin. destruct e as [k v]. unfold prop. cbn [fst snd].
  now rewrite (In_lookup params k v Hwf Hin).
Qed.

(** A parameter that takes part in the key, and the pair it contributes. *)
Definition present (entry : string * JsVal) : bool := negb (nullish (snd entry)).

Definition rendered (entry : string * JsVal) : string :=
  fst entry ++ "=" ++ trim (toLowerCase (js_String (snd entry))).

Definition by_name (a b : string * JsVal) : Prop := String.leb (fst a) (fst b) = true.

Lemma parts_of_names params names :
  filter_parts (map (key_part params) names) =
  map (fun k => rendered (k, prop params k))
      (filter (fun k => present (k, prop params k)) names).
Proof.
  induction names as [|k names IH]; simpl; [easy|].
  unfold key_part at 1, present at 1. cbn [snd].
  destruct (nullish (prop params k)); simpl; now rewrite IH.
Qed.

Lemma append_nonempty (a b : string) : a <> "" -> (a ++ b)%string <> "".
Proof. destruct a; simpl; [easy | discriminate]. Qed.

Lemma rendered_nonempty entry : rendered entry <> "".
Proof.
  unfold rendered. destruct (fst entry); simpl; discriminate.
Qed.

Lemma concat_nonempty (parts : list string) :
  parts <> [] -> (forall p, In p parts -> p <> "") -> String.concat "_" parts <> "".
Proof.
  destruct parts as [|p parts]; [easy|]. intros _ Hall.
  assert (Hp : p <> "") by (apply Hall; now left).
  destruct parts as [|q parts]; simpl; [exact Hp|].
  now apply append_nonempty.
Qed.

(** The present parameters, arranged by name, are the ones [generateKey]
    walks through. *)
Lemma sorted_entries_names params entries :
  wf_object params ->
  Permutation entries (filter present params) ->
  StronglySorted by_name entries ->
  entries =
  map (fun k => (k, prop params k))
      (filter (fun k => present (k, prop params k)) (sorted_names params)).
Proof.
  intros Hwf Hperm Hsorted.
  assert (Hval : forall e, In e entries -> prop params (fst e) = snd e).
  { intros e He. apply prop_In; [exact Hwf|].
    eapply Permutation_in in He; [|exact Hperm]. now apply filter_In in He. }
  assert (Hnames : map fst entries =
                   filter (fun k => present (k, prop params k)) (sorted_names params)).
  { apply (sorted_unique String.leb); [apply String.leb_antisym | | |].
    - now apply (StronglySorted_map (fun a b => String.leb a b = true) fst).
    - apply StronglySorted_filter, sorted_names_sorted.
    - rewrite (Permutation_map fst Hperm).
      rewrite (Permutation_filter _ _ _ (sort_Permutation String.leb (keys params))).
      unfold keys. rewrite filter_map_swap.
      apply Permutation_map. erewrite filter_ext_in; [reflexivity|].
      intros e He. cbn beta. unfold present at 2. cbn [snd].
      now rewrite (prop_In params e Hwf He). }
  rewrite <- Hnames, map_map. rewrite <- (map_id entries) at 1.
  apply map_ext_in. intros e He. rewrite (Hval e He). now destruct e.
Qed.

(** The key the specification describes, for the present parameters arranged
    by name: the pairs joined with ["_"] behind [prefix_], or the prefix alone
    when no pair is left. *)
Definition key_of_entries (prefix : string) (entries : list (string * JsVal))
    : string :=
  match entries with
  | [] => prefix
  | _ => prefix ++ "_" ++ String.concat "_" (map rendered entries)
  end.

(** C7, as the code has it. [generateKey] gives one key for one set of
    parameters, whatever order they were inserted in. The key is built from
    the parameters that are neither [null] nor [undefined], arranged by name in
    lexicographic order, each as [name=value] with the value stringified,
    lower-cased and trimmed, the pairs joined with ["_"] behind [prefix_]; with
    no such parameter the key is the prefix alone. In particular the key of
    prefix ["p"] and [{b: "2", a: "1"}] is that of [{a: "1", b: "2"}] and reads
    ["p_a=1_b=2"]. *)
Theorem generateKey_order_independent :
  (forall prefix params params',
     wf_object params -> Permutation params params' ->
     generateKey prefix params = generateKey prefix params') /\
  (forall prefix params entries,
     wf_object params ->
     Permutation entries (filter present params) ->
     StronglySorted by_name entries ->
     generateKey prefix params = key_of_entries prefix entries) /\
  generateKey "p" [("b", JStr "2"); ("a", JStr "1")] =
    generateKey "p" [("a", JStr "1"); ("b", JStr "2")] /\
  generateKey "p" [("b", JStr "2"); ("a", JStr "1")] = "p_a=1_b=2".
Proof.
  split; [|split; [|split; reflexivity]].
  - intros prefix params params' Hwf Hp. unfold generateKey.
    fold (sorted_names params). fold (sorted_names params').
    rewrite <- (sorted_names_Permutation params params' Hp).
    replace (map (key_part params') (sorted_names params))
      with (map (key_part params) (sorted_names params)); [reflexivity|].
    apply map_ext. intros k. unfold key_part.
    now rewrite (prop_Permutation params params' k Hwf Hp).
  - intros prefix params entries Hwf Hperm Hsorted. unfold generateKey.
    fold (sorted_names params). rewrite parts_of_names.
    pose proof (sorted_entries_names params entries Hwf Hperm Hsorted) as Hent.
    set (names := filter (fun k => present (k, prop params k)) (sorted_names params))
      in *.
    assert (Hmap : map rendered entries =
                   map (fun k => rendered (k, prop params k)) names).
    { rewrite Hent, map_map. reflexivity. }
    rewrite <- Hmap. unfold key_of_entries.
    destruct entries as [|entry entries]; [reflexivity|].
    destruct (String.eqb_spec (String.concat "_" (map rendered (entry :: entries))) "")
      as [Hempty|_]; [|reflexivity].
    exfalso. revert Hempty. apply concat_nonempty; [discriminate|].
    intros p Hin. apply in_map_iff in Hin. destruct Hin as [e [<- _]].
    apply rendered_nonempty.
Qed.

Definition sample_params : JsObject :=
  [("query", JStr "  PanaDol "); ("page", JNum 2); ("brand_id", JNull)].

Definition sample_params_reordered : JsObject :=
  [("brand_id", JNull); ("page", JNum 2); ("query", JStr "  PanaDol ")].

Lemma sample_params_wf : wf_object sample_params.
Proof.
  unfold wf_object. simpl. repeat constructor; simpl; intuition discriminate.
Qed.

Lemma generateKey_order_independent_witness :
  generateKey "emdex_search" sample_params =
    generateKey "emdex_search" sample_params_reordered /\
  generateKey "emdex_search" sample_params =
    key_of_entries "emdex_search" [("page", JNum 2); ("query", JStr "  PanaDol ")].
Proof.
  split.
  - apply (proj1 generateKey_order_independent); [exact sample_params_wf|].
    unfold sample_params, sample_params_reordered.
    apply Permutation_trans with
      [("page", JNum 2); ("query", JStr "  PanaDol "); ("brand_id", JNull)].
    + apply perm_swap.
    + apply Permutation_trans with
        [("page", JNum 2); ("brand_id", JNull); ("query", JStr "  PanaDol ")].
      * apply perm_skip, perm_swap.
      * apply perm_swap.
  - apply (proj1 (proj2 generateKey_order_independent)).
    + exact sample_params_wf.
    + simpl. apply perm_swap.
    + repeat constructor.
Defined.

(** C7, as the claim has it, fails for an object without a present parameter:
    nothing is put behind the prefix, not even the ["_"]. *)
Lemma generateKey_without_parameter_has_no_separator :
  generateKey "p" [] = "p" /\
  generateKey "p" [("a", JNull)] = "p" /\
  generateKey "p" [] <> "p" ++ "_" ++ String.concat "_" (map rendered []).
Proof. repeat split. discriminate. Qed.

(** C9. When the parameter object is empty, or each of its values is [null]
    or [undefined], [generateKey] returns the prefix itself, with no ["_"]
    behind it. *)
Theorem generateKey_bare_prefix (prefix : string) (params : JsObject) :
  (forall k v, In (k, v) params -> v = JNull \/ v = JUndefined) ->
  generateKey prefix params = prefix.
Proof.
  intros Hnull. unfold generateKey.
  assert (Hnone : forall names, filter_parts (map (key_part params) names) = []).
  { induction names as [|k names IH]; simpl; [easy|].
    unfold key_part at 1. unfold prop.
    destruct (lookup k params) as [v|] eqn:E; [|exact IH].
    apply lookup_In in E. destruct (Hnull k v E) as [-> | ->]; exact IH. }
  now rewrite Hnone.
Qed.

Lemma generateKey_bare_prefix_witness :
  generateKey "emdex_api_v1_verify" [] = "emdex_api_v1_verify" /\
  generateKey "emdex_api_v1_verify" [("a", JNull); ("b", JUndefined)] =
    "emdex_api_v1_verify".
Proof.
  split.
  - apply (generateKey_bare_prefix "emdex_api_v1_verify" []). intros k v [].
  - apply (generateKey_bare_prefix "emdex_api_v1_verify"
             [("a", JNull); ("b", JUndefined)]).
    intros k v [E|[E|[]]]; injection E as _ <-; auto.
Defined.

End KeyFacts.

(** ** The token manager *)

Module TokenFacts.
Import Emdex.

(** The errors [getToken] throws. *)
Definition not_configured : JsError :=
  EmdexError
    "EMDEX credentials not configured. Please set EMDEX_API_URL, EMDEX_EMAIL, and EMDEX_PASSWORD environment variables."
    AUTH_FAILED None.

Definition login_rejected (r : Response) : JsError :=
  EmdexError
    ("EMDEX login failed: " ++ string_of_Z (status r) ++ " " ++ statusText r
     ++ ". " ++ text r)
    AUTH_FAILED None.

Definition no_token : JsError :=
  EmdexError "EMDEX login response did not contain a token" AUTH_FAILED None.

Definition login_network_error (message : string) : JsError :=
  EmdexError ("Network error during EMDEX authentication: " ++ message)
    NETWORK_ERROR (Some message).

Definition null_read (data : JsVal) : string :=
  "Cannot read properties of " ++ js_String data ++ " (reading 'token')".

(** What a login attempt settles to, given the outcome of its [fetch]. *)
Definition login_outcome (w : World) (now : Z) (result : FetchResult)
    : Outcome JsVal * (JsVal * option Z) :=
  match result with
  | Rejects message => (Throws (login_network_error message), (JNull, None))
  | Resolves r =>
      if negb (ok r) then (Throws (login_rejected r), (JNull, None))
      else
        match json r with
        | Unparsable message => (Throws (login_network_error message), (JNull, None))
        | Parsed data =>
            if nullish data
            then (Throws (login_network_error (null_read data)), (JNull, None))
            else if negb (truthy (login_token data))
            then (Throws no_token, (JNull, None))
            else (Returns (login_token data),
                  (login_token data,
                   option_map (fun n => now + n * 1000)
                              (to_number w (login_expiresIn data))))
        end
  end.

(** [getToken], branch by branch. *)
Lemma getToken_cases (w : World) (env : Env) (s : State) :
  let now := Z.of_N (date_now w (clock s)) in
  getToken env w s =
  if token_is_fresh (cachedToken s) (tokenExpiresAt s) now
  then (Returns (cachedToken s), tick s)
  else if unconfigured env then (Throws not_configured, tick s)
  else
    let result := upstream w (List.length (log s)) in
    let settled := login_outcome w now result in
    (fst settled,
     with_token (fst (snd settled)) (snd (snd settled))
                (logged (login_request env, result) (tick s))).
Proof.
  intros now. unfold getToken, bind, Date_now, read_token. cbn [fst snd].
  fold now. change (cachedToken (tick s)) with (cachedToken s).
  change (tokenExpiresAt (tick s)) with (tokenExpiresAt s).
  destruct (token_is_fresh (cachedToken s) (tokenExpiresAt s) now); [reflexivity|].
  destruct (unconfigured env); [reflexivity|].
  unfold try_catch, bind, fetch, login_outcome. cbn [log tick].
  destruct (upstream w (List.length (log s))) as [r|message]; [|reflexivity].
  destruct (ok r); cbn [negb]; [|reflexivity].
  unfold read_json. destruct (json r) as [data|message]; [|reflexivity].
  unfold ret at 1. 
  destruct data; try reflexivity;
    cbn [nullish member field]; unfold ret at 1;
    match goal with
    | |- context [truthy (login_token ?d)] => destruct (truthy (login_token d))
    end; reflexivity.
Qed.

(** The cached token exists and more than 60 seconds remain before its
    expiry. *)
Definition fresh (s : State) (now : Z) : Prop :=
  truthy (cachedToken s) = true /\
  exists expiresAt, tokenExpiresAt s = Some expiresAt /\ now < expiresAt - 60000.

Lemma token_is_fresh_iff (s : State) (now : Z) :
  0 <= now ->
  token_is_fresh (cachedToken s) (tokenExpiresAt s) now = true <-> fresh s now.
Proof.
  intros Hnow. unfold token_is_fresh, fresh.
  rewrite andb_true_iff. destruct (tokenExpiresAt s) as [e|].
  - rewrite andb_true_iff, negb_true_iff, Z.eqb_neq, Z.ltb_lt. split.
    + intros [Ht [_ Hlt]]. split; [exact Ht|]. now exists e.
    + intros [Ht [e' [E Hlt]]]. injection E as <-. repeat split; [exact Ht|lia|lia].
  - split; [intros [_ H]; discriminate | intros [_ [e [E _]]]; discriminate].
Qed.

Lemma clock_reading_nonneg (w : World) (s : State) : 0 <= Z.of_N (date_now w (clock s)).
Proof. lia. Qed.

(** C3, as the code has it. A call of [getToken] at time [now]. If a cached
    token exists and [now < expiresAt - 60000], the call returns that token and
    issues no request; the token variables stay as they are. Otherwise, with the
    environment configured, it issues one login request and no other; with a
    setting missing it issues none. It returns a token only when the login
    response is a success that carries one, and then this token is stored with
    [expiresAt = now + expiresIn * 1000], where [expiresIn] is 3600 when the
    response has neither [expires_in] nor [expiresIn]; such a response does
    make the call return the token. *)
Theorem getToken_reuses_fresh_token_or_logs_in_once (w : World) (env : Env)
    (s : State) :
  let now := Z.of_N (date_now w (clock s)) in
  (fresh s now ->
   exists s', getToken env w s = (Returns (cachedToken s), s') /\
     log s' = log s /\
     cachedToken s' = cachedToken s /\ tokenExpiresAt s' = tokenExpiresAt s) /\
  (~ fresh s now ->
   exists out s', getToken env w s = (out, s') /\
     log s' = (log s ++
       (if unconfigured env then []
        else [(login_request env, upstream w (List.length (log s)))]))%list /\
     (forall token, out = Returns token ->
        exists r data,
          unconfigured env = false /\
          upstream w (List.length (log s)) = Resolves r /\ ok r = true /\
          json r = Parsed data /\
          token = login_token data /\ truthy token = true /\
          cachedToken s' = token /\
          tokenExpiresAt s' =
            option_map (fun n => now + n * 1000) (to_number w (login_expiresIn data)) /\
          (field data "expires_in" = JUndefined ->
           field data "expiresIn" = JUndefined ->
           tokenExpiresAt s' = Some (now + 3600 * 1000)) /\
          (forall n, field data "expires_in" = JNum n -> n <> 0 ->
                     tokenExpiresAt s' = Some (now + n * 1000)) /\
          (forall n, truthy (field data "expires_in") = false ->
                     field data "expiresIn" = JNum n -> n <> 0 ->
                     tokenExpiresAt s' = Some (now + n * 1000))) /\
     (forall r data,
        unconfigured env = false ->
        upstream w (List.length (log s)) = Resolves r -> ok r = true ->
        json r = Parsed data -> nullish data = false ->
        truthy (login_token data) = true ->
        out = Returns (login_token data))).
Proof.
  intros now. pose proof (getToken_cases w env s) as Hcases. cbv zeta in Hcases.
  fold now in Hcases.
  pose proof (token_is_fresh_iff s now (clock_reading_nonneg w s)) as Hfresh.
  destruct (token_is_fresh (cachedToken s) (tokenExpiresAt s) now) eqn:Etest.
  - split; [|intros Hn; exfalso; apply Hn; now apply Hfresh].
    intros _. exists (tick s). now rewrite Hcases.
  - split; [intros Hf; apply Hfresh in Hf; discriminate|]. intros _.
    destruct (unconfigured env) eqn:Econf.
    + exists (Throws not_configured), (tick s). rewrite Hcases.
      split; [reflexivity|]. split; [cbn [log tick]; now rewrite app_nil_r|].
      split; [discriminate | discriminate].
    + eexists _, _. split; [exact Hcases|]. split; [reflexivity|].
      cbn [fst snd tokenExpiresAt cachedToken with_token].
      unfold login_outcome.
      destruct (upstream w (List.length (log s))) as [r|message];
        [|split; [discriminate | intros ? ? _ E; discriminate E]].
      assert (Hsame : forall r' data', Resolves r = Resolves r' -> ok r' = true ->
                json r' = Parsed data' -> ok r = true /\ json r = Parsed data').
      { intros r' data' E. now injection E as <-. }
      destruct (ok r) eqn:Eok; cbn [negb];
        [|split; [discriminate
                 | intros r' data' _ E Hok Hjson _ _;
                   destruct (Hsame r' data' E Hok Hjson); discriminate]].
      destruct (json r) as [data|message] eqn:Ejson;
        [|split; [discriminate
                 | intros r' data' _ E Hok Hjson _ _;
                   destruct (Hsame r' data' E Hok Hjson); discriminate]].
      destruct (nullish data) eqn:Enull;
        [split; [discriminate
                | intros r' data' _ E Hok Hjson Hnull _;
                  destruct (Hsame r' data' E Hok Hjson) as [_ E'];
                  injection E' as <-; congruence]|].
      destruct (truthy (login_token data)) eqn:Etok; cbn [negb fst snd];
        [|split; [discriminate
                 | intros r' data' _ E Hok Hjson _ Htok;
                   destruct (Hsame r' data' E Hok Hjson) as [_ E'];
                   injection E' as <-; congruence]].
      split.
      * intros token E. injection E as <-. exists r, data.
        repeat split; try reflexivity; try assumption.
        -- intros E1 E2. unfold login_expiresIn. now rewrite E1, E2.
        -- intros n E1 Hn. apply Z.eqb_neq in Hn.
           unfold login_expiresIn, js_or. rewrite E1. cbn [truthy].
           rewrite Hn. cbn [negb truthy]. now rewrite Hn.
        -- intros n E1 E2 Hn. apply Z.eqb_neq in Hn.
           unfold login_expiresIn, js_or. rewrite E1, E2. cbn [truthy].
           now rewrite Hn.
      * intros r' data' _ E Hok Hjson _ _.
        destruct (Hsame r' data' E Hok Hjson) as [_ E']. now injection E' as <-.
Qed.

(** A sample deployment: a configured environment, and an upstream that first
    accepts the login, then answers 401 to the data call, accepts the second
    login and answers 401 again. *)
Definition sample_env : Env :=
  {| EMDEX_API_URL := Some "https://emdex.example"; EMDEX_EMAIL := Some "app@scanrx";
     EMDEX_PASSWORD := Some "secret"; USE_MOCK := false |}.

Definition login_accepted (token : string) : FetchResult :=
  Resolves {| status := 200; statusText := "OK"; text := "";
              json := Parsed (JObj [("token", JStr token)]) |}.

Definition unauthorized : FetchResult :=
  Resolves {| status := 401; statusText := "Unauthorized"; text := "token expired";
              json := Parsed (JObj [("error", JStr "token expired")]) |}.

Definition sample_world : World :=
  {| date_now := fun k => (1700000000000 + N.of_nat k)%N;
     upstream := fun k =>
       match k with
       | 0%nat => login_accepted "t1"
       | 1%nat => unauthorized
       | 2%nat => login_accepted "t2"
       | _ => unauthorized
       end;
     mockEmdexRequest := fun _ _ => Fulfilled (JObj [("success", JBool true)]);
     string_to_number := fun _ => None |}.

(** A process whose environment has none of the settings. *)
Definition no_env : Env :=
  {| EMDEX_API_URL := None; EMDEX_EMAIL := None; EMDEX_PASSWORD := None;
     USE_MOCK := false |}.

(** The state after a first successful login. *)
Definition logged_in : State := snd (getToken sample_env sample_world initial).

Lemma getToken_reuses_fresh_token_or_logs_in_once_witness :
  (exists s', getToken sample_env sample_world logged_in = (Returns (JStr "t1"), s') /\
     log s' = log logged_in /\
     cachedToken s' = JStr "t1" /\ tokenExpiresAt s' = tokenExpiresAt logged_in) /\
  (exists out s', getToken sample_env sample_world initial = (out, s') /\
     log s' = [(login_request sample_env, login_accepted "t1")] /\
     out = Returns (JStr "t1") /\
     cachedToken s' = JStr "t1" /\
     tokenExpiresAt s' = Some (1700000000000 + 3600 * 1000)).
Proof.
  split.
  - apply (proj1 (getToken_reuses_fresh_token_or_logs_in_once
                    sample_world sample_env logged_in)).
    split; [reflexivity|]. eexists. split; [reflexivity | reflexivity].
  - destruct (proj2 (getToken_reuses_fresh_token_or_logs_in_once
                       sample_world sample_env initial))
      as (out & s' & Hrun & Hlog & Honly & Hsuccess).
    + intros [Htoken _]. discriminate Htoken.
    + exists out, s'.
      pose proof (Hsuccess _ (JObj [("token", JStr "t1")]) eq_refl eq_refl eq_refl
                    eq_refl eq_refl eq_refl) as Hout.
      destruct (Honly _ Hout) as (r & data & _ & Hr & _ & Hdata & _ & _ & Htok & _ & Hdef & _).
      injection Hr as <-. injection Hdata as <-.
      repeat split; [exact Hrun | exact Hlog | exact Hout | exact Htok |].
      apply Hdef; reflexivity.
Defined.

(** C3, as the claim has it, fails when the environment is not configured:
    with no token cached the call sends no login request at all and throws. *)
Lemma getToken_unconfigured_sends_no_login :
  ~ fresh initial (Z.of_N (date_now sample_world (clock initial))) /\
  exists s',
    getToken no_env sample_world initial = (Throws not_configured, s') /\
    log s' = [] /\
    login_attempts s' = 0%nat.
Proof.
  split.
  - intros [Htoken _]. discriminate Htoken.
  - eexists. split; [reflexivity|]. split; reflexivity.
Qed.

(** The [code] an error carries. *)
Definition code_of (e : JsError) : option ErrorCode :=
  match e with
  | EmdexError _ code _ => Some code
  | OtherError _ => None
  end.

(** An upstream that cannot be reached. *)
Definition offline_world : World :=
  {| date_now := date_now sample_world;
     upstream := fun _ => Rejects "connect ECONNREFUSED";
     mockEmdexRequest := mockEmdexRequest sample_world;
     string_to_number := string_to_number sample_world |}.

End TokenFacts.

(** ** The raw request *)

Module RequestFacts.
Import Emdex TokenFacts.

(** The errors [emdexRequest] throws. *)
Definition request_failed (r : Response) : JsError :=
  EmdexError
    ("EMDEX request failed: " ++ string_of_Z (status r) ++ " " ++ statusText r
     ++ ". " ++ text r)
    REQUEST_FAILED None.

Definition request_network_error (message : string) : JsError :=
  EmdexError ("Network error during EMDEX request: " ++ message)
    NETWORK_ERROR (Some message).

(** The [catch] clause of [emdexRequest]. *)
Definition rethrown (e : JsError) : JsError :=
  match e with
  | EmdexError _ _ _ => e
  | OtherError message => request_network_error message
  end.

(** The state after a data call answered 401 on a first attempt: the call is
    in the log and the token variables are cleared. *)
Definition after_unauthorized (env : Env) (token : JsVal) (endpoint : string)
    (params : JsObject) (r : Response) (s1 : State) : State :=
  with_token JNull None
    (logged (data_request (env_string (EMDEX_API_URL env)) token endpoint params,
             Resolves r) s1).

(** One run of the body of [emdexRequest] outside mock mode. *)
Lemma emdexRequest_cases (fuel : nat) (w : World) (env : Env) (endpoint : string)
    (params : JsObject) (isRetry : bool) (s : State) :
  USE_MOCK env = false ->
  unset (EMDEX_API_URL env) = false ->
  emdexRequest (S fuel) env endpoint params isRetry w s =
  match getToken env w s with
  | (Returns token, s1) =>
      let req := data_request (env_string (EMDEX_API_URL env)) token endpoint params in
      match upstream w (List.length (log s1)) with
      | Rejects message =>
          (Throws (request_network_error message), logged (req, Rejects message) s1)
      | Resolves r =>
          if (status r =? 401) && negb isRetry
          then emdexRequest fuel env endpoint params true w
                 (after_unauthorized env token endpoint params r s1)
          else if negb (ok r)
          then (Throws (request_failed r), logged (req, Resolves r) s1)
          else
            match json r with
            | Parsed data => (Returns data, logged (req, Resolves r) s1)
            | Unparsable message =>
                (Throws (request_network_error message), logged (req, Resolves r) s1)
            end
      end
  | (Throws e, s1) => (Throws (rethrown e), s1)
  | (OutOfFuel, s1) => (OutOfFuel, s1)
  end.
Proof.
  intros Hmock Hurl. cbn [emdexRequest]. rewrite Hmock, Hurl.
  unfold bind at 1. unfold try_catch. unfold bind at 1.
  destruct (getToken env w s) as [[token|e|] s1].
  - unfold bind at 1. unfold fetch. cbv zeta.
    destruct (upstream w (List.length (log s1))) as [r|message]; [|reflexivity].
    destruct ((status r =? 401) && negb isRetry).
    + reflexivity.
    + destruct (ok r); cbn [negb]; [|reflexivity].
      unfold bind, read_json. destruct (json r); reflexivity.
  - destruct e; reflexivity.
  - reflexivity.
Qed.

(** In mock mode the request goes to the mock transport and nowhere else. *)
Lemma emdexRequest_mock (fuel : nat) (w : World) (env : Env) (endpoint : string)
    (params : JsObject) (isRetry : bool) (s : State) :
  USE_MOCK env = true ->
  emdexRequest (S fuel) env endpoint params isRetry w s =
  mock_transport endpoint params w s.
Proof. intros Hmock. cbn [emdexRequest]. now rewrite Hmock. Qed.

Lemma emdexRequest_no_url (fuel : nat) (w : World) (env : Env) (endpoint : string)
    (params : JsObject) (isRetry : bool) (s : State) :
  USE_MOCK env = false -> unset (EMDEX_API_URL env) = true ->
  emdexRequest (S fuel) env endpoint params isRetry w s =
  (Throws (EmdexError "EMDEX_API_URL not configured" REQUEST_FAILED None), s).
Proof. intros Hmock Hurl. cbn [emdexRequest]. now rewrite Hmock, Hurl. Qed.

(** *** What a call leaves of the state *)

Lemma data_attempts_logged entry s :
  data_attempts (logged entry s) =
  (data_attempts s + (if is_data_call entry then 1 else 0))%nat.
Proof.
  unfold data_attempts, logged. cbn [log].
  rewrite filter_app, length_app. cbn [filter].
  destruct (is_data_call entry); reflexivity.
Qed.

Lemma login_is_no_data_call env result : is_data_call (login_request env, result) = false.
Proof. reflexivity. Qed.

Lemma data_request_is_data_call url token endpoint params result :
  is_data_call (data_request url token endpoint params, result) = true.
Proof. reflexivity. Qed.

(** [getToken] settles, sends no data call and leaves the response cache. *)
Lemma getToken_frame (w : World) (env : Env) (s : State) out s' :
  getToken env w s = (out, s') ->
  out <> OutOfFuel /\ data_attempts s' = data_attempts s /\
  responses s' = responses s.
Proof.
  rewrite getToken_cases. cbv zeta.
  destruct (token_is_fresh _ _ _); [intros E; injection E as <- <-; now repeat split|].
  destruct (unconfigured env); [intros E; injection E as <- <-; now repeat split|].
  intros E. injection E as <- <-. split; [|split].
  - unfold login_outcome.
    destruct (upstream w (List.length (log s))) as [r|]; [|discriminate].
    destruct (negb (ok r)); [discriminate|].
    destruct (json r) as [data|]; [|discriminate].
    destruct (nullish data); [discriminate|].
    destruct (negb (truthy (login_token data))); discriminate.
  - change (data_attempts (logged (login_request env, upstream w (List.length (log s)))
                                  (tick s)) = data_attempts s).
    rewrite data_attempts_logged, login_is_no_data_call. unfold data_attempts.
    cbn [log tick]. lia.
  - reflexivity.
Qed.

(** A retry makes at most one data call and settles. *)
Lemma retry_bound (fuel : nat) (w : World) (env : Env) (endpoint : string)
    (params : JsObject) (s : State) out s' :
  emdexRequest (S fuel) env endpoint params true w s = (out, s') ->
  out <> OutOfFuel /\ (data_attempts s' <= data_attempts s + 1)%nat /\
  responses s' = responses s.
Proof.
  destruct (USE_MOCK env) eqn:Hmock.
  - rewrite emdexRequest_mock by exact Hmock. unfold mock_transport.
    destruct (mockEmdexRequest w endpoint params); intros E; injection E as <- <-;
      (split; [discriminate | split; [lia | reflexivity]]).
  - destruct (unset (EMDEX_API_URL env)) eqn:Hurl.
    + rewrite emdexRequest_no_url by assumption. intros E. injection E as <- <-.
      split; [discriminate | split; [lia | reflexivity]].
    + rewrite emdexRequest_cases by assumption.
      destruct (getToken env w s) as [[token|e|] s1] eqn:Htoken;
        destruct (getToken_frame w env s _ _ Htoken) as (Hfuel & Hcount & Hresp);
        [| intros E; injection E as <- <-;
           split; [discriminate | split; [lia | exact Hresp]]
         | contradiction].
      cbv zeta. cbn [negb].
      assert (Hlogged : forall result,
        data_attempts (logged (data_request (env_string (EMDEX_API_URL env))
                                 token endpoint params, result) s1)
        = (data_attempts s + 1)%nat).
      { intros result. rewrite data_attempts_logged, data_request_is_data_call. lia. }
      destruct (upstream w (List.length (log s1))) as [r|message].
      * rewrite andb_false_r. destruct (negb (ok r)); [|destruct (json r)];
          intros E; injection E as <- <-; rewrite Hlogged;
          (split; [discriminate | split; [lia | exact Hresp]]).
      * intros E. injection E as <- <-. rewrite Hlogged.
        split; [discriminate | split; [lia | exact Hresp]].
Qed.

(** A first call makes at most two data calls and settles. *)
Lemma first_call_bound (fuel : nat) (w : World) (env : Env) (endpoint : string)
    (params : JsObject) (s : State) out s' :
  emdexRequest (S (S fuel)) env endpoint params false w s = (out, s') ->
  out <> OutOfFuel /\ (data_attempts s' <= data_attempts s + 2)%nat /\
  responses s' = responses s.
Proof.
  destruct (USE_MOCK env) eqn:Hmock.
  - rewrite emdexRequest_mock by exact Hmock. unfold mock_transport.
    destruct (mockEmdexRequest w endpoint params); intros E; injection E as <- <-;
      (split; [discriminate | split; [lia | reflexivity]]).
  - destruct (unset (EMDEX_API_URL env)) eqn:Hurl.
    + rewrite emdexRequest_no_url by assumption. intros E. injection E as <- <-.
      split; [discriminate | split; [lia | reflexivity]].
    + rewrite emdexRequest_cases by assumption.
      destruct (getToken env w s) as [[token|e|] s1] eqn:Htoken;
        destruct (getToken_frame w env s _ _ Htoken) as (Hfuel & Hcount & Hresp);
        [| intros E; injection E as <- <-;
           split; [discriminate | split; [lia | exact Hresp]]
         | contradiction].
      cbv zeta. cbn [negb].
      assert (Hlogged : forall result,
        data_attempts (logged (data_request (env_string (EMDEX_API_URL env))
                                 token endpoint params, result) s1)
        = (data_attempts s + 1)%nat).
      { intros result. rewrite data_attempts_logged, data_request_is_data_call. lia. }
      destruct (upstream w (List.length (log s1))) as [r|message].
      * rewrite andb_true_r. destruct (status r =? 401).
        -- intros E. apply retry_bound in E. destruct E as (Hout & Hle & Hr).
           unfold after_unauthorized in Hle, Hr.
           change (data_attempts (with_token JNull None ?x)) with (data_attempts x) in Hle.
           rewrite Hlogged in Hle. cbn [responses with_token logged] in Hr.
           split; [exact Hout | split; [lia | congruence]].
        -- destruct (negb (ok r)); [|destruct (json r)];
             intros E; injection E as <- <-; rewrite Hlogged;
             (split; [discriminate | split; [lia | exact Hresp]]).
      * intros E. injection E as <- <-. rewrite Hlogged.
        split; [discriminate | split; [lia | exact Hresp]].
Qed.

(** C2. A call of [emdexRequest] entered with [isRetry = false] settles after
    at most two data calls. When its data call is answered 401, the token and
    its expiry are cleared and the call continues as the one call
    [emdexRequest(endpoint, body, true)]; when the data call of that retry is
    answered with a status that is not a success (401 again, or any other), the
    whole call fails with [REQUEST_FAILED], after exactly two data calls. *)
Theorem emdexRequest_retries_once_on_401 (w : World) (env : Env) (fuel : nat)
    (endpoint : string) (params : JsObject) (s : State) :
  (forall out s',
     emdexRequest (S (S fuel)) env endpoint params false w s = (out, s') ->
     out <> OutOfFuel /\ (data_attempts s' <= data_attempts s + 2)%nat) /\
  (forall token s1 r1,
     USE_MOCK env = false -> unset (EMDEX_API_URL env) = false ->
     getToken env w s = (Returns token, s1) ->
     upstream w (List.length (log s1)) = Resolves r1 ->
     status r1 = 401 ->
     let s2 := after_unauthorized env token endpoint params r1 s1 in
     cachedToken s2 = JNull /\ tokenExpiresAt s2 = None /\
     data_attempts s2 = (data_attempts s + 1)%nat /\
     emdexRequest (S (S fuel)) env endpoint params false w s =
       emdexRequest (S fuel) env endpoint params true w s2 /\
     forall out s',
       emdexRequest (S fuel) env endpoint params true w s2 = (out, s') ->
       out <> OutOfFuel /\
       (data_attempts s' <= data_attempts s + 2)%nat /\
       forall token2 s3 r2,
         getToken env w s2 = (Returns token2, s3) ->
         upstream w (List.length (log s3)) = Resolves r2 ->
         ok r2 = false ->
         out = Throws (request_failed r2) /\
         code_of (request_failed r2) = Some REQUEST_FAILED /\
         data_attempts s' = (data_attempts s + 2)%nat).
Proof.
  split.
  - intros out s' Hrun. apply first_call_bound in Hrun. tauto.
  - intros token s1 r1 Hmock Hurl Htoken Hresp H401 s2.
    destruct (getToken_frame w env s _ _ Htoken) as (_ & Hcount1 & _).
    assert (Hs2 : data_attempts s2 = (data_attempts s + 1)%nat).
    { unfold s2, after_unauthorized.
      change (data_attempts (with_token JNull None ?x)) with (data_attempts x).
      rewrite data_attempts_logged, data_request_is_data_call. lia. }
    split; [reflexivity|]. split; [reflexivity|]. split; [exact Hs2|]. split.
    + rewrite (emdexRequest_cases (S fuel)) by assumption.
      rewrite Htoken. cbv zeta. rewrite Hresp, H401. reflexivity.
    + intros out s' Hretry.
      pose proof (retry_bound fuel w env endpoint params s2 out s' Hretry)
        as (Hout & Hle & _).
      split; [exact Hout|]. split; [lia|].
      intros token2 s3 r2 Htoken2 Hresp2 Hnok.
      destruct (getToken_frame w env s2 _ _ Htoken2) as (_ & Hcount2 & _).
      rewrite emdexRequest_cases in Hretry by assumption.
      rewrite Htoken2 in Hretry. cbv zeta in Hretry.
      rewrite Hresp2, andb_false_r, Hnok in Hretry. cbn [negb] in Hretry.
      injection Hretry as <- <-.
      split; [reflexivity|]. split; [reflexivity|].
      rewrite data_attempts_logged, data_request_is_data_call. lia.
Qed.

Definition search_endpoint : string := "/api/v1/brands/search".

Definition search_params : JsObject := [("query", JStr "Panadol")].

Lemma emdexRequest_retries_once_on_401_witness :
  exists message s',
    emdexRequest 2 sample_env search_endpoint search_params false sample_world initial
      = (Throws (EmdexError message REQUEST_FAILED None), s') /\
    data_attempts s' = 2%nat /\
    login_attempts s' = 2%nat.
Proof.
  destruct (emdexRequest_retries_once_on_401 sample_world sample_env 0
              search_endpoint search_params initial) as [_ H401].
  destruct (getToken sample_env sample_world initial) as [out1 s1] eqn:Htoken.
  vm_compute in Htoken. injection Htoken as <- <-.
  specialize (H401 _ _ _ eq_refl eq_refl eq_refl eq_refl eq_refl).
  cbv zeta in H401. destruct H401 as (_ & _ & _ & Hsame & Hretry).
  destruct (emdexRequest 1 sample_env search_endpoint search_params true sample_world _)
    as [out s'] eqn:Hrun in Hretry, Hsame.
  destruct (Hretry out s' eq_refl) as (_ & _ & Hfail).
  match type of Hfail with
  | forall token2 s3 r2, getToken ?e ?w ?s2 = _ -> _ =>
      destruct (getToken e w s2) as [out2 s3] eqn:Htoken2 in Hfail;
      vm_compute in Htoken2; injection Htoken2 as <- <-
  end.
  destruct (Hfail _ _ _ eq_refl eq_refl eq_refl) as (Hout & _ & Hcount).
  eexists _, s'. rewrite Hsame, Hout. split; [reflexivity|].
  split; [exact Hcount|].
  vm_compute in Hrun. injection Hrun as _ <-. reflexivity.
Defined.

End RequestFacts.

(** ** The cached request *)

Module WrapperFacts.
Import Emdex TokenFacts RequestFacts.

Lemma on_cache_run {A} (reads : Cache.State -> bool)
    (f : Z -> Cache.State -> A * Cache.State) (w : World) (s : State) :
  on_cache reads f w s =
  (Returns (fst (f (Z.of_N (date_now w (clock s))) (responses s))),
   with_responses (snd (f (Z.of_N (date_now w (clock s))) (responses s)))
     (if reads (responses s) then tick s else s)).
Proof. reflexivity. Qed.

(** The state the lookup of [key] leaves: the cache as [get] leaves it, and
    the clock read once when the key has an entry. *)
Definition looked_up (w : World) (key : string) (s : State) : State :=
  with_responses
    (snd (Cache.get (Z.of_N (date_now w (clock s))) key (responses s)))
    (if held key (responses s) then tick s else s).

(** Whether the clock was read or not. *)
Ltac clock_cases :=
  repeat match goal with
         | |- context [if held ?key ?st then _ else _] => destruct (held key st)
         end.

(** [emdexRequest] never touches the response cache. *)
Lemma emdexRequest_responses (fuel : nat) (w : World) (env : Env)
    (endpoint : string) (params : JsObject) (isRetry : bool) (s : State) out s' :
  emdexRequest fuel env endpoint params isRetry w s = (out, s') ->
  responses s' = responses s.
Proof.
  revert isRetry s. induction fuel as [|fuel IH]; intros isRetry s.
  - cbn. intros E. now injection E as _ <-.
  - destruct (USE_MOCK env) eqn:Hmock.
    + rewrite emdexRequest_mock by exact Hmock. unfold mock_transport.
      destruct (mockEmdexRequest w endpoint params); intros E; now injection E as _ <-.
    + destruct (unset (EMDEX_API_URL env)) eqn:Hurl.
      * rewrite emdexRequest_no_url by assumption. intros E. now injection E as _ <-.
      * rewrite emdexRequest_cases by assumption.
        destruct (getToken env w s) as [[token|e|] s1] eqn:Htoken;
          destruct (getToken_frame w env s _ _ Htoken) as (_ & _ & Hresp);
          [| intros E; now injection E as _ <- | intros E; now injection E as _ <-].
        cbv zeta.
        destruct (upstream w (List.length (log s1))) as [r|message];
          [|intros E; now injection E as _ <-].
        destruct ((status r =? 401) && negb isRetry).
        -- intros E. apply IH in E. rewrite E. exact Hresp.
        -- destruct (negb (ok r)); [|destruct (json r)];
             intros E; now injection E as _ <-.
Qed.

Lemma lookup_after_set now key value ttlSeconds st :
  lookup key (Cache.cache (Cache.set now key value ttlSeconds st)) =
  Some (CacheFacts.new_item now value ttlSeconds).
Proof. unfold Cache.set. cbn [Cache.cache Cache.count_set Cache.with_cache].
  apply lookup_assign. Qed.

Lemma lookup_assign_ne {A} (o : list (string * A)) k name v :
  name <> k -> lookup name (assign k v o) = lookup name o.
Proof.
  intros Hne. induction o as [|[k0 v0] o IH]; simpl.
  - destruct (String.eqb_spec k name); [congruence | reflexivity].
  - destruct (String.eqb_spec k0 k) as [->|Hk0]; simpl.
    + destruct (String.eqb_spec k name); [congruence | reflexivity].
    + destruct (String.eqb_spec k0 name); [reflexivity | exact IH].
Qed.

Lemma assign_absent {A} (o : list (string * A)) k v :
  lookup k o = None -> assign k v o = (o ++ [(k, v)])%list.
Proof.
  induction o as [|[k0 v0] o IH]; simpl; [reflexivity|].
  destruct (String.eqb_spec k0 k); [discriminate|].
  intros H. now rewrite IH.
Qed.

(** What [{ ...payload, _cache: info }] is: an object whose [_cache] is [info]
    and whose other properties are those of the payload; for a payload that is
    an object without [_cache], the properties of the payload followed by
    [_cache]. *)
Definition annotated (payload info : JsVal) (fields : JsObject) : Prop :=
  prop fields "_cache" = info /\
  (forall name, name <> "_cache" -> prop fields name = prop (spread payload) name) /\
  (forall props, payload = JObj props -> lookup "_cache" props = None ->
     fields = (props ++ [("_cache", info)])%list).

Lemma annotate_annotated (payload info : JsVal) :
  annotated payload info (assign "_cache" info (spread payload)).
Proof.
  split; [|split].
  - unfold prop. now rewrite lookup_assign.
  - intros name Hname. unfold prop. now rewrite lookup_assign_ne.
  - intros props -> Habsent. now apply assign_absent.
Qed.

(** C6. A call [cachedEmdexRequest(endpoint, body, ttlSeconds)], with [key]
    the cache key of the endpoint and the body. On a hit (the cache holds an
    unexpired, truthy payload under [key]) it returns the payload with
    [_cache = {hit: true, key, ttl: getTTL(key)}], sends nothing upstream and
    leaves the entries as they are. On a miss it runs
    [emdexRequest(endpoint, body)]: a result is returned with
    [_cache = {hit: false, key, ttl: ttlSeconds}] and is stored under [key]
    with [ttlSeconds] exactly when it is truthy and its [error] is not,
    otherwise the cache is left as the lookup left it; an error thrown by the
    request is thrown by the call, and the cache is left as the lookup left
    it. *)
Theorem cachedEmdexRequest_hit_or_miss (w : World) (env : Env) (fuel : nat)
    (endpoint : string) (params : JsObject) (ttlSeconds : Z) (s : State) :
  let key := Cache.generateKey ("emdex" ++ replace_slashes endpoint) params in
  let now1 := Z.of_N (date_now w (clock s)) in
  let now2 := Z.of_N (date_now w (S (clock s))) in
  let s1 :=
    with_responses (snd (Cache.get now1 key (responses s)))
      (match lookup key (Cache.cache (responses s)) with
       | Some _ => tick s
       | None => s
       end) in
  (forall item,
     lookup key (Cache.cache (responses s)) = Some item ->
     now1 <= Cache.expiresAt item ->
     truthy (Cache.data item) = true ->
     exists fields s',
       cachedEmdexRequest fuel env endpoint params ttlSeconds w s =
         (Returns (JObj fields), s') /\
       annotated (Cache.data item)
         (JObj [("hit", JBool true); ("key", JStr key);
                ("ttl", JNum (fst (Cache.getTTL now2 key (responses s))))])
         fields /\
       log s' = log s /\
       Cache.cache (responses s') = Cache.cache (responses s)) /\
  (truthy (fst (Cache.get now1 key (responses s))) = false ->
   forall out s2,
     emdexRequest fuel env endpoint params false w s1 = (out, s2) ->
     match out with
     | Returns result =>
         let now3 := Z.of_N (date_now w (clock s2)) in
         let stored := truthy result && negb (truthy (field result "error")) in
         exists fields s3,
           cachedEmdexRequest fuel env endpoint params ttlSeconds w s =
             (Returns (JObj fields), s3) /\
           annotated result
             (JObj [("hit", JBool false); ("key", JStr key);
                    ("ttl", JNum ttlSeconds)])
             fields /\
           log s3 = log s2 /\
           responses s3 =
             (if stored then Cache.set now3 key result ttlSeconds (responses s1)
              else responses s1) /\
           (stored = true ->
            lookup key (Cache.cache (responses s3)) =
              Some {| Cache.data := result; Cache.createdAt := now3;
                      Cache.expiresAt := now3 + ttlSeconds * 1000;
                      Cache.ttl := ttlSeconds |})
     | Throws e =>
         cachedEmdexRequest fuel env endpoint params ttlSeconds w s = (Throws e, s2) /\
         responses s2 = responses s1
     | OutOfFuel =>
         cachedEmdexRequest fuel env endpoint params ttlSeconds w s = (OutOfFuel, s2)
     end).
Proof.
  intros key now1 now2 s1. split.
  - intros item Hfound Hlive Htruthy.
    assert (Hget : Cache.get now1 key (responses s) =
                   (Cache.data item, Cache.count_hit (responses s))).
    { unfold Cache.get. rewrite Hfound.
      destruct (Z.ltb_spec (Cache.expiresAt item) now1) as [Hlt|_]; [lia | reflexivity]. }
    unfold cachedEmdexRequest. fold key. unfold bind at 1. rewrite on_cache_run.
    fold now1. rewrite Hget. cbn [fst snd]. rewrite Htruthy.
    assert (Hheld : held key (responses s) = true)
      by (unfold held; now rewrite Hfound).
    assert (Hheld' : held key (Cache.count_hit (responses s)) = true)
      by (unfold held; cbn [Cache.cache Cache.count_hit]; now rewrite Hfound).
    rewrite Hheld. unfold bind at 1. rewrite on_cache_run.
    cbn [clock responses with_responses tick]. fold now2. rewrite Hheld'.
    assert (Httl : Cache.getTTL now2 key (Cache.count_hit (responses s)) =
                   (fst (Cache.getTTL now2 key (responses s)),
                    Cache.count_hit (responses s))).
    { unfold Cache.getTTL. cbn [Cache.cache Cache.count_hit].
      now destruct (lookup key (Cache.cache (responses s))). }
    rewrite Httl. cbn [fst snd].
    eexists _, _. split; [reflexivity|].
    split; [apply annotate_annotated|]. split; reflexivity.
  - intros Hmiss out s2 Hrun.
    pose proof (emdexRequest_responses _ _ _ _ _ _ _ _ _ Hrun) as Hresp.
    assert (Hstart : forall k : JsVal -> M JsVal,
      (cachedData <- on_cache (held key) (fun now => Cache.get now key) ;;
       if truthy cachedData then k cachedData
       else (result <- emdexRequest fuel env endpoint params false ;;
             (if truthy result && negb (truthy (field result "error"))
              then on_cache (fun _ => true)
                     (fun now st => (tt, Cache.set now key result ttlSeconds st))
              else ret tt) ;;;
             ret (annotate result (cache_info false key ttlSeconds)))) w s =
      match out with
      | Returns result =>
          ((if truthy result && negb (truthy (field result "error"))
            then on_cache (fun _ => true)
                   (fun now st => (tt, Cache.set now key result ttlSeconds st))
            else ret tt) ;;;
           ret (annotate result (cache_info false key ttlSeconds))) w s2
      | Throws e => (Throws e, s2)
      | OutOfFuel => (OutOfFuel, s2)
      end).
    { intros k. unfold bind at 1. rewrite on_cache_run. fold now1.
      rewrite Hmiss.
      assert ((if held key (responses s) then tick s else s)
              = match lookup key (Cache.cache (responses s)) with
                | Some _ => tick s
                | None => s
                end) as ->
        by (unfold held; now destruct (lookup key (Cache.cache (responses s)))).
      fold s1. unfold bind at 1. rewrite Hrun.
      now destruct out. }
    unfold cachedEmdexRequest. fold key. rewrite Hstart. clear Hstart.
    destruct out as [result|e|]; [|split; [reflexivity | exact Hresp]|reflexivity].
    cbv zeta. unfold bind at 1.
    destruct (truthy result && negb (truthy (field result "error"))).
    + rewrite on_cache_run. cbn [fst snd]. eexists _, _. split; [reflexivity|].
      split; [apply annotate_annotated|].
      cbn [log responses with_responses tick]. rewrite Hresp.
      split; [reflexivity|]. split; [reflexivity|]. intros _.
      apply lookup_after_set.
    + unfold ret at 1. eexists _, _. split; [reflexivity|].
      split; [apply annotate_annotated|].
      split; [reflexivity|]. split; [exact Hresp | discriminate].
Qed.

(** An upstream that accepts the login and answers the search. *)
Definition search_result : JsVal :=
  JObj [("data", JArr [JObj [("brand_name", JStr "Panadol")]]); ("total", JNum 1)].

Definition serving (answer : JsVal) : World :=
  {| date_now := date_now sample_world;
     upstream := fun k =>
       match k with
       | 0%nat => login_accepted "t1"
       | _ => Resolves {| status := 200; statusText := "OK"; text := "";
                          json := Parsed answer |}
       end;
     mockEmdexRequest := mockEmdexRequest sample_world;
     string_to_number := string_to_number sample_world |}.

Definition serving_world : World := serving search_result.

Definition search_key : string := "emdex_api_v1_brands_search_query=panadol".

(** The state after a first search on a cold cache. *)
Definition warm : State :=
  snd (cachedEmdexRequest 2 sample_env search_endpoint search_params 3600
         serving_world initial).

Lemma cachedEmdexRequest_hit_or_miss_witness :
  (exists s3,
     cachedEmdexRequest 2 sample_env search_endpoint search_params 3600
       serving_world initial =
       (Returns (JObj [("data", JArr [JObj [("brand_name", JStr "Panadol")]]);
                       ("total", JNum 1);
                       ("_cache", JObj [("hit", JBool false);
                                        ("key", JStr search_key);
                                        ("ttl", JNum 3600)])]), s3) /\
     List.length (log s3) = 2%nat /\
     lookup search_key (Cache.cache (responses s3)) =
       Some {| Cache.data := search_result; Cache.createdAt := 1700000000001;
               Cache.expiresAt := 1700000000001 + 3600 * 1000;
               Cache.ttl := 3600 |}) /\
  (exists s',
     cachedEmdexRequest 2 sample_env search_endpoint search_params 3600
       serving_world warm =
       (Returns (JObj [("data", JArr [JObj [("brand_name", JStr "Panadol")]]);
                       ("total", JNum 1);
                       ("_cache", JObj [("hit", JBool true);
                                        ("key", JStr search_key);
                                        ("ttl", JNum 3600)])]), s') /\
     log s' = log warm /\
     Cache.cache (responses s') = Cache.cache (responses warm)).
Proof.
  split.
  - pose proof (proj2 (cachedEmdexRequest_hit_or_miss serving_world sample_env 2
                  search_endpoint search_params 3600 initial)) as Hmiss.
    cbv zeta in Hmiss. specialize (Hmiss eq_refl).
    match type of Hmiss with
    | forall out s2, emdexRequest ?f ?e ?ep ?p false ?w ?s1 = _ -> _ =>
        destruct (emdexRequest f e ep p false w s1) as [out s2] eqn:Hrun in Hmiss;
        vm_compute in Hrun; injection Hrun as <- <-
    end.
    destruct (Hmiss _ _ eq_refl) as (fields & s3 & Hcall & (_ & _ & Hfields) & Hlog & _ & Hstored).
    exists s3. rewrite (Hfields _ eq_refl eq_refl) in Hcall.
    split; [exact Hcall|]. split; [now rewrite Hlog|].
    exact (Hstored eq_refl).
  - destruct (proj1 (cachedEmdexRequest_hit_or_miss serving_world sample_env 2
                       search_endpoint search_params 3600 warm)
                (CacheFacts.new_item 1700000000001 search_result 3600)
                eq_refl ltac:(vm_compute; discriminate) eq_refl)
      as (fields & s' & Hcall & (_ & _ & Hfields) & Hlog & Hcache).
    exists s'. rewrite (Hfields _ eq_refl eq_refl) in Hcall.
    split; [exact Hcall|]. split; [exact Hlog | exact Hcache].
Defined.

(** C6, as the claim has it, fails in both directions. A result whose
    [error] field is the empty string has an error field and is stored: the
    code tests the field for truthiness. A result that is [null] is a success
    with no error field and is not stored: the code tests the result for
    truthiness too. *)
Lemma cachedEmdexRequest_stores_by_truthiness :
  (exists fields s3,
     cachedEmdexRequest 2 sample_env search_endpoint search_params 3600
       (serving (JObj [("error", JStr ""); ("data", JArr [])])) initial
     = (Returns (JObj fields), s3) /\
     prop fields "error" = JStr "" /\
     lookup search_key (Cache.cache (responses s3)) =
       Some {| Cache.data := JObj [("error", JStr ""); ("data", JArr [])];
               Cache.createdAt := 1700000000001;
               Cache.expiresAt := 1700000000001 + 3600 * 1000;
               Cache.ttl := 3600 |}) /\
  (exists fields s3,
     cachedEmdexRequest 2 sample_env search_endpoint search_params 3600
       (serving JNull) initial
     = (Returns (JObj fields), s3) /\
     fields = [("_cache", JObj [("hit", JBool false); ("key", JStr search_key);
                                ("ttl", JNum 3600)])] /\
     lookup search_key (Cache.cache (responses s3)) = None).
Proof.
  split; eexists _, _; (split; [vm_compute; reflexivity|]); split; reflexivity.
Qed.

(** The payloads in the response cache are truthy, the wrapper storing a result
    only under [result && !result.error]: a lookup that finds an unexpired
    entry is a hit. *)
Definition payloads_truthy (st : Cache.State) : Prop :=
  forall k item, In (k, item) (Cache.cache st) -> truthy (Cache.data item) = true.

Lemma In_assign {A} (o : list (string * A)) k v e :
  In e (assign k v o) -> In e o \/ e = (k, v).
Proof.
  induction o as [|[k0 v0] o IH]; simpl; [intuition|].
  destruct (k0 =? k)%string; simpl; intuition.
Qed.

Lemma payloads_truthy_evict victims st :
  payloads_truthy st -> payloads_truthy (Cache.evict_each victims st).
Proof.
  revert st. induction victims as [|[k i] victims IH]; intros st Hst; [exact Hst|].
  cbn [Cache.evict_each]. apply IH. intros k' item Hin.
  cbn [Cache.cache Cache.count_eviction Cache.with_cache] in Hin.
  apply In_remove in Hin. now apply (Hst k').
Qed.

Lemma payloads_truthy_set now key value ttlSeconds st :
  truthy value = true -> payloads_truthy st ->
  payloads_truthy (Cache.set now key value ttlSeconds st).
Proof.
  intros Hvalue Hst k item Hin. unfold Cache.set in Hin.
  cbn [Cache.cache Cache.count_set Cache.with_cache] in Hin.
  apply In_assign in Hin. destruct Hin as [Hin|E].
  - assert (Hkept : payloads_truthy
      (if Cache.MAX_CACHE_SIZE <=? Cache.size st then Cache.evictOldest st else st)).
    { destruct (Cache.MAX_CACHE_SIZE <=? Cache.size st); [|exact Hst].
      now apply payloads_truthy_evict. }
    now apply (Hkept k).
  - injection E as _ ->. exact Hvalue.
Qed.

Lemma payloads_truthy_get now key st :
  payloads_truthy st -> payloads_truthy (snd (Cache.get now key st)).
Proof.
  intros Hst. unfold Cache.get. destruct (lookup key (Cache.cache st)) as [item|];
    [|exact Hst].
  destruct (Cache.expiresAt item <? now); [|exact Hst].
  intros k item' Hin. cbn [snd Cache.cache Cache.count_miss Cache.with_cache] in Hin.
  apply In_remove in Hin. now apply (Hst k).
Qed.

Lemma cachedEmdexRequest_payloads_truthy (w : World) (env : Env) (fuel : nat)
    (endpoint : string) (params : JsObject) (ttlSeconds : Z) (s : State) out s' :
  payloads_truthy (responses s) ->
  cachedEmdexRequest fuel env endpoint params ttlSeconds w s = (out, s') ->
  payloads_truthy (responses s').
Proof.
  intros Hs. unfold cachedEmdexRequest. unfold bind at 1. rewrite on_cache_run.
  set (key := Cache.generateKey _ _). set (now1 := Z.of_N _).
  pose proof (payloads_truthy_get now1 key _ Hs) as H1.
  destruct (truthy (fst (Cache.get now1 key (responses s)))).
  - unfold bind at 1. rewrite on_cache_run. intros E. injection E as _ <-.
    cbn [responses with_responses tick]. unfold Cache.getTTL.
    now destruct (lookup key _).
  - unfold bind at 1.
    destruct (emdexRequest fuel env endpoint params false w _) as [[result|e|] s2]
      eqn:Hrun; pose proof (emdexRequest_responses _ _ _ _ _ _ _ _ _ Hrun) as Hresp;
      cbn [responses with_responses tick] in Hresp;
      [| intros E; injection E as _ <-; now rewrite Hresp
       | intros E; injection E as _ <-; now rewrite Hresp].
    unfold bind at 1.
    destruct (truthy result && negb (truthy (field result "error"))) eqn:Estore.
    + rewrite on_cache_run. intros E. injection E as _ <-.
      cbn [snd responses with_responses tick]. rewrite Hresp.
      apply andb_true_iff in Estore. now apply payloads_truthy_set.
    + unfold ret at 1. intros E. injection E as _ <-. now rewrite Hresp.
Qed.

End WrapperFacts.

(** * The token over the life of the module *)

Module ReachFacts.
Import Emdex TokenFacts RequestFacts WrapperFacts.


(** No token is stored. *)
Definition no_token (s : State) : Prop :=
  cachedToken s = JNull /\ tokenExpiresAt s = None.








End ReachFacts.

(** * Further properties of the cache *)

Module CacheMore.
Import Cache.

Lemma lookup_assign_other {A} (o : list (string * A)) k k' v :
  k' <> k -> lookup k' (assign k v o) = lookup k' o.
Proof.
  intros Hne. induction o as [|[k0 v0] o IH]; simpl.
  - destruct (String.eqb_spec k k'); [congruence | reflexivity].
  - destruct (String.eqb_spec k0 k) as [->|Hk0]; simpl.
    + destruct (String.eqb_spec k k'); [congruence | reflexivity].
    + destruct (String.eqb_spec k0 k'); [reflexivity | exact IH].
Qed.

Lemma lookup_remove_other {A} (o : list (string * A)) k k' :
  k' <> k -> lookup k' (remove k o) = lookup k' o.
Proof.
  intros Hne. induction o as [|[k0 v0] o IH]; simpl; [reflexivity|].
  destruct (String.eqb_spec k0 k) as [->|Hk0]; simpl.
  - destruct (String.eqb_spec k k'); [congruence | exact IH].
  - destruct (String.eqb_spec k0 k'); [reflexivity | exact IH].
Qed.

Lemma length_assign {A} (o : list (string * A)) k v :
  List.length (assign k v o) =
  match lookup k o with
  | Some _ => List.length o
  | None => S (List.length o)
  end.
Proof.
  induction o as [|[k0 v0] o IH]; simpl; [reflexivity|].
  destruct (String.eqb_spec k0 k) as [->|Hk0]; simpl; [reflexivity|].
  rewrite IH. now destruct (lookup k o).
Qed.

(** X1. What [set] stores is what [get] and [has] find until the entry's expiry
    is past, whatever the state [set] ran in (full or not): [get] returns the
    value and counts a hit, [has] answers true, and neither changes the map. *)
Theorem set_then_get_round_trip (now now' : Z) (key : string) (value : JsVal)
    (ttlSeconds : Z) (st : State) :
  now' <= now + ttlSeconds * 1000 ->
  let st1 := set now key value ttlSeconds st in
  get now' key st1 = (value, count_hit st1) /\
  has now' key st1 = (true, st1) /\
  lookup key (cache st1) = Some (CacheFacts.new_item now value ttlSeconds).
Proof.
  intros Hlive st1.
  assert (Hfound : lookup key (cache st1) = Some (CacheFacts.new_item now value ttlSeconds)).
  { unfold st1, set. cbn [cache count_set with_cache]. apply lookup_assign. }
  unfold get, has. rewrite Hfound. cbn [expiresAt CacheFacts.new_item data].
  destruct (Z.ltb_spec (now + ttlSeconds * 1000) now'); [lia|]. now repeat split.
Qed.

Lemma set_then_get_round_trip_witness :
  let st1 := set 5000 "fresh" (JStr "v") 60 (run (CacheFacts.fill 1000)) in
  get 65000 "fresh" st1 = (JStr "v", count_hit st1) /\
  has 65000 "fresh" st1 = (true, st1) /\
  lookup "fresh" (cache st1) = Some (CacheFacts.new_item 5000 (JStr "v") 60).
Proof.
  apply (set_then_get_round_trip 5000 65000 "fresh" (JStr "v") 60
           (run (CacheFacts.fill 1000))).
  vm_compute. discriminate.
Defined.

(** X2. [del] answers whether the key was present; afterwards the key is
    absent, every other key has the entry it had, the counters are untouched,
    and the size went down by one exactly when the answer is true. *)
Theorem del_removes_only_the_key (key : string) (st : State) :
  wf_object (cache st) ->
  let answer := fst (del key st) in
  let st1 := snd (del key st) in
  (answer = true <-> exists item, lookup key (cache st) = Some item) /\
  lookup key (cache st1) = None /\
  (forall other, other <> key -> lookup other (cache st1) = lookup other (cache st)) /\
  stats st1 = stats st /\
  size st1 = size st - (if answer then 1 else 0).
Proof.
  intros Hwf. unfold del.
  destruct (lookup key (cache st)) as [item|] eqn:Hfound; cbn [fst snd].
  - split; [split; [intros _; now exists item | reflexivity]|].
    cbn [cache with_cache stats]. split; [apply lookup_remove|].
    split; [intros other Hne; now apply lookup_remove_other|].
    split; [reflexivity|]. unfold size. cbn [cache with_cache].
    pose proof (length_remove (cache st) key item Hwf Hfound). lia.
  - split; [split; [discriminate | intros [item E]; discriminate]|].
    split; [exact Hfound|]. split; [reflexivity|]. split; [reflexivity | lia].
Qed.

Lemma del_removes_only_the_key_witness :
  fst (del "k" CacheFacts.one_entry) = true /\
  lookup "k" (cache (snd (del "k" CacheFacts.one_entry))) = None /\
  size (snd (del "k" CacheFacts.one_entry)) = 0.
Proof.
  assert (Hwf : wf_object (cache CacheFacts.one_entry)).
  { repeat constructor. simpl. tauto. }
  destruct (del_removes_only_the_key "k" CacheFacts.one_entry Hwf)
    as (Hanswer & Hgone & _ & _ & Hsize).
  assert (Htrue : fst (del "k" CacheFacts.one_entry) = true).
  { apply Hanswer. eexists. reflexivity. }
  split; [exact Htrue|]. split; [exact Hgone|].
  rewrite Hsize, Htrue. reflexivity.
Defined.

(** The number of [get] and of [set] operations in a sequence. *)
Fixpoint count_gets (ops : list Op) : Z :=
  match ops with
  | [] => 0
  | OpGet _ _ :: rest => 1 + count_gets rest
  | _ :: rest => count_gets rest
  end.

Fixpoint count_sets (ops : list Op) : Z :=
  match ops with
  | [] => 0
  | OpSet _ _ _ _ :: rest => 1 + count_sets rest
  | _ :: rest => count_sets rest
  end.

Lemma count_sets_nonneg ops : 0 <= count_sets ops.
Proof. induction ops as [|[] ops IH]; cbn [count_sets]; lia. Qed.

(** How far the counters of [after] are from those of [before]: [gets] more
    lookups counted, none uncounted, [sets] more sets, and 100 evictions for
    each of at most [sets] batches. *)
Definition counted (gets sets_ : Z) (before after : State) : Prop :=
  hits (stats after) + misses (stats after) =
    hits (stats before) + misses (stats before) + gets /\
  hits (stats before) <= hits (stats after) /\
  misses (stats before) <= misses (stats after) /\
  sets (stats after) = sets (stats before) + sets_ /\
  exists batches,
    0 <= batches <= sets_ /\
    evictions (stats after) = evictions (stats before) + 100 * batches.

Lemma counted_same st st' : stats st' = stats st -> counted 0 0 st st'.
Proof. intros E. unfold counted. rewrite E. repeat split; try lia. exists 0. lia. Qed.

Lemma counted_trans g1 s1 g2 s2 a b c :
  counted g1 s1 a b -> counted g2 s2 b c -> counted (g1 + g2) (s1 + s2) a c.
Proof.
  intros (Hg1 & Hh1 & Hm1 & Hs1 & b1 & Hb1 & He1) (Hg2 & Hh2 & Hm2 & Hs2 & b2 & Hb2 & He2).
  unfold counted. repeat split; try lia. exists (b1 + b2). lia.
Qed.

Lemma evictOldest_counts_100 st :
  MAX_CACHE_SIZE <= size st ->
  stats (evictOldest st) =
  {| hits := hits (stats st); misses := misses (stats st); sets := sets (stats st);
     evictions := evictions (stats st) + 100 |}.
Proof.
  intros Hfull. unfold evictOldest.
  destruct (CacheFacts.stats_evict_each
    (firstn (Z.to_nat itemsToRemove) (sort older_first (cache st))) st)
    as (Hh & Hm & Hs & He).
  rewrite length_firstn in He.
  rewrite (Permutation_length (sort_Permutation older_first (cache st))) in He.
  unfold size, MAX_CACHE_SIZE in Hfull. rewrite CacheFacts.itemsToRemove_100 in He.
  destruct (stats (evict_each _ st)) as [h m s e].
  cbn [hits misses sets evictions] in Hh, Hm, Hs, He. f_equal; lia.
Qed.

Lemma step_counted st op : counted (count_gets [op]) (count_sets [op]) st (step st op).
Proof.
  destruct op as [now key|now key value ttlSeconds|key| |now key|now key];
    cbn [step count_gets count_sets].
  - unfold get. destruct (lookup key (cache st)) as [item|];
      [destruct (expiresAt item <? now)|]; unfold counted; cbn;
      repeat split; try lia; exists 0; lia.
  - unfold set. destruct (Z.leb_spec MAX_CACHE_SIZE (size st)) as [Hfull|_].
    + unfold counted. cbn [stats count_set with_cache hits misses sets evictions].
      rewrite (evictOldest_counts_100 st Hfull). cbn. repeat split; try lia.
      exists 1. lia.
    + unfold counted. cbn. repeat split; try lia. exists 0. lia.
  - apply counted_same. unfold del. now destruct (lookup key (cache st)).
  - now apply counted_same.
  - apply counted_same. unfold getTTL. now destruct (lookup key (cache st)).
  - apply counted_same. unfold has. destruct (lookup key (cache st)) as [item|];
      [destruct (expiresAt item <? now)|]; reflexivity.
Qed.

Lemma fold_counted ops st :
  counted (count_gets ops) (count_sets ops) st (fold_left step ops st).
Proof.
  revert st. induction ops as [|op ops IH]; intros st.
  - now apply counted_same.
  - cbn [fold_left].
    replace (count_gets (op :: ops)) with (count_gets [op] + count_gets ops)
      by (destruct op; cbn [count_gets]; lia).
    replace (count_sets (op :: ops)) with (count_sets [op] + count_sets ops)
      by (destruct op; cbn [count_sets]; lia).
    eapply counted_trans; [apply step_counted | apply IH].
Qed.

(** X3. The counters account for the operations. After any sequence of
    operations on a freshly loaded module, [hits + misses] is the number of
    [get] calls, [sets] is the number of [set] calls, [evictions] is 100 times
    a number of batches that is at most the number of [set] calls, and no
    counter is negative; [has], [getTTL], [del] and [clear] count nothing. *)
Theorem counters_account_for_operations (ops : list Op) :
  hits (stats (run ops)) + misses (stats (run ops)) = count_gets ops /\
  0 <= hits (stats (run ops)) /\
  0 <= misses (stats (run ops)) /\
  sets (stats (run ops)) = count_sets ops /\
  exists batches,
    0 <= batches <= count_sets ops /\
    evictions (stats (run ops)) = 100 * batches.
Proof.
  destruct (fold_counted ops initial) as (Hg & Hh & Hm & Hs & b & Hb & He).
  fold (run ops) in Hg, Hh, Hm, Hs, He.
  change (stats initial) with
    {| hits := 0; misses := 0; sets := 0; evictions := 0 |} in Hg, Hh, Hm, Hs, He.
  cbn [hits misses sets evictions] in Hg, Hh, Hm, Hs, He.
  repeat split; try lia. exists b. lia.
Qed.

Lemma ceil_div_1000_spec (n : Z) :
  1000 * (ceil_div_1000 n - 1) < n <= 1000 * ceil_div_1000 n.
Proof.
  unfold ceil_div_1000.
  pose proof (Z.div_mod (n + 999) 1000 ltac:(lia)) as Hdiv.
  pose proof (Z.mod_pos_bound (n + 999) 1000 ltac:(lia)) as Hmod. lia.
Qed.

Lemma getTTL_nonneg (now : Z) (key : string) (st : State) :
  0 <= fst (getTTL now key st).
Proof.
  unfold getTTL. destruct (lookup key (cache st)) as [item|]; cbn [fst]; [|lia].
  destruct (Z.ltb_spec 0 (expiresAt item - now)); [|lia].
  pose proof (ceil_div_1000_spec (expiresAt item - now)). lia.
Qed.

(** The whole numbers on which the arithmetic of the code is the arithmetic
    of the model, those from 0 to 2^53: a sum, a difference or a product that
    stays in the range is computed without rounding; and the quotient of such
    a number by 1000 is below 2^44, where the numbers the code can hold are
    2^-9 apart at most, so a quotient that is not whole, being at least 1/1000
    above a whole number, is rounded to a number above it and has the ceiling
    of the exact quotient. *)
Definition exact (z : Z) : Prop := 0 <= z <= 2 ^ 53.

(** X4. [getTTL] is never negative and is positive exactly for an entry whose
    expiry lies ahead. The rest is for times and expiries that are whole
    numbers from 0 to 2^53, the range in which the code computes without
    rounding: [getTTL] is then the remaining time rounded up to whole
    seconds; for an entry stored by [set] with a ttl that is a whole number of
    seconds and not negative it is the ttl at the time of the [set] and never
    more afterwards, and at the expiry instant it is 0 although [get] still
    finds the entry. *)
Theorem getTTL_bounds (now : Z) (key : string) (st : State) :
  0 <= fst (getTTL now key st) /\
  (0 < fst (getTTL now key st) <->
   exists item, lookup key (cache st) = Some item /\ now < expiresAt item) /\
  (forall item, lookup key (cache st) = Some item ->
     exact now -> exact (expiresAt item) -> now < expiresAt item ->
     1000 * (fst (getTTL now key st) - 1) < expiresAt item - now
       <= 1000 * fst (getTTL now key st)) /\
  (forall stored_at value ttlSeconds st0,
     st = set stored_at key value ttlSeconds st0 -> 0 <= ttlSeconds ->
     exact stored_at -> exact (stored_at + ttlSeconds * 1000) -> exact now ->
     stored_at <= now ->
     fst (getTTL now key st) <= ttlSeconds /\
     (now = stored_at -> fst (getTTL now key st) = ttlSeconds) /\
     (now = stored_at + ttlSeconds * 1000 ->
      fst (getTTL now key st) = 0 /\ fst (get now key st) = value)).
Proof.
  assert (Hcases : forall item, lookup key (cache st) = Some item ->
    fst (getTTL now key st) =
      if 0 <? expiresAt item - now then ceil_div_1000 (expiresAt item - now) else 0).
  { intros item E. unfold getTTL. now rewrite E. }
  split; [apply getTTL_nonneg|split; [|split]].
  - split.
    + unfold getTTL. destruct (lookup key (cache st)) as [item|]; cbn [fst]; [|lia].
      destruct (Z.ltb_spec 0 (expiresAt item - now)); [|lia].
      intros _. exists item. split; [reflexivity | lia].
    + intros [item [E Hlive]]. rewrite (Hcases item E).
      destruct (Z.ltb_spec 0 (expiresAt item - now)); [|lia].
      pose proof (ceil_div_1000_spec (expiresAt item - now)). lia.
  - intros item E _ _ Hlive. rewrite (Hcases item E).
    destruct (Z.ltb_spec 0 (expiresAt item - now)); [|lia].
    apply ceil_div_1000_spec.
  - intros stored_at value ttlSeconds st0 -> Httl _ _ _ Hlater.
    assert (E : lookup key (cache (set stored_at key value ttlSeconds st0)) =
                Some (CacheFacts.new_item stored_at value ttlSeconds)).
    { unfold set. cbn [cache count_set with_cache]. apply lookup_assign. }
    rewrite (Hcases _ E). cbn [expiresAt CacheFacts.new_item].
    pose proof (ceil_div_1000_spec (stored_at + ttlSeconds * 1000 - now)) as Hceil.
    split; [|split].
    + destruct (Z.ltb_spec 0 (stored_at + ttlSeconds * 1000 - now)); lia.
    + intros ->. destruct (Z.ltb_spec 0 (stored_at + ttlSeconds * 1000 - stored_at)); lia.
    + intros ->. split.
      * destruct (Z.ltb_spec 0 (stored_at + ttlSeconds * 1000
                                - (stored_at + ttlSeconds * 1000)));
          [lia | reflexivity].
      * unfold get. rewrite E. cbn [expiresAt CacheFacts.new_item data].
        now rewrite Z.ltb_irrefl.
Qed.

Lemma getTTL_bounds_witness :
  fst (getTTL 1700000000500 "k"
         (set 1700000000000 "k" (JStr "v") 3600 initial)) = 3600 /\
  fst (getTTL 1700000000000 "k"
         (set 1700000000000 "k" (JStr "v") 3600 initial)) = 3600 /\
  fst (getTTL 1700003600000 "k"
         (set 1700000000000 "k" (JStr "v") 3600 initial)) = 0 /\
  fst (get 1700003600000 "k"
         (set 1700000000000 "k" (JStr "v") 3600 initial)) = JStr "v".
Proof.
  assert (forall z, 0 <= z <= 1800000000000 -> exact z) as Hexact
    by (unfold exact; intros; split; [lia | change (2 ^ 53) with 9007199254740992; lia]).
  split; [reflexivity|].
  split.
  - refine (proj1 (proj2 (proj2 (proj2 (proj2 (getTTL_bounds 1700000000000 "k" _)))
                            1700000000000 (JStr "v") 3600 initial eq_refl _ _ _ _ _))
                  eq_refl); try apply Hexact; lia.
  - refine (proj2 (proj2 (proj2 (proj2 (proj2 (getTTL_bounds 1700003600000 "k" _)))
                            1700000000000 (JStr "v") 3600 initial eq_refl _ _ _ _ _))
                  eq_refl); try apply Hexact; lia.
Defined.

(** X5. [has] and [get] agree. [has] answers true exactly when the key has an
    entry whose expiry is not past, and then [get] returns its value and counts
    a hit; otherwise [get] returns [null] and counts a miss. Both leave the
    same map; [has] never touches the counters. *)
Theorem has_agrees_with_get (now : Z) (key : string) (st : State) :
  cache (snd (has now key st)) = cache (snd (get now key st)) /\
  stats (snd (has now key st)) = stats st /\
  (fst (has now key st) = true <->
   exists item, lookup key (cache st) = Some item /\ now <= expiresAt item) /\
  (forall item, lookup key (cache st) = Some item -> now <= expiresAt item ->
     fst (get now key st) = data item /\
     hits (stats (snd (get now key st))) = hits (stats st) + 1 /\
     misses (stats (snd (get now key st))) = misses (stats st)) /\
  (fst (has now key st) = false ->
     fst (get now key st) = JNull /\
     hits (stats (snd (get now key st))) = hits (stats st) /\
     misses (stats (snd (get now key st))) = misses (stats st) + 1).
Proof.
  unfold has, get. destruct (lookup key (cache st)) as [item|].
  - destruct (Z.ltb_spec (expiresAt item) now) as [Hexp|Hlive];
      cbn [fst snd cache stats count_hit count_miss with_cache hits misses].
    + split; [reflexivity|]. split; [reflexivity|]. split; [|split].
      * split; [discriminate|]. intros [item' [E Hle]]. injection E as <-. lia.
      * intros item' E Hle. injection E as <-. lia.
      * intros _. now repeat split.
    + split; [reflexivity|]. split; [reflexivity|]. split; [|split].
      * split; [intros _; now exists item | reflexivity].
      * intros item' E _. injection E as <-. now repeat split.
      * discriminate.
  - cbn [fst snd cache stats count_hit count_miss with_cache hits misses].
    split; [reflexivity|]. split; [reflexivity|]. split; [|split].
    + split; [discriminate | intros [item' [E _]]; discriminate].
    + discriminate.
    + intros _. now repeat split.
Qed.

Lemma has_agrees_with_get_witness :
  fst (has 1000 "k" CacheFacts.one_entry) = true /\
  fst (get 1000 "k" CacheFacts.one_entry) = JStr "v" /\
  hits (stats (snd (get 1000 "k" CacheFacts.one_entry))) = 1.
Proof.
  destruct (has_agrees_with_get 1000 "k" CacheFacts.one_entry)
    as (_ & _ & Hhas & Hget & _).
  split.
  - apply Hhas. eexists. split; [reflexivity|]. cbn. lia.
  - destruct (Hget (CacheFacts.new_item 0 (JStr "v") 1) eq_refl) as (Hv & Hh & _).
    + cbn. lia.
    + split; [exact Hv | exact Hh].
Defined.

(** X6. A [set] on a map that is not full evicts nothing: every other key keeps
    its entry, the evictions counter stays, and the size grows by one for a new
    key and not at all for a key that is overwritten. *)
Theorem set_below_capacity_keeps_entries (now : Z) (key : string) (value : JsVal)
    (ttlSeconds : Z) (st : State) :
  size st < MAX_CACHE_SIZE ->
  let st1 := set now key value ttlSeconds st in
  (forall other, other <> key -> lookup other (cache st1) = lookup other (cache st)) /\
  evictions (stats st1) = evictions (stats st) /\
  size st1 = size st + (match lookup key (cache st) with Some _ => 0 | None => 1 end).
Proof.
  intros Hroom st1. unfold st1, set.
  destruct (Z.leb_spec MAX_CACHE_SIZE (size st)); [lia|].
  cbn [cache stats count_set with_cache evictions]. split; [|split].
  - intros other Hne. now apply lookup_assign_other.
  - reflexivity.
  - unfold size. cbn [cache count_set with_cache]. rewrite length_assign.
    destruct (lookup key (cache st)); lia.
Qed.

Lemma set_below_capacity_keeps_entries_witness :
  let st1 := set 7 "k2" JNull 1 CacheFacts.one_entry in
  lookup "k" (cache st1) = lookup "k" (cache CacheFacts.one_entry) /\
  size st1 = 2.
Proof.
  destruct (set_below_capacity_keeps_entries 7 "k2" JNull 1 CacheFacts.one_entry)
    as (Hother & _ & Hsize).
  - vm_compute. reflexivity.
  - split; [apply Hother; discriminate | exact Hsize].
Defined.

End CacheMore.

(** * Further properties of the EMDEX service *)

Module ServiceMore.
Import Emdex TokenFacts RequestFacts WrapperFacts.

(** A thrown value that is an [EmdexError]. *)
Definition is_EmdexError (e : JsError) : Prop :=
  exists message code original, e = EmdexError message code original.

Lemma token_is_fresh_truthy token expires now :
  token_is_fresh token expires now = true -> truthy token = true.
Proof. unfold token_is_fresh. now intros H%andb_true_iff. Qed.

(** What holds after [getToken] returned. *)
Lemma getToken_returned (w : World) (env : Env) (s : State) token s1 :
  getToken env w s = (Returns token, s1) ->
  truthy token = true /\ cachedToken s1 = token /\ clock s1 = S (clock s).
Proof.
  rewrite getToken_cases. cbv zeta.
  destruct (token_is_fresh _ _ _) eqn:Efresh.
  - intros E. injection E as <- <-. split; [|now split].
    now apply token_is_fresh_truthy in Efresh.
  - destruct (unconfigured env); [discriminate|].
    unfold login_outcome.
    destruct (upstream w (List.length (log s))) as [r|]; [|discriminate].
    destruct (negb (ok r)); [discriminate|].
    destruct (json r) as [data|]; [|discriminate].
    destruct (nullish data); [discriminate|].
    destruct (truthy (login_token data)) eqn:Etok; cbn [negb fst snd]; [|discriminate].
    intros E. injection E as <- <-. now repeat split.
Qed.

(** What [getToken] throws is an [EmdexError]. *)
Lemma getToken_throws_EmdexError (w : World) (env : Env) (s : State) e s' :
  getToken env w s = (Throws e, s') -> is_EmdexError e.
Proof.
  rewrite getToken_cases. cbv zeta. unfold is_EmdexError.
  destruct (token_is_fresh _ _ _); [discriminate|].
  destruct (unconfigured env); [intros E; injection E as <- _; now eexists _, _, _|].
  unfold login_outcome.
  destruct (upstream w (List.length (log s))) as [r|];
    [|intros E; injection E as <- _; now eexists _, _, _].
  destruct (negb (ok r)); [intros E; injection E as <- _; now eexists _, _, _|].
  destruct (json r) as [data|]; [|intros E; injection E as <- _; now eexists _, _, _].
  destruct (nullish data); [intros E; injection E as <- _; now eexists _, _, _|].
  destruct (negb (truthy (login_token data)));
    [intros E; injection E as <- _; now eexists _, _, _ | discriminate].
Qed.

(** [getToken] sends at most one request. *)
Lemma getToken_log_bound (w : World) (env : Env) (s : State) :
  (List.length (log (snd (getToken env w s))) <= S (List.length (log s)))%nat.
Proof.
  rewrite getToken_cases. cbv zeta.
  destruct (token_is_fresh _ _ _); [cbn; lia|].
  destruct (unconfigured env); [cbn; lia|].
  cbn [snd log with_token logged tick]. rewrite length_app. cbn. lia.
Qed.

(** The code of what [getToken] throws. *)
Lemma getToken_failure_codes (w : World) (env : Env) (s : State) e s' :
  getToken env w s = (Throws e, s') ->
  code_of e = Some AUTH_FAILED \/ code_of e = Some NETWORK_ERROR.
Proof.
  rewrite getToken_cases. cbv zeta.
  destruct (token_is_fresh _ _ _); [discriminate|].
  destruct (unconfigured env); [intros E; injection E as <- _; now left|].
  unfold login_outcome.
  destruct (upstream w (List.length (log s))) as [r|];
    [|intros E; injection E as <- _; now right].
  destruct (negb (ok r)); [intros E; injection E as <- _; now left|].
  destruct (json r) as [data|]; [|intros E; injection E as <- _; now right].
  destruct (nullish data); [intros E; injection E as <- _; now right|].
  destruct (negb (truthy (login_token data)));
    [intros E; injection E as <- _; now left | discriminate].
Qed.

(** X7. Outside mock mode every error [emdexRequest] throws is an [EmdexError]
    (so it carries one of the three codes), whatever the upstream does: a
    rejected [fetch] or an unreadable body never escapes unclassified. *)
Theorem emdexRequest_throws_only_EmdexError (fuel : nat) (w : World) (env : Env)
    (endpoint : string) (params : JsObject) (isRetry : bool) (s : State)
    (e : JsError) (s' : State) :
  USE_MOCK env = false ->
  emdexRequest fuel env endpoint params isRetry w s = (Throws e, s') ->
  is_EmdexError e.
Proof.
  intros Hmock. revert isRetry s.
  induction fuel as [|fuel IH]; intros isRetry s; [discriminate|].
  destruct (unset (EMDEX_API_URL env)) eqn:Hurl.
  - rewrite emdexRequest_no_url by assumption.
    intros E. injection E as <- _. now eexists _, _, _.
  - rewrite emdexRequest_cases by assumption.
    destruct (getToken env w s) as [[token|e0|] s1] eqn:Htoken; [| |discriminate].
    + cbv zeta. destruct (upstream w (List.length (log s1))) as [r|message];
        [|intros E; injection E as <- _; now eexists _, _, _].
      destruct ((status r =? 401) && negb isRetry); [apply IH|].
      destruct (negb (ok r)); [intros E; injection E as <- _; now eexists _, _, _|].
      destruct (json r); [discriminate|].
      intros E. injection E as <- _. now eexists _, _, _.
    + intros E. injection E as <- _.
      destruct (getToken_throws_EmdexError w env s e0 s1 Htoken) as (m & c & o & ->).
      now exists m, c, o.
Qed.

Lemma emdexRequest_throws_only_EmdexError_witness :
  exists e s',
    emdexRequest 2 sample_env search_endpoint search_params false offline_world initial
      = (Throws e, s') /\
    is_EmdexError e.
Proof.
  eexists _, _. split; [reflexivity|].
  eapply (emdexRequest_throws_only_EmdexError 2 offline_world sample_env
            search_endpoint search_params false initial); reflexivity.
Defined.

(** An environment in mock mode. *)
Definition mock_env : Env :=
  {| EMDEX_API_URL := None; EMDEX_EMAIL := None; EMDEX_PASSWORD := None;
     USE_MOCK := true |}.

(** X8. In mock mode a cached request never reaches the network and never
    touches the token: no [fetch] is logged and the token variables are the
    ones it found; the raw request leaves the whole state as it is and settles
    as the mock transport does. *)
Theorem mock_mode_sends_nothing (fuel : nat) (w : World) (env : Env)
    (endpoint : string) (params : JsObject) (ttlSeconds : Z) (s : State) :
  USE_MOCK env = true ->
  (forall isRetry,
     emdexRequest (S fuel) env endpoint params isRetry w s =
     (match mockEmdexRequest w endpoint params with
      | Fulfilled value => Returns value
      | Rejected e => Throws e
      end, s)) /\
  forall out s',
    cachedEmdexRequest (S fuel) env endpoint params ttlSeconds w s = (out, s') ->
    log s' = log s /\ cachedToken s' = cachedToken s /\
    tokenExpiresAt s' = tokenExpiresAt s.
Proof.
  intros Hmock. split.
  - intros isRetry. rewrite emdexRequest_mock by exact Hmock. unfold mock_transport.
    now destruct (mockEmdexRequest w endpoint params).
  - intros out s'. unfold cachedEmdexRequest. unfold bind at 1. rewrite on_cache_run.
    destruct (truthy _).
    + unfold bind at 1. rewrite on_cache_run. intros E. injection E as _ <-.
      clock_cases; now repeat split.
    + unfold bind at 1. rewrite emdexRequest_mock by exact Hmock.
      unfold mock_transport.
      destruct (mockEmdexRequest w endpoint params) as [result|e];
        [|intros E; injection E as _ <-; clock_cases; now repeat split].
      unfold bind at 1. destruct (truthy result && _).
      * rewrite on_cache_run. intros E. injection E as _ <-.
        clock_cases; now repeat split.
      * unfold ret at 1. intros E. injection E as _ <-.
        clock_cases; now repeat split.
Qed.

Lemma mock_mode_sends_nothing_witness :
  exists out s',
    cachedEmdexRequest 1 mock_env search_endpoint search_params 3600 sample_world
      initial = (out, s') /\
    log s' = [] /\ cachedToken s' = JNull /\ tokenExpiresAt s' = None.
Proof.
  eexists _, _. split; [reflexivity|].
  apply (proj2 (mock_mode_sends_nothing 0 sample_world mock_env search_endpoint
                  search_params 3600 initial eq_refl) _ _ eq_refl).
Defined.

(** X9. The token [getToken] returns is the one it leaves stored, and it is
    truthy. While more than 60 seconds remain before the stored expiry, the
    next call returns the same token without any request, under any
    environment, even one that has lost its settings. *)
Theorem returned_token_is_reused (w : World) (env env' : Env) (s : State)
    (token : JsVal) (s1 : State) (expiresAt : Z) :
  getToken env w s = (Returns token, s1) ->
  tokenExpiresAt s1 = Some expiresAt ->
  Z.of_N (date_now w (clock s1)) < expiresAt - 60000 ->
  truthy token = true /\ cachedToken s1 = token /\
  getToken env' w s1 = (Returns token, tick s1) /\
  log (tick s1) = log s1.
Proof.
  intros Hrun Hexp Hlive.
  destruct (getToken_returned w env s token s1 Hrun) as (Htruthy & Hstored & _).
  split; [exact Htruthy|]. split; [exact Hstored|]. split; [|reflexivity].
  rewrite getToken_cases. cbv zeta.
  assert (Hfresh : token_is_fresh (cachedToken s1) (tokenExpiresAt s1)
                     (Z.of_N (date_now w (clock s1))) = true).
  { apply token_is_fresh_iff; [lia|]. split; [now rewrite Hstored|].
    now exists expiresAt. }
  now rewrite Hfresh, Hstored.
Qed.

Lemma returned_token_is_reused_witness :
  getToken no_env sample_world logged_in = (Returns (JStr "t1"), tick logged_in) /\
  log (tick logged_in) = log logged_in.
Proof.
  destruct (returned_token_is_reused sample_world sample_env no_env initial
              (JStr "t1") logged_in (1700000000000 + 3600 * 1000))
    as (_ & _ & Hagain & Hlog).
  - reflexivity.
  - reflexivity.
  - vm_compute. reflexivity.
  - split; [exact Hagain | exact Hlog].
Defined.

(** X10. Recovery from a rejected token. When the data call is answered 401,
    the login that follows succeeds and the second data call is answered with
    a success whose body parses, [emdexRequest] returns that body. The second
    data call carries the token of the second login, that token is the one
    left stored, and the requests sent after the first data call are exactly
    one login and one data call. *)
Theorem emdexRequest_recovers_from_401 (w : World) (env : Env) (fuel : nat)
    (endpoint : string) (params : JsObject) (s : State)
    (token : JsVal) (s1 : State) (r1 : Response)
    (token2 : JsVal) (s3 : State) (r2 : Response) (data : JsVal) :
  USE_MOCK env = false -> unset (EMDEX_API_URL env) = false ->
  getToken env w s = (Returns token, s1) ->
  upstream w (List.length (log s1)) = Resolves r1 ->
  status r1 = 401 ->
  let s2 := after_unauthorized env token endpoint params r1 s1 in
  getToken env w s2 = (Returns token2, s3) ->
  upstream w (List.length (log s3)) = Resolves r2 ->
  ok r2 = true ->
  json r2 = Parsed data ->
  let second := data_request (env_string (EMDEX_API_URL env)) token2 endpoint params in
  emdexRequest (S (S fuel)) env endpoint params false w s =
    (Returns data, logged (second, Resolves r2) s3) /\
  cachedToken s3 = token2 /\
  log s3 = (log s2 ++ [(login_request env, upstream w (List.length (log s2)))])%list /\
  In ("Authorization", "Bearer " ++ js_String token2) (headers second).
Proof.
  intros Hmock Hurl Htoken Hresp H401 s2 Htoken2 Hresp2 Hok Hjson second.
  split; [|split; [|split]].
  - rewrite (emdexRequest_cases (S fuel)) by assumption.
    rewrite Htoken. cbv zeta. rewrite Hresp, H401. cbn [Z.eqb Pos.eqb negb andb].
    fold s2. rewrite emdexRequest_cases by assumption.
    rewrite Htoken2. cbv zeta. rewrite Hresp2, andb_false_r, Hok, Hjson.
    reflexivity.
  - now destruct (getToken_returned w env s2 token2 s3 Htoken2) as (_ & Hstored & _).
  - revert Htoken2. rewrite getToken_cases. cbv zeta.
    change (cachedToken s2) with JNull. cbn [token_is_fresh truthy andb].
    destruct (unconfigured env); [discriminate|].
    intros E. injection E as _ <-. reflexivity.
  - now left.
Qed.

(** An upstream that rejects the first token and then serves. *)
Definition recovering_world : World :=
  {| date_now := date_now sample_world;
     upstream := fun k =>
       match k with
       | 0%nat => login_accepted "t1"
       | 1%nat => unauthorized
       | 2%nat => login_accepted "t2"
       | _ => Resolves {| status := 200; statusText := "OK"; text := "";
                          json := Parsed search_result |}
       end;
     mockEmdexRequest := mockEmdexRequest sample_world;
     string_to_number := string_to_number sample_world |}.

Lemma emdexRequest_recovers_from_401_witness :
  exists s',
    emdexRequest 2 sample_env search_endpoint search_params false recovering_world
      initial = (Returns search_result, s') /\
    cachedToken s' = JStr "t2" /\
    List.length (log s') = 4%nat.
Proof.
  destruct (getToken sample_env recovering_world initial) as [out1 s1] eqn:Htoken.
  vm_compute in Htoken. injection Htoken as <- <-.
  pose proof (fun r2 data s3 token2 =>
    emdexRequest_recovers_from_401 recovering_world sample_env 0 search_endpoint
      search_params initial _ _ _ token2 s3 r2 data eq_refl eq_refl eq_refl eq_refl
      eq_refl) as Hrecover.
  cbv zeta in Hrecover.
  match type of Hrecover with
  | forall r2 data s3 token2, getToken ?e ?w ?s2 = _ -> _ =>
      destruct (getToken e w s2) as [out2 s3] eqn:Htoken2 in Hrecover;
      vm_compute in Htoken2; injection Htoken2 as <- <-
  end.
  destruct (Hrecover _ search_result _ _ eq_refl eq_refl eq_refl eq_refl)
    as (Hrun & _ & _ & _).
  eexists. split; [exact Hrun|]. split; reflexivity.
Defined.

(** The cache key of a request. *)
Definition request_key (endpoint : string) (params : JsObject) : string :=
  Cache.generateKey ("emdex" ++ replace_slashes endpoint) params.

(** The run of a cached request that finds a live, truthy payload. *)
Lemma cached_hit_run (w : World) (env : Env) (fuel : nat) (endpoint : string)
    (params : JsObject) (ttlSeconds : Z) (s : State) (item : Cache.Item) :
  lookup (request_key endpoint params) (Cache.cache (responses s)) = Some item ->
  Z.of_N (date_now w (clock s)) <= Cache.expiresAt item ->
  truthy (Cache.data item) = true ->
  cachedEmdexRequest fuel env endpoint params ttlSeconds w s =
  (Returns (annotate (Cache.data item)
              (cache_info true (request_key endpoint params)
                 (fst (Cache.getTTL (Z.of_N (date_now w (S (clock s))))
                         (request_key endpoint params) (responses s))))),
   with_responses (Cache.count_hit (responses s)) (tick (tick s))).
Proof.
  intros Hfound Hlive Htruthy.
  set (key := request_key endpoint params) in *.
  set (now1 := Z.of_N (date_now w (clock s))) in *.
  assert (Hget : Cache.get now1 key (responses s) =
                 (Cache.data item, Cache.count_hit (responses s))).
  { unfold Cache.get. rewrite Hfound.
    destruct (Z.ltb_spec (Cache.expiresAt item) now1); [lia | reflexivity]. }
  assert (Hheld : held key (responses s) = true)
    by (unfold held; now rewrite Hfound).
  assert (Hheld' : held key (Cache.count_hit (responses s)) = true)
    by (unfold held; cbn [Cache.cache Cache.count_hit]; now rewrite Hfound).
  unfold cachedEmdexRequest. fold (request_key endpoint params). fold key.
  unfold bind at 1. rewrite on_cache_run. fold now1. rewrite Hget, Hheld.
  cbn [fst snd]. rewrite Htruthy. unfold bind at 1. rewrite on_cache_run.
  cbn [clock responses with_responses tick]. rewrite Hheld'.
  assert (Httl : forall now2, Cache.getTTL now2 key (Cache.count_hit (responses s)) =
                   (fst (Cache.getTTL now2 key (responses s)),
                    Cache.count_hit (responses s))).
  { intros now2. unfold Cache.getTTL. cbn [Cache.cache Cache.count_hit].
    now destruct (lookup key (Cache.cache (responses s))). }
  rewrite Httl. reflexivity.
Qed.

(** The run of a cached request that misses and whose raw request returns a
    result that is stored. *)
Lemma cached_miss_stored_run (w : World) (env : Env) (fuel : nat)
    (endpoint : string) (params : JsObject) (ttlSeconds : Z) (s : State)
    (result : JsVal) (s2 : State) :
  let key := request_key endpoint params in
  let now1 := Z.of_N (date_now w (clock s)) in
  truthy (fst (Cache.get now1 key (responses s))) = false ->
  emdexRequest fuel env endpoint params false w (looked_up w key s)
  = (Returns result, s2) ->
  truthy result && negb (truthy (field result "error")) = true ->
  cachedEmdexRequest fuel env endpoint params ttlSeconds w s =
  (Returns (annotate result (cache_info false key ttlSeconds)),
   with_responses
     (Cache.set (Z.of_N (date_now w (clock s2))) key result ttlSeconds (responses s2))
     (tick s2)).
Proof.
  intros key now1 Hmiss Hrun Hstore.
  unfold cachedEmdexRequest. fold (request_key endpoint params). fold key.
  unfold bind at 1. rewrite on_cache_run. fold now1. rewrite Hmiss.
  change (with_responses (snd (Cache.get now1 key (responses s)))
            (if held key (responses s) then tick s else s))
    with (looked_up w key s).
  unfold bind at 1. rewrite Hrun. unfold bind at 1. rewrite Hstore.
  rewrite on_cache_run. reflexivity.
Qed.

(** X11. A search on a cold cache followed by the same search. When the first
    call misses and its raw request returns a result that is stored, the
    result comes back with [_cache = {hit: false, key, ttl: ttlSeconds}]; a
    second call for the same endpoint and parameters, made before the entry's
    expiry is past, returns the same result with
    [_cache = {hit: true, key, ttl: getTTL(key)}] and sends nothing upstream,
    whatever the environment is by then. *)
Theorem second_search_is_served_from_cache (w : World) (env env' : Env)
    (fuel fuel' : nat) (endpoint : string) (params : JsObject)
    (ttlSeconds ttlSeconds' : Z) (s : State) (result : JsVal) (s2 : State) :
  let key := Cache.generateKey ("emdex" ++ replace_slashes endpoint) params in
  let now1 := Z.of_N (date_now w (clock s)) in
  let s1 :=
    with_responses (snd (Cache.get now1 key (responses s)))
      (match lookup key (Cache.cache (responses s)) with
       | Some _ => tick s
       | None => s
       end) in
  let stored_at := Z.of_N (date_now w (clock s2)) in
  truthy (fst (Cache.get now1 key (responses s))) = false ->
  emdexRequest fuel env endpoint params false w s1 = (Returns result, s2) ->
  truthy result && negb (truthy (field result "error")) = true ->
  exists first s3,
    cachedEmdexRequest fuel env endpoint params ttlSeconds w s =
      (Returns (JObj first), s3) /\
    annotated result
      (JObj [("hit", JBool false); ("key", JStr key); ("ttl", JNum ttlSeconds)])
      first /\
    (Z.of_N (date_now w (clock s3)) <= stored_at + ttlSeconds * 1000 ->
     exists second remaining s4,
       cachedEmdexRequest fuel' env' endpoint params ttlSeconds' w s3 =
         (Returns (JObj second), s4) /\
       annotated result
         (JObj [("hit", JBool true); ("key", JStr key); ("ttl", JNum remaining)])
         second /\
       remaining = fst (Cache.getTTL (Z.of_N (date_now w (S (clock s3)))) key
                          (responses s3)) /\
       0 <= remaining /\
       log s4 = log s3).
Proof.
  intros key now1 s1 stored_at Hmiss Hrun Hstore.
  assert (s1 = looked_up w key s) as Hs1.
  { unfold s1, looked_up, held. fold now1.
    now destruct (lookup key (Cache.cache (responses s))). }
  rewrite Hs1 in Hrun.
  eexists _, _. split;
    [exact (cached_miss_stored_run w env fuel endpoint params ttlSeconds s result s2
              Hmiss Hrun Hstore)|].
  split; [apply annotate_annotated|].
  intros Hlive.
  pose proof (cached_hit_run w env' fuel' endpoint params ttlSeconds'
    (with_responses (Cache.set stored_at key result ttlSeconds (responses s2)) (tick s2))
    (CacheFacts.new_item stored_at result ttlSeconds)) as Hhit.
  eexists _, _, _. split; [apply Hhit|].
  - apply lookup_after_set.
  - exact Hlive.
  - now apply andb_true_iff in Hstore.
  - split; [apply annotate_annotated|]. split; [reflexivity|].
    split; [|reflexivity].
    apply CacheMore.getTTL_nonneg.
Qed.

Lemma second_search_is_served_from_cache_witness :
  exists s3 s4,
    cachedEmdexRequest 2 sample_env search_endpoint search_params 3600 serving_world
      initial =
      (Returns (JObj [("data", JArr [JObj [("brand_name", JStr "Panadol")]]);
                      ("total", JNum 1);
                      ("_cache", JObj [("hit", JBool false);
                                       ("key", JStr search_key);
                                       ("ttl", JNum 3600)])]), s3) /\
    cachedEmdexRequest 0 no_env search_endpoint search_params 60 serving_world s3 =
      (Returns (JObj [("data", JArr [JObj [("brand_name", JStr "Panadol")]]);
                      ("total", JNum 1);
                      ("_cache", JObj [("hit", JBool true);
                                       ("key", JStr search_key);
                                       ("ttl", JNum 3600)])]), s4) /\
    log s4 = log s3.
Proof.
  pose proof (fun result s2 =>
    second_search_is_served_from_cache serving_world sample_env no_env 2 0
      search_endpoint search_params 3600 60 initial result s2 eq_refl) as Hboth.
  cbv zeta in Hboth.
  match type of Hboth with
  | forall result s2, emdexRequest ?f ?e ?ep ?p false ?w ?s1 = _ -> _ =>
      destruct (emdexRequest f e ep p false w s1) as [out s2] eqn:Hrun in Hboth;
      vm_compute in Hrun; injection Hrun as <- <-
  end.
  destruct (Hboth _ _ eq_refl eq_refl)
    as (first & s3 & Hfirst & (_ & _ & Hfields) & Hsecond).
  rewrite (Hfields _ eq_refl eq_refl) in Hfirst.
  assert (Hs3 : s3 = warm).
  { unfold warm. now rewrite Hfirst. }
  subst s3.
  destruct Hsecond as (second & remaining & s4 & Hrun2 & (_ & _ & Hfields2) & Httl & _ & Hlog).
  - vm_compute. discriminate.
  - rewrite (Hfields2 _ eq_refl eq_refl) in Hrun2.
    vm_compute in Httl. subst remaining.
    exists warm, s4. split; [exact Hfirst|]. split; [exact Hrun2 | exact Hlog].
Defined.

(** Every payload in the cache is truthy and has no truthy [error]. *)
Definition payloads_clean (st : Cache.State) : Prop :=
  forall k item, In (k, item) (Cache.cache st) ->
    truthy (Cache.data item) = true /\
    truthy (field (Cache.data item) "error") = false.

Lemma payloads_clean_subset (st st' : Cache.State) :
  (forall e, In e (Cache.cache st') -> In e (Cache.cache st)) ->
  payloads_clean st -> payloads_clean st'.
Proof. intros Hsub Hst k item Hin. apply (Hst k). now apply Hsub. Qed.

Lemma evict_each_subset victims st e :
  In e (Cache.cache (Cache.evict_each victims st)) -> In e (Cache.cache st).
Proof.
  revert st. induction victims as [|[k i] victims IH]; intros st; [easy|].
  cbn [Cache.evict_each]. intros Hin. apply IH in Hin.
  cbn [Cache.cache Cache.count_eviction Cache.with_cache] in Hin.
  now apply In_remove in Hin.
Qed.

Lemma payloads_clean_get now key st :
  payloads_clean st -> payloads_clean (snd (Cache.get now key st)).
Proof.
  apply payloads_clean_subset. intros e. unfold Cache.get.
  destruct (lookup key (Cache.cache st)) as [item|]; [|easy].
  destruct (Cache.expiresAt item <? now); [|easy].
  cbn [snd Cache.cache Cache.count_miss Cache.with_cache].
  intros Hin. now apply In_remove in Hin.
Qed.

Lemma payloads_clean_set now key value ttlSeconds st :
  truthy value = true -> truthy (field value "error") = false ->
  payloads_clean st -> payloads_clean (Cache.set now key value ttlSeconds st).
Proof.
  intros Hvalue Herror Hst k item Hin. unfold Cache.set in Hin.
  cbn [Cache.cache Cache.count_set Cache.with_cache] in Hin.
  apply In_assign in Hin. destruct Hin as [Hin|E].
  - apply (Hst k). destruct (Cache.MAX_CACHE_SIZE <=? Cache.size st); [|exact Hin].
    now apply evict_each_subset in Hin.
  - injection E as _ ->. now split.
Qed.

(** X12. Errors are never cached. When every payload in the response cache is
    truthy and has no truthy [error] field, as in the empty cache, the same
    holds after [cachedEmdexRequest], however it ends, and after
    [clearResponseCache]. *)
Theorem cache_holds_only_error_free_payloads (w : World) (env : Env) (fuel : nat)
    (endpoint : string) (params : JsObject) (ttlSeconds : Z) (s : State) :
  payloads_clean (responses initial) /\
  (payloads_clean (responses s) ->
   payloads_clean (responses (snd (cachedEmdexRequest fuel env endpoint params
                                     ttlSeconds w s))) /\
   payloads_clean (responses (snd (clearResponseCache w s)))).
Proof.
  split; [intros k item []|]. intros Hs. split; [|intros k item []].
  unfold cachedEmdexRequest. unfold bind at 1. rewrite on_cache_run.
  set (key := Cache.generateKey _ _). set (now1 := Z.of_N _).
  pose proof (payloads_clean_get now1 key _ Hs) as H1.
  destruct (truthy (fst (Cache.get now1 key (responses s)))).
  - unfold bind at 1. rewrite on_cache_run. cbn [snd responses with_responses tick].
    unfold Cache.getTTL. now destruct (lookup key _).
  - unfold bind at 1.
    destruct (emdexRequest fuel env endpoint params false w _) as [[result|e|] s2]
      eqn:Hrun; pose proof (emdexRequest_responses _ _ _ _ _ _ _ _ _ Hrun) as Hresp;
      cbn [responses with_responses tick] in Hresp;
      cbv beta iota;
      [| cbn [snd]; rewrite Hresp; exact H1 | cbn [snd]; rewrite Hresp; exact H1].
    unfold bind at 1.
    destruct (truthy result && negb (truthy (field result "error"))) eqn:Estore.
    + rewrite on_cache_run. cbn [snd responses with_responses tick]. rewrite Hresp.
      apply andb_true_iff in Estore. destruct Estore as [Ht He].
      apply negb_true_iff in He. now apply payloads_clean_set.
    + unfold ret at 1. cbv beta iota. unfold ret. cbn [snd]. now rewrite Hresp.
Qed.

Lemma cache_holds_only_error_free_payloads_witness :
  payloads_clean (responses warm).
Proof.
  apply (proj2 (cache_holds_only_error_free_payloads serving_world sample_env 2
                  search_endpoint search_params 3600 initial)).
  intros k item [].
Defined.

(** X13. After [clearTokenCache] the next [getToken] is never served from
    memory: it sends one login request when the environment is configured, and
    fails without any request when it is not, whatever token was held. The
    response cache and the log are left as they are by the clearing. *)
Theorem clearTokenCache_forces_login (w : World) (env : Env) (s : State) :
  let s0 := snd (clearTokenCache w s) in
  fst (clearTokenCache w s) = Returns tt /\
  cachedToken s0 = JNull /\ tokenExpiresAt s0 = None /\
  responses s0 = responses s /\ log s0 = log s /\
  forall out s', getToken env w s0 = (out, s') ->
    log s' = (log s ++
      (if unconfigured env then []
       else [(login_request env, upstream w (List.length (log s)))]))%list /\
    (unconfigured env = true -> out = Throws not_configured).
Proof.
  cbv zeta. unfold clearTokenCache, write_token. cbn [fst snd].
  repeat (split; [reflexivity|]).
  intros out s'. rewrite getToken_cases. cbv zeta.
  cbn [cachedToken with_token token_is_fresh truthy andb].
  destruct (unconfigured env).
  - intros E. injection E as <- <-. split; [|reflexivity].
    cbn [log tick with_token]. now rewrite app_nil_r.
  - intros E. injection E as _ <-. split; [reflexivity | discriminate].
Qed.

Lemma clearTokenCache_forces_login_witness :
  exists out s',
    getToken sample_env sample_world (snd (clearTokenCache sample_world logged_in))
    = (out, s') /\
    log s' = (log logged_in ++
              [(login_request sample_env,
                upstream sample_world (List.length (log logged_in)))])%list /\
    fst (getToken no_env sample_world (snd (clearTokenCache sample_world logged_in)))
    = Throws not_configured.
Proof.
  destruct (clearTokenCache_forces_login sample_world sample_env logged_in)
    as (_ & _ & _ & _ & _ & Hlogin).
  destruct (clearTokenCache_forces_login sample_world no_env logged_in)
    as (_ & _ & _ & _ & _ & Hnone).
  eexists _, _. split; [reflexivity|].
  split; [exact (proj1 (Hlogin _ _ eq_refl))|].
  destruct (getToken no_env sample_world (snd (clearTokenCache sample_world logged_in)))
    as [out s'] eqn:Hrun.
  exact (proj2 (Hnone _ _ eq_refl) eq_refl).
Defined.

End ServiceMore.

(** * The authentication test endpoint *)

Module EndpointFacts.
Import Emdex TokenFacts RequestFacts ServiceMore AuthTest.

(** X14. The authentication test handler always answers, with 405, 200 or
    500. A method other than GET gets 405 with the body
    [{success: false, error: 'Method not allowed'}] and the service is not
    touched. A GET calls [getToken] once and is left in the state it leaves, so
    at most one request is sent: when [getToken] returns, the answer is 200
    with [{success: true, message: 'EMDEX authentication successful'}]; when
    it throws, the error is an [EmdexError] whose code is [AUTH_FAILED] or
    [NETWORK_ERROR], and the answer is 500 with
    [{success: false, error, code}], the message and the code of that error:
    the [UNKNOWN_ERROR] of the handler is never reported. *)
Theorem auth_test_handler_answers (w : World) (env : Env) (method : string)
    (s : State) :
  (method <> "GET" ->
   handler env method w s
   = (Returns {| statusCode := 405;
                 payload := JObj [("success", JBool false);
                                  ("error", JStr "Method not allowed")] |}, s)) /\
  (method = "GET" ->
   (List.length (log (snd (getToken env w s))) <= S (List.length (log s)))%nat /\
   (forall token s',
      getToken env w s = (Returns token, s') ->
      handler env method w s
      = (Returns {| statusCode := 200;
                    payload := JObj [("success", JBool true);
                                     ("message",
                                      JStr "EMDEX authentication successful")] |},
         s')) /\
   (forall e s',
      getToken env w s = (Throws e, s') ->
      exists message code original,
        e = EmdexError message code original /\
        (code = AUTH_FAILED /\
         handler env method w s
         = (Returns {| statusCode := 500;
                       payload := JObj [("success", JBool false);
                                        ("error", JStr message);
                                        ("code", JStr "AUTH_FAILED")] |}, s') \/
         code = NETWORK_ERROR /\
         handler env method w s
         = (Returns {| statusCode := 500;
                       payload := JObj [("success", JBool false);
                                        ("error", JStr message);
                                        ("code", JStr "NETWORK_ERROR")] |}, s'))) /\
   exists response s',
     handler env method w s = (Returns response, s') /\
     s' = snd (getToken env w s) /\
     (statusCode response = 200 \/ statusCode response = 500)).
Proof.
  split.
  - intros Hne. unfold handler.
    now destruct (String.eqb_spec method "GET") as [E|_]; [contradiction|].
  - intros ->. unfold handler. cbn [String.eqb Ascii.eqb Bool.eqb negb].
    unfold try_catch, bind.
    split; [apply getToken_log_bound|].
    pose proof (getToken_frame w env s) as Hframe.
    destruct (getToken env w s) as [[token|e|] s1] eqn:Hrun.
    + split; [intros ? ? E; now injection E as <- <-|].
      split; [discriminate|]. eexists _, _. split; [reflexivity|].
      split; [reflexivity | now left].
    + destruct (getToken_throws_EmdexError w env s e s1 Hrun)
        as (message & code & original & ->).
      split; [discriminate|]. split.
      * intros ? ? E. injection E as <- <-. exists message, code, original.
        split; [reflexivity|].
        destruct (getToken_failure_codes w env s _ s1 Hrun) as [E|E];
          injection E as ->; [left | right]; now split.
      * eexists _, _. split; [reflexivity|]. split; [reflexivity | now right].
    + exfalso. now destruct (Hframe _ _ eq_refl) as [H _].
Qed.

Lemma auth_test_handler_answers_witness :
  (exists s',
     handler sample_env "GET" offline_world initial
     = (Returns {| statusCode := 500;
                   payload :=
                     JObj [("success", JBool false);
                           ("error",
                            JStr "Network error during EMDEX authentication: connect ECONNREFUSED");
                           ("code", JStr "NETWORK_ERROR")] |}, s') /\
     List.length (log s') = 1%nat) /\
  handler sample_env "PUT" offline_world initial
  = (Returns {| statusCode := 405;
                payload := JObj [("success", JBool false);
                                 ("error", JStr "Method not allowed")] |}, initial).
Proof.
  split.
  - destruct (proj2 (auth_test_handler_answers offline_world sample_env "GET" initial)
                eq_refl) as (_ & _ & Hfails & _).
    destruct (Hfails _ _ eq_refl) as (message & code & original & E & [[Hcode _] | [_ Hrun]]).
    + injection E as _ <- _. discriminate Hcode.
    + injection E as <- _ _. eexists. split; [exact Hrun | reflexivity].
  - apply (proj1 (auth_test_handler_answers offline_world sample_env "PUT" initial)).
    discriminate.
Defined.

End EndpointFacts.

(** * The drug transformer *)

Module TransformerFacts.
Import Transformer.

(** ** Strings *)

Lemma prefix_app (p x : string) : String.prefix p (p ++ x) = true.
Proof.
  induction p as [|c p IH]; [now destruct x|].
  cbn. destruct (ascii_dec c c); [exact IH | contradiction].
Qed.

Lemma prefix_split (p s : string) :
  String.prefix p s = true -> exists rest, s = p ++ rest.
Proof.
  revert s. induction p as [|c p IH]; intros s H; [now exists s|].
  destruct s as [|c' s]; [discriminate|]. cbn in H.
  destruct (ascii_dec c c') as [->|]; [|discriminate].
  destruct (IH s H) as [rest ->]. now exists rest.
Qed.

Lemma substring_all (s : string) : substring 0 (String.length s) s = s.
Proof. induction s as [|c s IH]; [reflexivity|]. cbn. now rewrite IH. Qed.

Lemma substring_skip (p x : string) :
  substring (String.length p) (String.length (p ++ x) - String.length p) (p ++ x) = x.
Proof.
  induction p as [|c p IH]; [|exact IH].
  cbn [String.length append]. rewrite Nat.sub_0_r. apply substring_all.
Qed.

Lemma replace_first_unfold (pattern replacement s : string) :
  replace_first pattern replacement s =
  if String.prefix pattern s
  then replacement ++ substring (String.length pattern)
                                (String.length s - String.length pattern) s
  else
    match s with
    | EmptyString => EmptyString
    | String c rest => String c (replace_first pattern replacement rest)
    end.
Proof. now destruct s. Qed.

Lemma replace_first_prefix (p r x : string) : replace_first p r (p ++ x) = r ++ x.
Proof. now rewrite replace_first_unfold, prefix_app, substring_skip. Qed.

(** What [parseAppDrugId] answers for the two kinds of identifier. *)
Definition parsed_id (type emdexId : string) : JsVal :=
  JObj [("type", JStr type); ("emdexId", JStr emdexId)].

Lemma parseAppDrugId_brand (x : string) :
  parseAppDrugId (JStr ("emdex_brand_" ++ x)) = parsed_id "brand" x.
Proof.
  unfold parseAppDrugId.
  replace (truthy (JStr ("emdex_brand_" ++ x))) with true by reflexivity.
  cbn [negb]. now rewrite prefix_app, replace_first_prefix.
Qed.

Lemma parseAppDrugId_generic (x : string) :
  parseAppDrugId (JStr ("emdex_generic_" ++ x)) = parsed_id "generic" x.
Proof.
  unfold parseAppDrugId.
  replace (truthy (JStr ("emdex_generic_" ++ x))) with true by reflexivity.
  replace (String.prefix "emdex_brand_" ("emdex_generic_" ++ x)) with false
    by reflexivity.
  cbn [negb]. now rewrite prefix_app, replace_first_prefix.
Qed.

(** X15. [parseAppDrugId] undoes the prefixing of the transformer: whatever
    follows [emdex_brand_] or [emdex_generic_] comes back as [emdexId], also
    when it is empty or holds the prefix again, with the matching [type]. *)
Theorem parseAppDrugId_inverts_prefix (x : string) :
  parseAppDrugId (JStr ("emdex_brand_" ++ x)) = parsed_id "brand" x /\
  parseAppDrugId (JStr ("emdex_generic_" ++ x)) = parsed_id "generic" x.
Proof. split; [apply parseAppDrugId_brand | apply parseAppDrugId_generic]. Qed.

(** X16. [parseAppDrugId] answers [null] for everything but a string that
    starts with one of the two prefixes: a result other than [null] means the
    argument was such a string, and the result holds the rest of it. *)
Theorem parseAppDrugId_accepts_only_prefixed (appId : JsVal) :
  parseAppDrugId appId <> JNull ->
  exists x,
    (appId = JStr ("emdex_brand_" ++ x) /\ parseAppDrugId appId = parsed_id "brand" x) \/
    (appId = JStr ("emdex_generic_" ++ x) /\
     parseAppDrugId appId = parsed_id "generic" x).
Proof.
  intros H. destruct appId as [| |b|n|id|elems|props]; try now contradiction H.
  destruct (String.prefix "emdex_brand_" id) eqn:Ebrand.
  - destruct (prefix_split _ _ Ebrand) as [x ->]. exists x. left.
    split; [reflexivity | apply parseAppDrugId_brand].
  - destruct (String.prefix "emdex_generic_" id) eqn:Egeneric.
    + destruct (prefix_split _ _ Egeneric) as [x ->]. exists x. right.
      split; [reflexivity | apply parseAppDrugId_generic].
    + exfalso. apply H. unfold parseAppDrugId. rewrite Ebrand, Egeneric.
      now destruct (negb (truthy (JStr id))).
Qed.

Lemma parseAppDrugId_accepts_only_prefixed_witness :
  exists x,
    (JStr "emdex_generic_67890" = JStr ("emdex_brand_" ++ x) /\
     parseAppDrugId (JStr "emdex_generic_67890") = parsed_id "brand" x) \/
    (JStr "emdex_generic_67890" = JStr ("emdex_generic_" ++ x) /\
     parseAppDrugId (JStr "emdex_generic_67890") = parsed_id "generic" x).
Proof.
  apply (parseAppDrugId_accepts_only_prefixed (JStr "emdex_generic_67890")).
  vm_compute. discriminate.
Defined.

(** ** The results of a search *)

(** What the two transformers have in common: a falsy element gives [null]
    and draws nothing; a truthy one gives an object that keeps the element as
    [raw_data] and draws a random identifier when the element has none. *)
Section Each.
Context (transform : (nat -> string) -> nat -> JsVal -> JsVal * nat).
Context (kind prefix other_id : string).

Definition lacks_id (e : JsVal) : bool :=
  truthy e && negb (truthy (js_or (field e "id") (field e other_id))).

Definition transformed (e drug : JsVal) : Prop :=
  truthy drug = true /\ nullish drug = false /\
  field drug "raw_data" = e /\
  field drug "type" = JStr kind /\
  field drug "source" = JStr "emdex" /\
  field drug "is_verified" = JBool true /\
  exists x, field drug "id" = JStr (prefix ++ x).

Hypothesis transform_falsy : forall ids n e,
  truthy e = false -> transform ids n e = (JNull, n).
Hypothesis transform_truthy : forall ids n e,
  truthy e = true ->
  transformed e (fst (transform ids n e)) /\
  fst (transform ids n e) <> JNull /\
  snd (transform ids n e) = if lacks_id e then S n else n.

Lemma transform_each_spec ids n elems :
  Forall2 transformed (filter truthy elems) (fst (transform_each transform ids n elems)) /\
  snd (transform_each transform ids n elems)
  = (n + List.length (filter lacks_id elems))%nat.
Proof.
  revert n. induction elems as [|e rest IH]; intros n.
  - cbn. split; [constructor | lia].
  - cbn [transform_each filter fst snd]. destruct (truthy e) eqn:Etruthy.
    + destruct (transform_truthy ids n e Etruthy) as (Hdrug & Hnull & Hnext).
      destruct (IH (snd (transform ids n e))) as [IHdrugs IHnext].
      split.
      * destruct (fst (transform ids n e)) eqn:Edrug;
          try (constructor; assumption). now contradiction Hnull.
      * rewrite IHnext, Hnext. destruct (lacks_id e); cbn [List.length]; lia.
    + rewrite (transform_falsy ids n e Etruthy). cbn [fst snd].
      assert (lacks_id e = false) as -> by (unfold lacks_id; now rewrite Etruthy).
      apply IH.
Qed.

End Each.

Lemma transformEmdexBrand_falsy ids n e :
  truthy e = false -> transformEmdexBrand ids n e = (JNull, n).
Proof. intros H. unfold transformEmdexBrand. now rewrite H. Qed.

Lemma transformEmdexGeneric_falsy ids n e :
  truthy e = false -> transformEmdexGeneric ids n e = (JNull, n).
Proof. intros H. unfold transformEmdexGeneric. now rewrite H. Qed.

Lemma id_suffix_next ids n a b :
  snd (id_suffix ids n a b) = if negb (truthy (js_or a b)) then S n else n.
Proof. unfold id_suffix. now destruct (truthy (js_or a b)). Qed.

Lemma transformEmdexBrand_truthy ids n e :
  truthy e = true ->
  transformed "brand" "emdex_brand_" e (fst (transformEmdexBrand ids n e)) /\
  fst (transformEmdexBrand ids n e) <> JNull /\
  snd (transformEmdexBrand ids n e) = if lacks_id "brand_id" e then S n else n.
Proof.
  intros H. unfold transformEmdexBrand, lacks_id. rewrite H. cbn [negb andb fst snd].
  split; [|split; [discriminate | apply id_suffix_next]].
  repeat (split; [reflexivity|]). now eexists.
Qed.

Lemma transformEmdexGeneric_truthy ids n e :
  truthy e = true ->
  transformed "generic" "emdex_generic_" e (fst (transformEmdexGeneric ids n e)) /\
  fst (transformEmdexGeneric ids n e) <> JNull /\
  snd (transformEmdexGeneric ids n e) = if lacks_id "generic_id" e then S n else n.
Proof.
  intros H. unfold transformEmdexGeneric, lacks_id. rewrite H. cbn [negb andb fst snd].
  split; [|split; [discriminate | apply id_suffix_next]].
  repeat (split; [reflexivity|]). now eexists.
Qed.

(** X17. Given an array, [transformBrandResults] and
    [transformGenericResults] return one drug for each truthy element, in the
    order of the array, and drop the falsy elements. Each drug is an object
    that keeps its element as [raw_data], has the type of the function, the
    source [emdex], [is_verified] true and an [id] with the prefix of the
    type. A random identifier is drawn once for each truthy element that has
    neither [id] nor [brand_id] (or [generic_id]), and for no other. *)
Theorem results_mirror_truthy_elements (ids : nat -> string) (n : nat)
    (elems : list JsVal) :
  (exists drugs,
     transformBrandResults ids n (JArr elems)
     = (Ok drugs, (n + List.length (filter (lacks_id "brand_id") elems))%nat) /\
     Forall2 (transformed "brand" "emdex_brand_") (filter truthy elems) drugs) /\
  (exists drugs,
     transformGenericResults ids n (JArr elems)
     = (Ok drugs, (n + List.length (filter (lacks_id "generic_id") elems))%nat) /\
     Forall2 (transformed "generic" "emdex_generic_") (filter truthy elems) drugs).
Proof.
  split.
  - destruct (transform_each_spec transformEmdexBrand "brand" "emdex_brand_" "brand_id"
                transformEmdexBrand_falsy transformEmdexBrand_truthy ids n elems)
      as [Hdrugs Hnext].
    eexists. split; [|exact Hdrugs].
    unfold transformBrandResults, transform_results, unwrap_results.
    now rewrite Hnext.
  - destruct (transform_each_spec transformEmdexGeneric "generic" "emdex_generic_"
                "generic_id" transformEmdexGeneric_falsy transformEmdexGeneric_truthy
                ids n elems) as [Hdrugs Hnext].
    eexists. split; [|exact Hdrugs].
    unfold transformGenericResults, transform_results, unwrap_results.
    now rewrite Hnext.
Qed.


(** X18. The identifier a search result carries is accepted by
    [parseAppDrugId], which gives back the type of the result and the
    identifier the prefix was put in front of: the upstream [id], else
    [brand_id] (or [generic_id]), as a string, else the random identifier
    drawn. *)
Theorem search_ids_parse_back (ids : nat -> string) (n : nat) (e : JsVal) :
  truthy e = true ->
  let upstream_id other := js_or (field e "id") (field e other) in
  let suffix other :=
    if truthy (upstream_id other) then js_String (upstream_id other) else ids n in
  parseAppDrugId (field (fst (transformEmdexBrand ids n e)) "id")
  = parsed_id "brand" (suffix "brand_id") /\
  parseAppDrugId (field (fst (transformEmdexGeneric ids n e)) "id")
  = parsed_id "generic" (suffix "generic_id").
Proof.
  intros H. cbv zeta. unfold transformEmdexBrand, transformEmdexGeneric, id_suffix.
  rewrite H. clear H. cbn [negb fst].
  change (field (JObj ?props) "id") with (prop props "id").
  split.
  - change (prop _ "id") with
      (JStr ("emdex_brand_" ++
             fst (if truthy (js_or (field e "id") (field e "brand_id"))
                  then (js_String (js_or (field e "id") (field e "brand_id")), n)
                  else generateTempId ids n))).
    rewrite parseAppDrugId_brand.
    now destruct (truthy (js_or (field e "id") (field e "brand_id"))).
  - change (prop _ "id") with
      (JStr ("emdex_generic_" ++
             fst (if truthy (js_or (field e "id") (field e "generic_id"))
                  then (js_String (js_or (field e "id") (field e "generic_id")), n)
                  else generateTempId ids n))).
    rewrite parseAppDrugId_generic.
    now destruct (truthy (js_or (field e "id") (field e "generic_id"))).
Qed.

Lemma search_ids_parse_back_witness :
  parseAppDrugId
    (field (fst (transformEmdexBrand (fun _ => "k3x9") 0
                   (JObj [("brand_id", JNum 12345); ("name", JStr "Panadol")]))) "id")
  = parsed_id "brand" "12345".
Proof.
  exact (proj1 (search_ids_parse_back (fun _ => "k3x9") 0
                  (JObj [("brand_id", JNum 12345); ("name", JStr "Panadol")])
                  eq_refl)).
Defined.

(** ** The envelope of the results *)

(** The array [elems] is the first truthy of the properties [data],
    [results] and [wrapper] of the object. *)
Definition enveloped (wrapper : string) (props : JsObject) (elems : list JsVal) : Prop :=
  prop props "data" = JArr elems \/
  truthy (prop props "data") = false /\
  (prop props "results" = JArr elems \/
   truthy (prop props "results") = false /\ prop props wrapper = JArr elems).

Lemma unwrap_enveloped wrapper props elems :
  enveloped wrapper props elems ->
  unwrap_results wrapper (JObj props) = Some (JArr elems).
Proof.
  intros H. unfold unwrap_results. cbn [truthy andb field].
  destruct H as [-> | [Hdata [-> | [Hresults ->]]]]; [reflexivity | |].
  - now rewrite Hdata.
  - now rewrite Hdata, Hresults.
Qed.

(** What [transformBrandResults] makes of an object that holds the array: what
    it makes of the array, one drug for each truthy element. *)
Lemma wrapped_array_run ids n props elems :
  enveloped "brands" props elems ->
  exists drugs,
    transformBrandResults ids n (JObj props)
    = (Ok drugs, (n + List.length (filter (lacks_id "brand_id") elems))%nat) /\
    transformBrandResults ids n (JArr elems)
    = (Ok drugs, (n + List.length (filter (lacks_id "brand_id") elems))%nat) /\
    Forall2 (transformed "brand" "emdex_brand_") (filter truthy elems) drugs.
Proof.
  intros H%unwrap_enveloped.
  destruct (transform_each_spec transformEmdexBrand "brand" "emdex_brand_" "brand_id"
              transformEmdexBrand_falsy transformEmdexBrand_truthy ids n elems)
    as [Hdrugs Hnext].
  eexists. split; [|split; [|exact Hdrugs]];
    unfold transformBrandResults, transform_results; [rewrite H|];
    cbn [unwrap_results]; now rewrite Hnext.
Qed.

(** X19. Results wrapped in an object are the results of the array inside:
    the array under [data], else under [results] when [data] is falsy, else
    under [brands] (for brands) or [generics] (for generics) when both are
    falsy. An empty array counts: it is the one taken, and what comes after
    it is not looked at. *)
Theorem wrapped_results_are_unwrapped (ids : nat -> string) (n : nat)
    (props : JsObject) (elems : list JsVal) :
  (enveloped "brands" props elems ->
   transformBrandResults ids n (JObj props) = transformBrandResults ids n (JArr elems)) /\
  (enveloped "generics" props elems ->
   transformGenericResults ids n (JObj props)
   = transformGenericResults ids n (JArr elems)).
Proof.
  split; intros H%unwrap_enveloped.
  - unfold transformBrandResults, transform_results. now rewrite H.
  - unfold transformGenericResults, transform_results. now rewrite H.
Qed.

Lemma wrapped_results_are_unwrapped_witness :
  transformBrandResults (fun _ => "k3x9") 0
    (JObj [("data", JArr []); ("brands", JArr [JObj [("id", JNum 7)]])])
  = transformBrandResults (fun _ => "k3x9") 0 (JArr []) /\
  transformGenericResults (fun _ => "k3x9") 0
    (JObj [("results", JNull); ("generics", JArr [JObj [("id", JNum 7)]])])
  = transformGenericResults (fun _ => "k3x9") 0 (JArr [JObj [("id", JNum 7)]]).
Proof.
  split.
  - exact (proj1 (wrapped_results_are_unwrapped (fun _ => "k3x9") 0
                    [("data", JArr []); ("brands", JArr [JObj [("id", JNum 7)]])] [])
                 (or_introl eq_refl)).
  - exact (proj2 (wrapped_results_are_unwrapped (fun _ => "k3x9") 0
                    [("results", JNull); ("generics", JArr [JObj [("id", JNum 7)]])]
                    [JObj [("id", JNum 7)]])
                 (or_intror (conj eq_refl (or_intror (conj eq_refl eq_refl))))).
Defined.

(** X20. A truthy [data] that is not an array makes both functions throw a
    [TypeError] (there is no [map] to call), also when [results] or [brands]
    holds an array; no random identifier is drawn. *)
Theorem results_throw_on_non_array_data (ids : nat -> string) (n : nat)
    (emdexResults : JsVal) :
  truthy (field emdexResults "data") = true ->
  (forall elems, field emdexResults "data" <> JArr elems) ->
  exists message,
    transformBrandResults ids n emdexResults = (TypeError message, n) /\
    transformGenericResults ids n emdexResults = (TypeError message, n).
Proof.
  intros Htruthy Hshape.
  destruct emdexResults as [| |b|k|s|elems|props]; try discriminate.
  cbn [field] in Htruthy, Hshape.
  unfold transformBrandResults, transformGenericResults, transform_results,
    unwrap_results.
  cbn [truthy andb field]. rewrite Htruthy.
  destruct (prop props "data") as [| |b|k|s|elems|inner]; try discriminate;
    try (eexists; split; reflexivity).
  now contradiction (Hshape elems).
Qed.

Lemma results_throw_on_non_array_data_witness :
  exists message,
    transformBrandResults (fun _ => "k3x9") 0
      (JObj [("data", JObj [("total", JNum 1)]);
             ("brands", JArr [JObj [("id", JNum 7)]])])
    = (TypeError message, 0%nat) /\
    transformGenericResults (fun _ => "k3x9") 0
      (JObj [("data", JObj [("total", JNum 1)]);
             ("brands", JArr [JObj [("id", JNum 7)]])])
    = (TypeError message, 0%nat).
Proof.
  apply (results_throw_on_non_array_data (fun _ => "k3x9") 0
           (JObj [("data", JObj [("total", JNum 1)]);
                  ("brands", JArr [JObj [("id", JNum 7)]])])).
  - reflexivity.
  - intros elems. discriminate.
Defined.


(** ** [removeDuplicates] *)

(** [kept] is [drugs] with some elements left out. *)
Inductive subsequence {A : Type} : list A -> list A -> Prop :=
| subsequence_nil : subsequence [] []
| subsequence_skip x kept l : subsequence kept l -> subsequence kept (x :: l)
| subsequence_keep x kept l : subsequence kept l -> subsequence (x :: kept) (x :: l).

(** Two drugs with the same key. *)
Definition same_key (a b : JsVal) : bool := same_value (drug_key a) (drug_key b).

(** No two elements of the list have the same key. *)
Fixpoint distinct_keys (drugs : list JsVal) : Prop :=
  match drugs with
  | [] => True
  | d :: rest => (forall d', In d' rest -> same_key d d' = false) /\ distinct_keys rest
  end.

Lemma same_value_sym a b : same_value a b = same_value b a.
Proof.
  destruct a, b; try reflexivity; cbn.
  - now destruct b, b0.
  - apply Z.eqb_sym.
  - apply String.eqb_sym.
Qed.

Lemma subsequence_In {A} (kept l : list A) x : subsequence kept l -> In x kept -> In x l.
Proof.
  induction 1 as [|y kept l _ IH|y kept l _ IH]; [easy | |].
  - intros H. right. now apply IH.
  - intros [->|H]; [now left | right; now apply IH].
Qed.

Lemma keep_unseen_spec (drugs seen : list JsVal) :
  Forall (fun d => nullish d = false) drugs ->
  exists kept,
    keep_unseen seen drugs = Ok kept /\
    subsequence kept drugs /\
    (forall d, In d kept -> set_has seen (drug_key d) = false) /\
    distinct_keys kept /\
    (forall d, In d drugs ->
       set_has seen (drug_key d) = true \/
       exists d', In d' kept /\ (d' = d \/ same_key d' d = true)).
Proof.
  revert seen. induction drugs as [|drug rest IH]; intros seen Hdrugs.
  - exists []. repeat split; [constructor | easy | easy].
  - inversion Hdrugs as [|? ? Hdrug Hrest]; subst.
    cbn [keep_unseen]. rewrite Hdrug.
    destruct (set_has seen (drug_key drug)) eqn:Eseen.
    + destruct (IH seen Hrest) as (kept & -> & Hsub & Hnew & Hdistinct & Hcover).
      exists kept. split; [reflexivity|]. split; [now constructor|].
      split; [exact Hnew|]. split; [exact Hdistinct|].
      intros d [<-|Hin]; [now left | now apply Hcover].
    + destruct (IH (drug_key drug :: seen) Hrest)
        as (kept & -> & Hsub & Hnew & Hdistinct & Hcover).
      exists (drug :: kept). split; [reflexivity|]. split; [now constructor|].
      split; [|split].
      * intros d [<-|Hin]; [exact Eseen|].
        specialize (Hnew d Hin). cbn [set_has existsb] in Hnew.
        now apply orb_false_iff in Hnew.
      * split; [|exact Hdistinct]. intros d' Hin.
        specialize (Hnew d' Hin). cbn [set_has existsb] in Hnew.
        apply orb_false_iff in Hnew. unfold same_key.
        rewrite same_value_sym. apply Hnew.
      * intros d [<-|Hin]; [right; exists drug; split; [now left | now left]|].
        destruct (Hcover d Hin) as [Hseen | (d' & Hd' & Hsame)].
        -- cbn [set_has existsb] in Hseen. apply orb_true_iff in Hseen.
           destruct Hseen as [Hsame | Hseen]; [|now left].
           right. exists drug. split; [now left|]. right.
           unfold same_key. now rewrite same_value_sym.
        -- right. exists d'. split; [now right | exact Hsame].
Qed.

Lemma keep_unseen_fixed (kept seen : list JsVal) :
  Forall (fun d => nullish d = false) kept ->
  (forall d, In d kept -> set_has seen (drug_key d) = false) ->
  distinct_keys kept ->
  keep_unseen seen kept = Ok kept.
Proof.
  revert seen. induction kept as [|drug rest IH]; intros seen Hkept Hnew Hdistinct;
    [reflexivity|].
  inversion Hkept as [|? ? Hdrug Hrest]; subst. destruct Hdistinct as [Hfirst Hdistinct].
  cbn [keep_unseen]. rewrite Hdrug, (Hnew drug (or_introl eq_refl)).
  rewrite IH; [reflexivity | exact Hrest | | exact Hdistinct].
  intros d Hin. cbn [set_has existsb]. apply orb_false_iff. split.
  - specialize (Hfirst d Hin). unfold same_key in Hfirst.
    now rewrite same_value_sym.
  - apply Hnew. now right.
Qed.

Lemma keep_unseen_throws (drugs seen : list JsVal) :
  (exists message, keep_unseen seen drugs = TypeError message) <->
  Exists (fun d => nullish d = true) drugs.
Proof.
  revert seen. induction drugs as [|drug rest IH]; intros seen.
  - split; [intros [message H]; discriminate | intros H; inversion H].
  - cbn [keep_unseen]. destruct (nullish drug) eqn:Edrug.
    + split; [intros _; now left | intros _; now eexists].
    + assert (Exists (fun d => nullish d = true) (drug :: rest)
              <-> Exists (fun d => nullish d = true) rest) as ->.
      { split; [|now right]. intros H. inversion H; [congruence | assumption]. }
      destruct (set_has seen (drug_key drug)); [apply IH|].
      rewrite <- (IH (drug_key drug :: seen)).
      destruct (keep_unseen (drug_key drug :: seen) rest) as [kept|message].
      * split; intros [message H]; discriminate.
      * split; intros _; now eexists.
Qed.

(** X21. [removeDuplicates] throws a [TypeError] exactly when the array holds
    [null] or [undefined] somewhere: every element is looked at, also after a
    duplicate. *)
Theorem removeDuplicates_throws_on_null_element (drugs : list JsVal) :
  (exists message, removeDuplicates drugs = TypeError message) <->
  Exists (fun d => nullish d = true) drugs.
Proof. apply keep_unseen_throws. Qed.

(** A value a [Set] compares by what it is, not by which object it is. *)
Definition primitive (v : JsVal) : bool :=
  match v with
  | JArr _ | JObj _ => false
  | _ => true
  end.

(** X22. On an array without [null] and [undefined], of drugs whose keys
    ([nafdac_number], else [id]) are primitive values, [removeDuplicates]
    returns the array with some elements left out, in the same order; no two
    drugs it keeps have the same key; every drug of the array is kept or has
    the key of a drug that is kept; and the result is a fixed point: removing
    duplicates again changes nothing. *)
Theorem removeDuplicates_keeps_one_of_each_key (drugs : list JsVal) :
  Forall (fun d => nullish d = false /\ primitive (drug_key d) = true) drugs ->
  exists kept,
    removeDuplicates drugs = Ok kept /\
    subsequence kept drugs /\
    distinct_keys kept /\
    (forall d, In d drugs ->
       exists d', In d' kept /\ (d' = d \/ same_key d' d = true)) /\
    removeDuplicates kept = Ok kept.
Proof.
  intros Hdrugs. unfold removeDuplicates.
  assert (Forall (fun d => nullish d = false) drugs) as Hdefined.
  { revert Hdrugs. apply Forall_impl. now intros d [H _]. }
  destruct (keep_unseen_spec drugs [] Hdefined)
    as (kept & Hkept & Hsub & Hnew & Hdistinct & Hcover).
  exists kept. split; [exact Hkept|]. split; [exact Hsub|]. split; [exact Hdistinct|].
  split.
  - intros d Hin. destruct (Hcover d Hin) as [Hseen|H]; [discriminate | exact H].
  - apply keep_unseen_fixed; [|easy|exact Hdistinct].
    apply Forall_forall. intros d Hin.
    apply (proj1 (Forall_forall _ drugs) Hdefined). now apply (subsequence_In kept).
Qed.

Definition panadol : JsVal :=
  JObj [("id", JStr "emdex_brand_1"); ("nafdac_number", JStr "04-0321")].

Definition panadol_generic : JsVal :=
  JObj [("id", JStr "emdex_generic_9"); ("nafdac_number", JStr "04-0321")].

Definition unregistered : JsVal :=
  JObj [("id", JStr "emdex_brand_2"); ("nafdac_number", JNull)].

Lemma removeDuplicates_keeps_one_of_each_key_witness :
  removeDuplicates [panadol; unregistered; panadol_generic] = Ok [panadol; unregistered] /\
  exists kept,
    removeDuplicates [panadol; unregistered; panadol_generic] = Ok kept /\
    subsequence kept [panadol; unregistered; panadol_generic] /\
    distinct_keys kept /\
    (forall d, In d [panadol; unregistered; panadol_generic] ->
       exists d', In d' kept /\ (d' = d \/ same_key d' d = true)) /\
    removeDuplicates kept = Ok kept.
Proof.
  split; [reflexivity|].
  apply (removeDuplicates_keeps_one_of_each_key [panadol; unregistered; panadol_generic]).
  repeat (constructor; [split; reflexivity|]). constructor.
Defined.


Lemma removeDuplicates_throws_on_null_element_witness :
  exists message, removeDuplicates [panadol; JNull; panadol_generic] = TypeError message.
Proof.
  apply (proj2 (removeDuplicates_throws_on_null_element
                  [panadol; JNull; panadol_generic])).
  right. left. reflexivity.
Defined.

(** ** [parseToArray] *)

Fixpoint all_chars (P : ascii -> bool) (s : string) : bool :=
  match s with
  | EmptyString => true
  | String c rest => P c && all_chars P rest
  end.

(** No comma, semicolon or line feed. *)
Definition undelimited (s : string) : bool :=
  all_chars (fun c => negb (is_delimiter c)) s.

(** Characters of ASCII only: the white space [trim] strips is then the white
    space of the model. *)
Definition ascii_only (s : string) : bool :=
  all_chars (fun c => (nat_of_ascii c <? 128)%nat) s.

Lemma append_assoc (a b c : string) : ((a ++ b) ++ c = a ++ b ++ c)%string.
Proof. induction a as [|x a IH]; [reflexivity|]. cbn. now rewrite IH. Qed.

Lemma all_chars_app P a b : all_chars P (a ++ b) = all_chars P a && all_chars P b.
Proof. induction a as [|c a IH]; [reflexivity|]. cbn. now rewrite IH, andb_assoc. Qed.

Lemma all_chars_trimStart P s : all_chars P s = true -> all_chars P (trimStart s) = true.
Proof.
  induction s as [|c s IH]; [easy|]. cbn [trimStart].
  destruct (is_space c); [|easy]. cbn. intros H%andb_true_iff. now apply IH.
Qed.

Lemma all_chars_trimEnd P s : all_chars P s = true -> all_chars P (trimEnd s) = true.
Proof.
  induction s as [|c s IH]; [easy|]. cbn [trimEnd all_chars].
  intros [Hc Hs]%andb_true_iff. specialize (IH Hs).
  destruct (trimEnd s) as [|c' kept].
  - destruct (is_space c); [reflexivity|]. cbn. now rewrite Hc.
  - change (all_chars P (String c (String c' kept)))
      with (P c && all_chars P (String c' kept)).
    now rewrite Hc, IH.
Qed.

Lemma all_chars_trim P s : all_chars P s = true -> all_chars P (trim s) = true.
Proof. intros H. now apply all_chars_trimEnd, all_chars_trimStart. Qed.

Lemma trimEnd_idempotent s : trimEnd (trimEnd s) = trimEnd s.
Proof.
  induction s as [|c s IH]; [reflexivity|]. cbn [trimEnd].
  destruct (trimEnd s) as [|c' kept] eqn:E.
  - destruct (is_space c) eqn:Ec; [reflexivity|]. cbn. now rewrite Ec.
  - cbn [trimEnd]. cbn [trimEnd] in IH. now rewrite IH.
Qed.

(** What [trimEnd] keeps starts like the string. *)
Lemma trimStart_trimEnd s : trimStart (trimEnd (trimStart s)) = trimEnd (trimStart s).
Proof.
  induction s as [|c s IH]; [reflexivity|]. cbn [trimStart].
  destruct (is_space c) eqn:Ec; [exact IH|].
  cbn [trimEnd]. destruct (trimEnd s) as [|c' kept]; rewrite ?Ec; cbn; now rewrite Ec.
Qed.

Lemma trim_idempotent s : trim (trim s) = trim s.
Proof. unfold trim. now rewrite trimStart_trimEnd, trimEnd_idempotent. Qed.

Lemma split_delimiters_undelimited in_run s :
  Forall (fun piece => undelimited piece = true) (split_delimiters in_run s).
Proof.
  revert in_run. induction s as [|c s IH]; intros in_run; [now repeat constructor|].
  cbn [split_delimiters]. destruct (is_delimiter c) eqn:Ec.
  - destruct in_run; [apply IH | constructor; [reflexivity | apply IH]].
  - specialize (IH false). destruct (split_delimiters false s) as [|piece pieces].
    + constructor; [|constructor]. unfold undelimited. cbn. now rewrite Ec.
    + inversion IH; subst. constructor; [|assumption].
      unfold undelimited in *. cbn. now rewrite Ec.
Qed.

(** X23. Every item [parseToArray] reads in a string is a string that is not
    empty, has no white space at either end and holds no comma, semicolon or
    line feed. *)
Theorem parseToArray_items_are_clean (s : string) :
  Forall (fun item => exists text,
            item = JStr text /\ text <> "" /\ trim text = text /\
            undelimited text = true)
         (parseToArray (JStr s)).
Proof.
  unfold parseToArray. destruct (negb (truthy (JStr s))); [constructor|].
  apply Forall_forall. intros item Hin.
  apply in_map_iff in Hin. destruct Hin as (text & <- & Hin).
  apply filter_In in Hin. destruct Hin as [Hin Hnonempty].
  apply in_map_iff in Hin. destruct Hin as (piece & <- & Hin).
  exists (trim piece). split; [reflexivity|]. split; [|split].
  - unfold nonempty in Hnonempty. intros E. rewrite E in Hnonempty. discriminate.
  - apply trim_idempotent.
  - apply all_chars_trim.
    now apply (proj1 (Forall_forall _ _) (split_delimiters_undelimited false s)).
Qed.

Lemma split_delimiters_piece (x rest : string) :
  undelimited x = true ->
  split_delimiters false (x ++ String "," rest) = x :: split_delimiters true rest.
Proof.
  induction x as [|c x IH]; intros H; [reflexivity|].
  unfold undelimited in H. cbn [all_chars] in H. apply andb_true_iff in H.
  destruct H as [Hc Hx]. apply negb_true_iff in Hc.
  cbn [append split_delimiters]. rewrite Hc. now rewrite (IH Hx).
Qed.

Lemma split_delimiters_last (x : string) :
  undelimited x = true -> split_delimiters false x = [x].
Proof.
  induction x as [|c x IH]; intros H; [reflexivity|].
  unfold undelimited in H. cbn [all_chars] in H. apply andb_true_iff in H.
  destruct H as [Hc Hx]. apply negb_true_iff in Hc.
  cbn [split_delimiters]. rewrite Hc. now rewrite (IH Hx).
Qed.

(** The pieces of a list joined with a comma and a space: every item but the
    first has the space in front. *)
Lemma split_delimiters_joined (x : string) (items : list string) (lead : string) :
  undelimited lead = true ->
  Forall (fun item => undelimited item = true) (x :: items) ->
  split_delimiters false (lead ++ String.concat ", " (x :: items))
  = (lead ++ x) :: map (fun item => " " ++ item) items.
Proof.
  revert x lead. induction items as [|y items IH]; intros x lead Hlead Hitems;
    inversion Hitems as [|? ? Hx Hrest]; subst.
  - cbn [String.concat map]. apply split_delimiters_last.
    unfold undelimited in *. now rewrite all_chars_app, Hlead, Hx.
  - change (String.concat ", " (x :: y :: items))
      with (x ++ String "," (" " ++ String.concat ", " (y :: items))).
    assert (lead ++ x ++ String "," (" " ++ String.concat ", " (y :: items))
            = (lead ++ x) ++ String "," (" " ++ String.concat ", " (y :: items))) as ->.
    { symmetry. apply append_assoc. }
    rewrite split_delimiters_piece
      by (unfold undelimited in *; now rewrite all_chars_app, Hlead, Hx).
    cbn [map]. f_equal.
    change (split_delimiters true (" " ++ String.concat ", " (y :: items)))
      with (split_delimiters false (" " ++ String.concat ", " (y :: items))).
    now apply IH.
Qed.

(** X24. [parseToArray] reads back a list that was joined with a comma and a
    space, when every item is not empty, has no white space at either end,
    holds no comma, semicolon or line feed and is made of ASCII characters. *)
Theorem parseToArray_reads_joined_items (items : list string) :
  Forall (fun item => item <> "" /\ trim item = item /\
                      undelimited item = true /\ ascii_only item = true) items ->
  parseToArray (JStr (String.concat ", " items)) = map JStr items.
Proof.
  intros Hitems.
  destruct items as [|x items]; [reflexivity|].
  unfold parseToArray.
  assert (Forall (fun item => undelimited item = true) (x :: items)) as Hclean.
  { revert Hitems. apply Forall_impl. now intros item (_ & _ & H & _). }
  pose proof (split_delimiters_joined x items "" eq_refl Hclean) as Hsplit.
  cbn [append] in Hsplit. rewrite Hsplit.
  assert (truthy (JStr (String.concat ", " (x :: items))) = true) as ->.
  { inversion Hitems as [|? ? (Hx & _) _]; subst. cbn [truthy].
    destruct x as [|c x]; [now contradiction Hx|]. now destruct items. }
  cbn [negb]. f_equal.
  inversion Hitems as [|? ? (Hx & Htrim & _) Hrest]; subst.
  cbn [map filter]. rewrite Htrim.
  assert (nonempty x = true) as ->
    by (unfold nonempty; destruct (String.eqb_spec x ""); [contradiction | reflexivity]).
  f_equal. clear Hsplit Hclean Hitems Hx Htrim.
  induction Hrest as [|y items (Hy & Htrim & _) _ IH]; [reflexivity|].
  cbn [map filter].
  change (trim (String " " y)) with (trim y). rewrite Htrim.
  assert (nonempty y = true) as ->
    by (unfold nonempty; destruct (String.eqb_spec y ""); [contradiction | reflexivity]).
  now rewrite IH.
Qed.

Lemma parseToArray_reads_joined_items_witness :
  parseToArray (JStr "Paracetamol 500mg, Caffeine 65mg")
  = [JStr "Paracetamol 500mg"; JStr "Caffeine 65mg"].
Proof.
  refine (parseToArray_reads_joined_items ["Paracetamol 500mg"; "Caffeine 65mg"] _).
  repeat (constructor; [repeat split; [discriminate | reflexivity..]|]). constructor.
Defined.


End TransformerFacts.

(** * The drug details endpoint *)

Module DetailsFacts.
Import Details.

Lemma js_or_null_truthy (v : JsVal) : js_or v JNull = JNull \/ truthy (js_or v JNull) = true.
Proof. unfold js_or. destruct (truthy v) eqn:E; [now right | now left]. Qed.

(** X25. [extractDrugData] returns [null] or a truthy value, so the test
    [!brandData] of the handler is the test for [null]. A value other than
    [null] is taken from the response, never made up: it is the response
    itself, the first element of the array [data], or what is under [data],
    [drug], [brand], [generic] or [result]. *)
Theorem extractDrugData_null_or_found (response : JsVal) :
  extractDrugData response = JNull \/
  truthy (extractDrugData response) = true /\
  (extractDrugData response = response \/
   (exists first others,
      field response "data" = JArr (first :: others) /\
      extractDrugData response = first) \/
   exists name,
     In name ["data"; "drug"; "brand"; "generic"; "result"] /\
     extractDrugData response = field response name).
Proof.
  unfold extractDrugData.
  destruct (truthy response) eqn:Eresponse; cbn [negb]; [|now left].
  destruct (truthy (js_or (js_or (field response "id") (field response "brand_id"))
                          (field response "generic_id")));
    [right; split; [exact Eresponse | now left]|].
  destruct (truthy (field response "data")) eqn:Edata.
  { destruct (field response "data") as [| |b|k|s|elems|props] eqn:Efield;
      try (right; split; [exact Edata|]; right; right; exists "data";
           split; [now left | now rewrite Efield]).
    destruct elems as [|first others]; [now left|]. cbn [first_or_null].
    destruct (js_or_null_truthy first) as [->|Hfirst]; [now left|].
    right. split; [exact Hfirst|]. right. left. exists first, others.
    split; [reflexivity|]. unfold js_or in *. now destruct (truthy first). }
  destruct (truthy (field response "drug")) eqn:Edrug;
    [right; split; [exact Edrug|]; right; right; exists "drug"; cbn; tauto|].
  destruct (truthy (field response "brand")) eqn:Ebrand;
    [right; split; [exact Ebrand|]; right; right; exists "brand"; cbn; tauto|].
  destruct (truthy (field response "generic")) eqn:Egeneric;
    [right; split; [exact Egeneric|]; right; right; exists "generic"; cbn; tauto|].
  destruct (truthy (field response "result")) eqn:Eresult;
    [right; split; [exact Eresult|]; right; right; exists "result"; cbn; tauto|].
  destruct (_ || _); [now left|].
  destruct (truthy (js_or (js_or (field response "brand_name")
                                 (field response "generic_name"))
                          (field response "name")));
    [right; split; [exact Eresponse | now left] | now left].
Qed.

End DetailsFacts.

(** * The brand search endpoint *)

Module SearchFacts.
Import Emdex Transformer BrandSearch.
Import TokenFacts RequestFacts WrapperFacts ServiceMore TransformerFacts.

Definition brands_endpoint : string := "/api/v1/brands/search".

(** The request body a search for [query] sends to the service. *)
Definition brands_params (query : string) : JsObject := [("query", JStr query)].

Lemma remove_assign {A} (o : list (string * A)) k v : remove k (assign k v o) = remove k o.
Proof.
  induction o as [|[k0 v0] o IH]; simpl.
  - now rewrite String.eqb_refl.
  - destruct (String.eqb_spec k0 k) as [->|Hne]; simpl.
    + now rewrite String.eqb_refl.
    + destruct (String.eqb_spec k0 k); [contradiction|]. now rewrite IH.
Qed.

Lemma annotate_cache payload info : field (annotate payload info) "_cache" = info.
Proof. unfold annotate. cbn [field]. unfold prop. now rewrite lookup_assign. Qed.

Lemma delete_cache_annotate payload info :
  delete_cache (annotate payload info) = JObj (remove "_cache" (spread payload)).
Proof. unfold annotate, delete_cache. now rewrite remove_assign. Qed.

(** With two nested calls allowed, a cached request settles: it throws, or
    returns a payload with the annotation. *)
Lemma cachedEmdexRequest_settles (fuel : nat) (w : World) (env : Env)
    (endpoint : string) (params : JsObject) (ttlSeconds : Z) (s : State) :
  (exists e s', cachedEmdexRequest (S (S fuel)) env endpoint params ttlSeconds w s
                = (Throws e, s')) \/
  (exists payload hit ttl s',
     cachedEmdexRequest (S (S fuel)) env endpoint params ttlSeconds w s
     = (Returns (annotate payload (cache_info hit (request_key endpoint params) ttl)),
        s')).
Proof.
  destruct (cachedEmdexRequest (S (S fuel)) env endpoint params ttlSeconds w s)
    as [out s'] eqn:Hrun.
  revert Hrun. unfold cachedEmdexRequest. fold (request_key endpoint params).
  unfold bind at 1. rewrite on_cache_run.
  match goal with
  | |- context [if truthy ?cachedData then _ else _] => destruct (truthy cachedData)
  end.
  - unfold bind at 1. rewrite on_cache_run. intros E. injection E as <- <-.
    right. now eexists _, _, _, _.
  - unfold bind at 1.
    match goal with
    | |- context [emdexRequest ?f ?e ?p ?q ?r ?w ?s1] =>
        destruct (emdexRequest f e p q r w s1) as [[result|e'|] s2] eqn:Hraw
    end.
    + unfold bind at 1.
      destruct (truthy result && negb (truthy (field result "error")));
        [rewrite on_cache_run|]; intros E; injection E as <- <-;
        right; now eexists _, _, _, _.
    + intros E. injection E as <- <-. left. now eexists _, _.
    + now destruct (first_call_bound _ _ _ _ _ _ _ _ Hraw) as [H _].
Qed.

(** The handler on a [POST] with a query: what it makes of the cached
    request. *)
Lemma handler_run (ids : nat -> string) (n fuel : nat) (w : World) (env : Env)
    (body : JsVal) (query : string) (s : State) :
  nullish body = false ->
  searchQuery (field body "query") = Some query ->
  handler ids n fuel env "POST" body w s =
  match cachedEmdexRequest fuel env brands_endpoint (brands_params query)
          CACHE_TTL_SEARCH w s with
  | (Returns emdexResponse, s1) =>
      match transformBrandResults ids n (delete_cache emdexResponse) with
      | (TypeError message, _) => (Returns (failed (OtherError message), n), s1)
      | (Ok results, next) =>
          let limit := with_default (field body "limit") (JNum 20) in
          (Returns (found query
                      (js_or (field emdexResponse "_cache") (JObj [("hit", JBool false)]))
                      (if limited w limit then slice_to w limit results else results)
                      (List.length results), next), s1)
      end
  | (Throws e, s1) => (Returns (failed e, n), s1)
  | (OutOfFuel, s1) => (OutOfFuel, s1)
  end.
Proof.
  intros Hbody Hquery. unfold handler. cbn [String.eqb Ascii.eqb Bool.eqb negb].
  rewrite Hbody, Hquery. unfold try_catch, bind.
  fold brands_endpoint. fold (brands_params query).
  destruct (cachedEmdexRequest fuel env brands_endpoint (brands_params query)
              CACHE_TTL_SEARCH w s) as [[emdexResponse|e|] s1]; try reflexivity.
  now destruct (transformBrandResults ids n (delete_cache emdexResponse)) as [[results|message] next].
Qed.

Lemma failed_reply (e : JsError) :
  (statusCode (failed e) = 503 \/ statusCode (failed e) = 500) /\
  field (payload (failed e)) "success" = JBool false.
Proof. destruct e as [message [] original|message]; cbn; auto. Qed.

Lemma failed_503 (e : JsError) :
  code_of e = Some AUTH_FAILED \/ code_of e = Some NETWORK_ERROR ->
  statusCode (failed e) = 503.
Proof.
  destruct e as [message [] original|message]; cbn; intros [H|H];
    try reflexivity; discriminate.
Qed.

Lemma transformBrandResults_drugs ids n v drugs next :
  transformBrandResults ids n v = (Ok drugs, next) ->
  (n <= next)%nat /\
  exists elems, Forall2 (transformed "brand" "emdex_brand_") (filter truthy elems) drugs.
Proof.
  unfold transformBrandResults, transform_results.
  destruct (unwrap_results "brands" v) as [[| |b|k|t|elems|props]|]; try discriminate.
  - intros E. injection E as <- <-.
    destruct (transform_each_spec transformEmdexBrand "brand" "emdex_brand_" "brand_id"
                transformEmdexBrand_falsy transformEmdexBrand_truthy ids n elems)
      as [Hdrugs ->].
    split; [lia | now exists elems].
  - intros E. injection E as <- <-. split; [lia|]. exists []. constructor.
Qed.

Lemma transformBrandResults_throws ids n v message next :
  transformBrandResults ids n v = (TypeError message, next) -> next = n.
Proof.
  unfold transformBrandResults, transform_results.
  destruct (unwrap_results "brands" v) as [[| |b|k|t|elems|props]|];
    intros E; try discriminate; now injection E as _ <-.
Qed.

(** X26. With two nested calls allowed, the brand search handler always
    answers, whatever the method, the body, the environment, the cache and the
    upstream do: the status is 200, 400, 405, 500 or 503, and [success] in the
    body is true exactly for 200. *)
Theorem brand_search_always_answers (ids : nat -> string) (n fuel : nat)
    (w : World) (env : Env) (method : string) (body : JsVal) (s : State) :
  exists reply next s',
    handler ids n (S (S fuel)) env method body w s = (Returns (reply, next), s') /\
    In (statusCode reply) [200; 400; 405; 500; 503] /\
    field (payload reply) "success" = JBool (statusCode reply =? 200) /\
    (n <= next)%nat.
Proof.
  destruct (String.eqb_spec method "POST") as [->|Hne].
  - destruct (nullish body) eqn:Hbody.
    + unfold handler. cbn [String.eqb Ascii.eqb Bool.eqb negb]. rewrite Hbody.
      eexists _, _, _. split; [reflexivity|]. cbn. split; [tauto | split; [reflexivity | lia]].
    + destruct (searchQuery (field body "query")) as [query|] eqn:Hquery.
      * rewrite (handler_run ids n _ w env body query s Hbody Hquery).
        destruct (cachedEmdexRequest_settles fuel w env brands_endpoint
                    (brands_params query) CACHE_TTL_SEARCH s)
          as [(e & s' & ->) | (data & hit & ttl & s' & ->)].
        -- eexists _, _, _. split; [reflexivity|].
           destruct (failed_reply e) as [[-> | ->] ->]; cbn; split; try tauto;
             split; try reflexivity; lia.
        -- destruct (transformBrandResults ids n (delete_cache (annotate data _)))
             as [[results|message] next] eqn:Hresults.
           ++ eexists _, _, _. split; [reflexivity|]. cbn. split; [tauto|].
              split; [reflexivity|].
              now destruct (transformBrandResults_drugs _ _ _ _ _ Hresults).
           ++ eexists _, _, _. split; [reflexivity|]. cbn.
              split; [tauto | split; [reflexivity | lia]].
      * unfold handler. cbn [String.eqb Ascii.eqb Bool.eqb negb].
        rewrite Hbody, Hquery.
        eexists _, _, _. split; [reflexivity|]. cbn.
        split; [tauto | split; [reflexivity | lia]].
  - unfold handler. destruct (String.eqb_spec method "POST"); [contradiction|].
    eexists _, _, _. split; [reflexivity|]. cbn.
    split; [tauto | split; [reflexivity | lia]].
Qed.

(** X27. A request the handler turns away costs nothing: for a method other
    than [POST] (405), for a body that is [null] or [undefined] (500: reading
    the query throws) and for a query that is not a string with something
    other than white space in it (400), the state is left as it was, so the
    cache is not looked at and nothing is sent, and no identifier is drawn. *)
Theorem brand_search_refusals_touch_nothing (ids : nat -> string) (n fuel : nat)
    (w : World) (env : Env) (method : string) (body : JsVal) (s : State) :
  method <> "POST" \/ nullish body = true \/ searchQuery (field body "query") = None ->
  exists reply,
    handler ids n fuel env method body w s = (Returns (reply, n), s) /\
    statusCode reply
    = if negb (method =? "POST")%string then 405
      else if nullish body then 500 else 400.
Proof.
  intros H. unfold handler.
  destruct (String.eqb_spec method "POST") as [->|Hne]; cbn [negb];
    [|eexists; split; reflexivity].
  destruct H as [H | H]; [now contradiction H|].
  destruct (nullish body) eqn:Hbody; [eexists; split; reflexivity|].
  destruct H as [H | H]; [discriminate|]. rewrite H.
  eexists; split; reflexivity.
Qed.

Lemma brand_search_refusals_touch_nothing_witness :
  exists reply,
    handler (fun _ => "k3x9") 0 2 sample_env "POST"
      (JObj [("query", JStr "   ")]) sample_world initial
    = (Returns (reply, 0%nat), initial) /\
    statusCode reply = 400.
Proof.
  apply (brand_search_refusals_touch_nothing (fun _ => "k3x9") 0 2 sample_world
           sample_env "POST" (JObj [("query", JStr "   ")]) initial).
  right. right. reflexivity.
Defined.


(** The property names of a spread array are numbers. *)
Definition starts_with_digit (k : string) : bool :=
  match k with
  | String c _ => (48 <=? nat_of_ascii c)%nat && (nat_of_ascii c <=? 57)%nat
  | EmptyString => false
  end.

Lemma string_of_nat_digit (i : nat) : starts_with_digit (string_of_nat i) = true.
Proof. unfold string_of_nat. now destruct (Nat.to_uint i). Qed.

Lemma lookup_indexed {A} (k : string) (i : nat) (l : list A) :
  starts_with_digit k = false -> lookup k (indexed i l) = None.
Proof.
  intros Hk. revert i. induction l as [|x l IH]; intros i; [reflexivity|].
  cbn [indexed lookup]. destruct (String.eqb_spec (string_of_nat i) k) as [E|_].
  - rewrite <- E, string_of_nat_digit in Hk. discriminate.
  - apply IH.
Qed.

Lemma spread_array_has_no_envelope (k : string) (xs : list JsVal) :
  starts_with_digit k = false -> k <> "_cache" ->
  prop (remove "_cache" (spread (JArr xs))) k = JUndefined.
Proof.
  intros Hk Hne. unfold prop.
  rewrite CacheMore.lookup_remove_other by exact Hne.
  cbn [spread]. now rewrite lookup_indexed.
Qed.

Lemma slice_to_nil w limit : slice_to w limit [] = [].
Proof.
  unfold slice_to. destruct (to_number w limit) as [k|]; [|reflexivity].
  destruct (k <? 0); now rewrite firstn_nil.
Qed.

(** X28. A payload that is a bare array gives no results through the
    handler: the annotation of [cachedEmdexRequest] spreads it into an object
    with the indexes as property names, in which [transformBrandResults] finds
    none of [data], [results] and [brands]. Whatever the array holds, the
    answer is 200 with no results and a total of 0. *)
Theorem brand_search_loses_bare_array (ids : nat -> string) (n fuel : nat)
    (w : World) (env : Env) (body : JsVal) (query : string) (s : State)
    (xs : list JsVal) (info : JsVal) (s1 : State) :
  nullish body = false ->
  searchQuery (field body "query") = Some query ->
  cachedEmdexRequest fuel env brands_endpoint (brands_params query) CACHE_TTL_SEARCH w s
  = (Returns (annotate (JArr xs) info), s1) ->
  exists reply,
    handler ids n fuel env "POST" body w s = (Returns (reply, n), s1) /\
    statusCode reply = 200 /\
    field (payload reply) "results" = JArr [] /\
    field (payload reply) "total" = JNum 0.
Proof.
  intros Hbody Hquery Hrun.
  rewrite (handler_run ids n fuel w env body query s Hbody Hquery), Hrun.
  rewrite delete_cache_annotate.
  assert (transformBrandResults ids n (JObj (remove "_cache" (spread (JArr xs))))
          = (Ok [], n)) as ->.
  { unfold transformBrandResults, transform_results, unwrap_results.
    cbn [truthy andb field].
    now rewrite !spread_array_has_no_envelope. }
  cbv zeta. rewrite slice_to_nil.
  eexists. split; [reflexivity|]. cbn [statusCode payload found field].
  split; [reflexivity|]. split; [|reflexivity].
  unfold prop. cbn [lookup String.eqb Ascii.eqb Bool.eqb].
  now destruct (limited w _).
Qed.

(** An upstream that answers a search with a bare array of two brands. *)
Definition bare_world : World :=
  {| date_now := date_now sample_world;
     upstream := fun k =>
       match k with
       | 0%nat => login_accepted "t1"
       | _ => Resolves {| status := 200; statusText := "OK"; text := "";
                          json := Parsed (JArr [JObj [("id", JNum 1)];
                                                JObj [("id", JNum 2)]]) |}
       end;
     mockEmdexRequest := mockEmdexRequest sample_world;
     string_to_number := string_to_number sample_world |}.

Lemma brand_search_loses_bare_array_witness :
  exists reply s1,
    handler (fun _ => "k3x9") 0 2 sample_env "POST"
      (JObj [("query", JStr "Panadol")]) bare_world initial
    = (Returns (reply, 0%nat), s1) /\
    List.length (log s1) = 2%nat /\
    statusCode reply = 200 /\
    field (payload reply) "results" = JArr [] /\
    field (payload reply) "total" = JNum 0.
Proof.
  destruct (brand_search_loses_bare_array (fun _ => "k3x9") 0 2 bare_world
              sample_env (JObj [("query", JStr "Panadol")]) "Panadol" initial
              [JObj [("id", JNum 1)]; JObj [("id", JNum 2)]]
              (cache_info false "emdex_api_v1_brands_search_query=panadol" 3600)
              _ eq_refl eq_refl eq_refl) as (reply & Hreply & Hrest).
  exists reply. eexists. split; [exact Hreply|]. split; [reflexivity | exact Hrest].
Defined.


Lemma prop_remove_other (props : JsObject) (name : string) :
  name <> "_cache" -> prop (remove "_cache" props) name = prop props name.
Proof. intros H. unfold prop. now rewrite CacheMore.lookup_remove_other. Qed.

Lemma enveloped_remove_cache (props : JsObject) (elems : list JsVal) :
  enveloped "brands" props elems ->
  enveloped "brands" (remove "_cache" props) elems.
Proof. unfold enveloped. now rewrite !prop_remove_other. Qed.

(** X29. What the handler makes of the answer of the cached request. When
    the cached request returns an object that holds the array of results
    (under [data], else [results], else [brands]), the answer is 200 and its
    body is [{success: true, query, source: 'emdex', results, total, cached}]:
    [total] is the number of truthy elements of that array, whatever the
    limit; [results] is the front of the drugs [transformBrandResults] makes
    of the array, one for each truthy element: the first 20 when the body
    gives no [limit], the first [k] for a limit [k] above 0, and all of them
    for a limit of 0 or below; [cached] is the [hit] of the annotation. The
    state is the one the cached request leaves. *)
Theorem brand_search_counts_and_limits (ids : nat -> string) (n fuel : nat)
    (w : World) (env : Env) (body : JsVal) (query : string) (s : State)
    (props : JsObject) (elems : list JsVal) (s1 : State) :
  nullish body = false ->
  searchQuery (field body "query") = Some query ->
  cachedEmdexRequest fuel env "/api/v1/brands/search" [("query", JStr query)] 3600 w s
  = (Returns (JObj props), s1) ->
  enveloped "brands" props elems ->
  exists drugs shown reply next,
    handler ids n fuel env "POST" body w s = (Returns (reply, next), s1) /\
    transformBrandResults ids n (JArr elems) = (Ok drugs, next) /\
    Forall2 (transformed "brand" "emdex_brand_") (filter truthy elems) drugs /\
    statusCode reply = 200 /\
    payload reply =
      JObj [("success", JBool true);
            ("query", JStr query);
            ("source", JStr "emdex");
            ("results", JArr shown);
            ("total", JNum (Z.of_nat (List.length (filter truthy elems))));
            ("cached",
             field (js_or (prop props "_cache") (JObj [("hit", JBool false)])) "hit")] /\
    (field body "limit" = JUndefined -> shown = firstn 20 drugs) /\
    (forall k, field body "limit" = JNum k ->
               shown = if 0 <? k then firstn (Z.to_nat k) drugs else drugs).
Proof.
  intros Hbody Hquery Hrun Hdata.
  rewrite (handler_run ids n fuel w env body query s Hbody Hquery).
  unfold brands_endpoint, brands_params, CACHE_TTL_SEARCH. rewrite Hrun.
  cbn [delete_cache].
  destruct (wrapped_array_run ids n (remove "_cache" props) elems
              (enveloped_remove_cache props elems Hdata)) as (drugs & Hsame & Hbare & Hdrugs).
  rewrite Hsame. cbv zeta.
  eexists drugs, _, _, _. split; [reflexivity|]. split; [exact Hbare|].
  split; [exact Hdrugs|]. split; [reflexivity|]. split.
  - cbn [payload found field]. now rewrite (Forall2_length Hdrugs).
  - split.
    + intros ->. reflexivity.
    + intros k ->. cbn [with_default]. unfold limited, slice_to. cbn [truthy to_number].
      destruct (Z.ltb_spec 0 k) as [Hk|Hk].
      * destruct (Z.eqb_spec k 0); [lia|]. destruct (Z.ltb_spec k 0); [lia|]. reflexivity.
      * now rewrite andb_false_r.
Qed.

(** An upstream that answers a search with three brands under [data], one of
    them [null]. *)
Definition three_world : World :=
  {| date_now := date_now sample_world;
     upstream := fun k =>
       match k with
       | 0%nat => login_accepted "t1"
       | _ => Resolves {| status := 200; statusText := "OK"; text := "";
                          json := Parsed (JObj [("data",
                                    JArr [JObj [("id", JNum 1)]; JNull;
                                          JObj [("id", JNum 2)];
                                          JObj [("id", JNum 3)]])]) |}
       end;
     mockEmdexRequest := mockEmdexRequest sample_world;
     string_to_number := string_to_number sample_world |}.

Lemma brand_search_counts_and_limits_witness :
  exists drugs shown reply next s1,
    handler (fun _ => "k3x9") 0 2 sample_env "POST"
      (JObj [("query", JStr " Panadol "); ("limit", JNum 2)]) three_world initial
    = (Returns (reply, next), s1) /\
    List.length drugs = 3%nat /\
    shown = firstn 2 drugs /\
    payload reply =
      JObj [("success", JBool true);
            ("query", JStr "Panadol");
            ("source", JStr "emdex");
            ("results", JArr shown);
            ("total", JNum 3);
            ("cached", JBool false)].
Proof.
  destruct (brand_search_counts_and_limits (fun _ => "k3x9") 0 2 three_world
              sample_env (JObj [("query", JStr " Panadol "); ("limit", JNum 2)])
              "Panadol" initial
              [("data", JArr [JObj [("id", JNum 1)]; JNull; JObj [("id", JNum 2)];
                              JObj [("id", JNum 3)]]);
               ("_cache", JObj [("hit", JBool false);
                                ("key", JStr "emdex_api_v1_brands_search_query=panadol");
                                ("ttl", JNum 3600)])]
              [JObj [("id", JNum 1)]; JNull; JObj [("id", JNum 2)]; JObj [("id", JNum 3)]]
              _ eq_refl eq_refl eq_refl (or_introl eq_refl))
    as (drugs & shown & reply & next & Hrun & _ & Hdrugs & _ & Hpayload & _ & Hlimit).
  exists drugs, shown, reply, next. eexists. split; [exact Hrun|].
  split; [exact (eq_sym (Forall2_length Hdrugs))|].
  split; [exact (Hlimit 2 eq_refl) | exact Hpayload].
Defined.

(** The run of a cached request that misses and whose raw request throws. *)
Lemma cached_miss_throws_run (w : World) (env : Env) (fuel : nat)
    (endpoint : string) (params : JsObject) (ttlSeconds : Z) (s : State)
    (e : JsError) (s2 : State) :
  let key := request_key endpoint params in
  let now1 := Z.of_N (date_now w (clock s)) in
  truthy (fst (Cache.get now1 key (responses s))) = false ->
  emdexRequest fuel env endpoint params false w (looked_up w key s) = (Throws e, s2) ->
  cachedEmdexRequest fuel env endpoint params ttlSeconds w s = (Throws e, s2).
Proof.
  intros key now1 Hmiss Hrun.
  unfold cachedEmdexRequest. fold (request_key endpoint params). fold key.
  unfold bind at 1. rewrite on_cache_run. fold now1. rewrite Hmiss.
  change (with_responses (snd (Cache.get now1 key (responses s)))
            (if held key (responses s) then tick s else s))
    with (looked_up w key s).
  unfold bind at 1. now rewrite Hrun.
Qed.

(** The body of an answer that reports a failure. *)
Definition failure_body (message code : string) : JsVal :=
  JObj [("success", JBool false); ("error", JStr message); ("code", JStr code)].

(** X30. How the handler reports a failing upstream, for a search that
    misses the cache outside mock mode; [s1] is the state the lookup leaves.
    When [EMDEX_API_URL] is not set, the answer is 500 with the code
    [INTERNAL_ERROR], and nothing is sent. When it is set and no token can be
    had (the e-mail or the password is missing, the login is refused or
    fails), the answer is 503, with the code [AUTH_ERROR] for an error
    [AUTH_FAILED] and [SERVICE_UNAVAILABLE] for an error [NETWORK_ERROR]. When
    the data call is rejected by the network, the answer is 503 with the code
    [SERVICE_UNAVAILABLE]. When the data call is answered with an error status
    other than 401, the answer is 500 with the code [INTERNAL_ERROR]. In each
    case nothing is stored in the cache and no identifier is drawn. *)
Theorem brand_search_reports_upstream_failures (ids : nat -> string) (n fuel : nat)
    (w : World) (env : Env) (body : JsVal) (query : string) (s : State) :
  nullish body = false ->
  searchQuery (field body "query") = Some query ->
  USE_MOCK env = false ->
  let key :=
    Cache.generateKey "emdex_api_v1_brands_search" [("query", JStr query)] in
  let now1 := Z.of_N (date_now w (clock s)) in
  let s1 :=
    with_responses (snd (Cache.get now1 key (responses s)))
      (match lookup key (Cache.cache (responses s)) with
       | Some _ => tick s
       | None => s
       end) in
  let run := handler ids n (S fuel) env "POST" body w s in
  let internal_error :=
    {| statusCode := 500; headersSet := [];
       payload := failure_body "An error occurred while searching drugs"
                    "INTERNAL_ERROR" |} in
  let unavailable :=
    {| statusCode := 503; headersSet := [];
       payload := failure_body "Drug database temporarily unavailable"
                    "SERVICE_UNAVAILABLE" |} in
  let auth_error :=
    {| statusCode := 503; headersSet := [];
       payload := failure_body "Drug database authentication failed" "AUTH_ERROR" |} in
  truthy (fst (Cache.get now1 key (responses s))) = false ->
  (unset (EMDEX_API_URL env) = true -> run = (Returns (internal_error, n), s1)) /\
  (unset (EMDEX_API_URL env) = false ->
   (forall e s2,
      getToken env w s1 = (Throws e, s2) ->
      responses s2 = responses s1 /\
      (code_of e = Some AUTH_FAILED /\ run = (Returns (auth_error, n), s2) \/
       code_of e = Some NETWORK_ERROR /\ run = (Returns (unavailable, n), s2))) /\
   (forall token s2 message,
      getToken env w s1 = (Returns token, s2) ->
      upstream w (List.length (log s2)) = Rejects message ->
      exists s',
        run = (Returns (unavailable, n), s') /\
        List.length (log s') = S (List.length (log s2)) /\
        responses s' = responses s1) /\
   (forall token s2 r,
      getToken env w s1 = (Returns token, s2) ->
      upstream w (List.length (log s2)) = Resolves r ->
      ok r = false -> status r <> 401 ->
      exists s',
        run = (Returns (internal_error, n), s') /\
        List.length (log s') = S (List.length (log s2)) /\
        responses s' = responses s1)).
Proof.
  intros Hbody Hquery Hmock key now1 s1 run internal_error unavailable auth_error Hmiss.
  assert (key = request_key brands_endpoint (brands_params query)) as Hkey
    by reflexivity.
  assert (s1 = looked_up w key s) as Hs1.
  { unfold s1, looked_up, held. fold now1.
    now destruct (lookup key (Cache.cache (responses s))). }
  assert (Hthrows : forall e s2,
    emdexRequest (S fuel) env brands_endpoint (brands_params query) false w s1
    = (Throws e, s2) ->
    run = (Returns (failed e, n), s2)).
  { intros e s2 Hrun. unfold run.
    rewrite (handler_run ids n (S fuel) w env body query s Hbody Hquery).
    rewrite (cached_miss_throws_run w env (S fuel) brands_endpoint (brands_params query)
               CACHE_TTL_SEARCH s e s2); [reflexivity | |].
    - rewrite <- Hkey. exact Hmiss.
    - rewrite <- Hkey, <- Hs1. exact Hrun. }
  split.
  - intros Hurl.
    now rewrite (Hthrows (EmdexError "EMDEX_API_URL not configured" REQUEST_FAILED None)
                   s1 (emdexRequest_no_url fuel w env _ _ false s1 Hmock Hurl)).
  - intros Hurl. split; [|split].
    + intros e s2 Htoken.
      split; [now destruct (getToken_frame w env s1 _ _ Htoken) as (_ & _ & H)|].
      assert (run = (Returns (failed (rethrown e), n), s2)) as ->.
      { apply Hthrows. rewrite emdexRequest_cases by assumption. now rewrite Htoken. }
      destruct (getToken_throws_EmdexError w env s1 e s2 Htoken)
        as (m & code & original & ->).
      destruct (getToken_failure_codes w env s1 _ s2 Htoken) as [E|E];
        injection E as ->; [left | right]; now split.
    + intros token s2 message Htoken Hreject.
      assert (emdexRequest (S fuel) env brands_endpoint (brands_params query) false w s1
              = (Throws (request_network_error message),
                 logged (data_request (env_string (EMDEX_API_URL env)) token
                           brands_endpoint (brands_params query), Rejects message) s2))
        as Hrun.
      { rewrite emdexRequest_cases by assumption.
        rewrite Htoken. cbv zeta. now rewrite Hreject. }
      eexists. split; [|split].
      * now rewrite (Hthrows _ _ Hrun).
      * cbn [log logged]. rewrite length_app. cbn. lia.
      * now destruct (getToken_frame w env s1 _ _ Htoken) as (_ & _ & H).
    + intros token s2 r Htoken Hanswer Hok Hstatus.
      assert (emdexRequest (S fuel) env brands_endpoint (brands_params query) false w s1
              = (Throws (request_failed r),
                 logged (data_request (env_string (EMDEX_API_URL env)) token
                           brands_endpoint (brands_params query), Resolves r) s2))
        as Hrun.
      { rewrite emdexRequest_cases by assumption.
        rewrite Htoken. cbv zeta. rewrite Hanswer.
        destruct (Z.eqb_spec (status r) 401); [contradiction|].
        cbn [andb]. now rewrite Hok. }
      eexists. split; [|split].
      * now rewrite (Hthrows _ _ Hrun).
      * cbn [log logged]. rewrite length_app. cbn. lia.
      * now destruct (getToken_frame w env s1 _ _ Htoken) as (_ & _ & H).
Qed.

(** An upstream whose data endpoint answers 500. *)
Definition failing_world : World :=
  {| date_now := date_now sample_world;
     upstream := fun k =>
       match k with
       | 0%nat => login_accepted "t1"
       | _ => Resolves {| status := 500; statusText := "Internal Server Error";
                          text := "down"; json := Unparsable "Unexpected token" |}
       end;
     mockEmdexRequest := mockEmdexRequest sample_world;
     string_to_number := string_to_number sample_world |}.

(** An environment that has lost the address of the service. *)
Definition no_url : Env :=
  {| EMDEX_API_URL := None; EMDEX_EMAIL := Some "app@scanrx";
     EMDEX_PASSWORD := Some "secret"; USE_MOCK := false |}.

Lemma brand_search_reports_upstream_failures_witness :
  (exists s',
     handler (fun _ => "k3x9") 0 1 sample_env "POST"
       (JObj [("query", JStr "Panadol")]) failing_world initial
     = (Returns ({| statusCode := 500; headersSet := [];
                    payload := failure_body "An error occurred while searching drugs"
                                 "INTERNAL_ERROR" |}, 0%nat), s') /\
     List.length (log s') = 2%nat /\
     Cache.cache (responses s') = []) /\
  handler (fun _ => "k3x9") 0 1 no_url "POST"
    (JObj [("query", JStr "Panadol")]) failing_world initial
  = (Returns ({| statusCode := 500; headersSet := [];
                 payload := failure_body "An error occurred while searching drugs"
                              "INTERNAL_ERROR" |}, 0%nat),
     with_responses (Cache.count_miss Cache.initial) initial).
Proof.
  split.
  - destruct (brand_search_reports_upstream_failures (fun _ => "k3x9") 0 0 failing_world
                sample_env (JObj [("query", JStr "Panadol")]) "Panadol" initial
                eq_refl eq_refl eq_refl eq_refl) as (_ & Hset).
    destruct (Hset eq_refl) as (_ & _ & Hstatus).
    destruct (Hstatus (JStr "t1") _
                {| status := 500; statusText := "Internal Server Error";
                   text := "down"; json := Unparsable "Unexpected token" |}
                eq_refl eq_refl eq_refl) as (s' & Hrun & Hlog & Hcache).
    + discriminate.
    + exists s'. split; [exact Hrun|]. split; [exact Hlog | now rewrite Hcache].
  - exact (proj1 (brand_search_reports_upstream_failures (fun _ => "k3x9") 0 0
                    failing_world no_url (JObj [("query", JStr "Panadol")]) "Panadol"
                    initial eq_refl eq_refl eq_refl eq_refl) eq_refl).
Defined.

End SearchFacts.
